(** * CAMT.053 parser: a shallow embedding of [src/parser.ts]

    Part I follows the source file top-down: the numbers and the tree that
    [xml2js] hands to the parser, the helpers [get], [extractDate] and
    [extractAmount], and the body of [parseCamt053] (statement resolver,
    entry flattener, top-level checks), then the sample runner of
    [src/parse-samples.ts].  Code that can throw in JavaScript lives in
    the [result] monad: reading a property of [null] or [undefined] raises
    a TypeError, the top-level checks raise [Camt053ParserError].

    Part II gives the vocabulary the properties are stated in: the nodes a
    path reaches, the statement and the transaction as plain functions of
    the tree, and the sample trees.

    Part III proves that the resolver never throws and returns exactly
    that statement, and then the properties of the specification (C1 to
    C10), each against [mapStatement] or [parseCamt053] themselves.

    Part IV proves further properties of the code (X2 to X23): the
    namespace pattern, [get], [extractDate], the fields no property of
    the specification speaks of, what each level of the tree is read
    from, and the sample runner. *)

From Stdlib Require Import String Ascii List ZArith Lia Bool Arith.
From Stdlib Require Import Sorting.Permutation.
From Stdlib Require Import Floats.SpecFloat.
From Stdlib Require Import Numbers.DecimalString.
From Stdlib Require Numbers.DecimalNat Numbers.DecimalFacts.
Import ListNotations.

Local Open Scope string_scope.
Local Open Scope list_scope.

(* ********************************************************************* *)
(** * Part I: the parser *)
(* ********************************************************************* *)

(* ===================================================================== *)
(** ** Characters and strings *)
(* ===================================================================== *)

(** The double-quote character (code 34), used by the namespace pattern. *)
Definition dquote : ascii := ascii_of_nat 34.

(** [\d] of a JavaScript regular expression without the unicode flag. *)
Definition isDigit (c : ascii) : bool :=
  let n := nat_of_ascii c in ((48 <=? n) && (n <=? 57))%nat.

(** A string holds the UTF-8 encoding of a JavaScript text: the characters
    the parser tests (digits, signs, quotes, brackets, the hyphen) are
    ASCII, and no byte of a longer sequence equals an ASCII character.

    The ASCII part of StrWhiteSpaceChar, the white space [parseInt] and
    [parseFloat] skip: TAB, LF, VT, FF, CR, SP. *)
Definition isSpace (c : ascii) : bool :=
  let n := nat_of_ascii c in
  (((9 <=? n) && (n <=? 13)) || (n =? 32))%nat.

(** The rest of StrWhiteSpaceChar in UTF-8: U+00A0 on two bytes; on three
    bytes U+1680, U+2000 to U+200A, U+2028, U+2029, U+202F, U+205F, U+3000
    and U+FEFF. *)
Definition isSpace2 (a b : ascii) : bool :=
  ((nat_of_ascii a =? 194) && (nat_of_ascii b =? 160))%nat.

Definition isSpace3 (a b c : ascii) : bool :=
  let x := nat_of_ascii a in
  let y := nat_of_ascii b in
  let z := nat_of_ascii c in
  (((x =? 225) && (y =? 154) && (z =? 128))
   || ((x =? 226) && (y =? 128)
       && (((128 <=? z) && (z <=? 138)) || (z =? 168) || (z =? 169) || (z =? 175)))
   || ((x =? 226) && (y =? 129) && (z =? 159))
   || ((x =? 227) && (y =? 128) && (z =? 128))
   || ((x =? 239) && (y =? 187) && (z =? 191)))%nat.

Definition isEmpty (s : string) : bool :=
  match s with EmptyString => true | String _ _ => false end.

Fixpoint dropWhile (p : ascii -> bool) (s : string) : string :=
  match s with
  | EmptyString => EmptyString
  | String c r => if p c then dropWhile p r else s
  end.

Fixpoint takeWhile (p : ascii -> bool) (s : string) : string :=
  match s with
  | EmptyString => EmptyString
  | String c r => if p c then String c (takeWhile p r) else EmptyString
  end.

(** The text after its leading white space, as [parseInt] and [parseFloat]
    skip it. *)
Fixpoint trimStart (s : string) : string :=
  match s with
  | EmptyString => EmptyString
  | String a r =>
      if isSpace a then trimStart r
      else
        match r with
        | String b r2 =>
            if isSpace2 a b then trimStart r2
            else
              match r2 with
              | String c r3 => if isSpace3 a b c then trimStart r3 else s
              | EmptyString => s
              end
        | EmptyString => s
        end
  end.

(** [stripPrefix p s] is the rest of [s] after the literal [p], if [s]
    starts with it. *)
Fixpoint stripPrefix (p s : string) : option string :=
  match p, s with
  | EmptyString, _ => Some s
  | String a p', String b s' => if Ascii.eqb a b then stripPrefix p' s' else None
  | String _ _, EmptyString => None
  end.

(* ===================================================================== *)
(** ** Numbers: IEEE-754 binary64 *)
(* ===================================================================== *)

(** A JavaScript [number] is a binary64 float; [S754_nan] is [NaN]. *)
Definition number : Type := spec_float.
Definition NaN : number := S754_nan.

Definition prec64 : Z := 53.
Definition emax64 : Z := 1024.

(** The double nearest to [(-1)^neg * m * 10^e] (round to nearest, ties to
    even), the value the engine assigns to a decimal literal. *)
Definition decimalToNumber (neg : bool) (m : Z) (e : Z) : number :=
  match m with
  | Zpos p =>
      if (0 <=? e)%Z
      then binary_normalize prec64 emax64
             (if neg then - (Zpos p * 10 ^ e) else Zpos p * 10 ^ e)%Z 0 false
      else SFdiv prec64 emax64
             (S754_finite neg p 0)
             (match (10 ^ (- e))%Z with
              | Zpos q => S754_finite false q 0
              | _ => S754_nan
              end)
  | _ => S754_zero neg
  end.

Definition digitVal (c : ascii) : Z := Z.of_nat (nat_of_ascii c - 48).

(** Value of a string of decimal digits, most significant first. *)
Fixpoint digitsToZ (acc : Z) (s : string) : Z :=
  match s with
  | EmptyString => acc
  | String c r => digitsToZ (10 * acc + digitVal c)%Z r
  end.

(** Optional sign of a numeric literal: the flag is [true] for ["-"]. *)
Definition readSign (s : string) : bool * string :=
  match s with
  | String "-" r => (true, r)
  | String "+" r => (false, r)
  | _ => (false, s)
  end.

(** [parseInt(s, 10)] on a string: leading white space, an optional sign,
    then the longest run of decimal digits; [NaN] if that run is empty.
    The integer is rounded to the nearest double (an engine may round a
    run of more than 20 digits less precisely). *)
Definition parseIntStr (s : string) : number :=
  let (neg, r) := readSign (trimStart s) in
  let ds := takeWhile isDigit r in
  if isEmpty ds then NaN else decimalToNumber neg (digitsToZ 0 ds) 0.

(** The exponent part of a decimal literal ([e] or [E], an optional sign,
    digits), counted only if a digit follows. *)
Definition readExponent (s : string) : Z :=
  match s with
  | String c r =>
      if Ascii.eqb c "e" || Ascii.eqb c "E" then
        let (neg, r') := readSign r in
        let ds := takeWhile isDigit r' in
        if isEmpty ds then 0%Z
        else if neg then (- digitsToZ 0 ds)%Z else digitsToZ 0 ds
      else 0%Z
  | EmptyString => 0%Z
  end.

(** What [parseFloat] finds at the head of a string, after leading white
    space: no StrDecimalLiteral at all, a signed [Infinity], or a signed
    decimal literal with digits [mantissa] scaled by [10^exponent]. *)
Inductive literal : Type :=
  | NoLiteral
  | InfinityLiteral (neg : bool)
  | DecimalLiteral (neg : bool) (mantissa : Z) (exponent : Z).

(** The longest prefix that is a StrDecimalLiteral: digits with an optional
    fraction ([12], [12.], [12.5], [.5]) and an optional exponent. *)
Definition scanLiteral (s : string) : literal :=
  let (neg, r) := readSign (trimStart s) in
  match stripPrefix "Infinity" r with
  | Some _ => InfinityLiteral neg
  | None =>
      let int := takeWhile isDigit r in
      let r1 := dropWhile isDigit r in
      let (frac, r2) :=
        match r1 with
        | String "." r' => (takeWhile isDigit r', dropWhile isDigit r')
        | _ => (EmptyString, r1)
        end in
      if isEmpty int && isEmpty frac then NoLiteral
      else DecimalLiteral neg (digitsToZ 0 (int ++ frac))
             (readExponent r2 - Z.of_nat (String.length frac))
  end.

(** The number a literal denotes; [NaN] when there is none. *)
Definition numberOfLiteral (l : literal) : number :=
  match l with
  | NoLiteral => NaN
  | InfinityLiteral neg => S754_infinity neg
  | DecimalLiteral neg m e => decimalToNumber neg m e
  end.

(** [parseFloat(s)] on a string. *)
Definition parseFloatStr (s : string) : number :=
  numberOfLiteral (scanLiteral s).

(* ===================================================================== *)
(** ** The parsed tree *)
(* ===================================================================== *)

(** What [parseStringPromise(xml, {explicitArray: false, mergeAttrs: true})]
    builds: an element with only text is a string (the empty string for an
    element without content), an element with children or attributes is an
    object keyed by child and attribute names (text content under ["_"]),
    and a repeated child is an array.  Objects are taken to be ordinary
    objects: keys are unique, so the first binding of an association list
    is the property, and their conversion to a string is the default one
    (see [toString]). *)
#[warnings="-register-all"] Inductive value : Type :=
  | VStr (s : string)
  | VArr (items : list value)
  | VObj (fields : list (string * value)).

(** A JavaScript value that may be [null] or [undefined]: [None] stands for
    both (the parser only tests them with [!x], [??] and [||], which do not
    tell them apart, and the tree itself never holds either). *)
Definition jsval : Type := option value.

(** Truthiness of a value that is not nullish: only the empty string is
    falsy. *)
Definition truthyV (v : value) : bool :=
  match v with
  | VStr s => negb (isEmpty s)
  | _ => true
  end.

(** [!!x] *)
Definition truthy (x : jsval) : bool :=
  match x with
  | Some v => truthyV v
  | None => false
  end.

(** The first binding of [k] in an association list. *)
Fixpoint assoc {A : Type} (k : string) (fs : list (string * A)) : option A :=
  match fs with
  | [] => None
  | (k', v) :: r => if String.eqb k k' then Some v else assoc k r
  end.

(** [v[k]] on a receiver that is not [null]/[undefined], for the keys the
    parser reads: element and attribute names of the schema, which start
    with a capital letter, and ["_"].  None of them is a built-in or
    inherited property of strings, arrays or objects (those start with a
    small letter, a digit or an underscore followed by more), so only the
    own properties of objects answer. *)
Definition prop (v : value) (k : string) : jsval :=
  match v with
  | VObj fs => assoc k fs
  | _ => None
  end.

(** [Array.isArray(x) ? x : [x]] *)
Definition asArray (v : value) : list value :=
  match v with
  | VArr l => l
  | _ => [v]
  end.

(** [String(v)], as [parseInt], [parseFloat] and [Array.prototype.join]
    apply it to a value that is not a string. *)
Fixpoint toString (v : value) : string :=
  match v with
  | VStr s => s
  | VArr l => String.concat "," (map toString l)
  | VObj _ => "[object Object]"
  end.

Definition parseInt (v : value) : number := parseIntStr (toString v).
Definition parseFloat (v : value) : number := parseFloatStr (toString v).

(* ===================================================================== *)
(** ** Exceptions *)
(* ===================================================================== *)

(** What the code can throw: a TypeError of the engine, the typed error of
    the parser, and any other [Error], such as the one [xml2js] rejects
    with. *)
Inductive error : Type :=
  | TypeError
  | Camt053ParserError (message : string)
  | PlainError (message : string).

Inductive result (A : Type) : Type :=
  | Ok (a : A)
  | Throw (e : error).
Arguments Ok {A} a.
Arguments Throw {A} e.

(** [return a] *)
Abbreviation ret := (@Ok _) (only parsing).

Definition bind {A B : Type} (m : result A) (f : A -> result B) : result B :=
  match m with
  | Ok a => f a
  | Throw e => Throw e
  end.

Declare Scope js_scope.
Delimit Scope js_scope with js.
Notation "x <- m ;; k" := (bind m (fun x => k))
  (at level 61, m at next level, right associativity) : js_scope.
Notation "' p <- m ;; k" := (bind m (fun x => let 'p := x in k))
  (at level 61, p pattern, m at next level, right associativity) : js_scope.
Local Open Scope js_scope.

(** [a ?? b]: [b] is evaluated only when [a] is nullish. *)
Definition orElse {A : Type} (m k : result (option A)) : result (option A) :=
  x <- m ;;
  match x with
  | Some _ => ret x
  | None => k
  end.
Notation "a ?? b" := (orElse a b) (at level 60, right associativity) : js_scope.

(** [x.k] on a receiver that may be nullish: reading a property of [null]
    or [undefined] throws a TypeError. *)
Definition member (x : jsval) (k : string) : result jsval :=
  match x with
  | Some v => ret (prop v k)
  | None => Throw TypeError
  end.

(** [xs.map(f)] with a callback that may throw: the first exception, in
    index order, propagates. *)
Fixpoint mapM {A B : Type} (f : A -> result B) (l : list A) : result (list B) :=
  match l with
  | [] => ret []
  | a :: r => b <- f a ;; bs <- mapM f r ;; ret (b :: bs)
  end.

(* ===================================================================== *)
(** ** Helpers of [parser.ts] *)
(* ===================================================================== *)

(** One step of the reducer of [get]:
    [(acc, key) => (acc && acc[key] !== undefined ? acc[key] : null)]. *)
Definition getStep (acc : result jsval) (key : string) : result jsval :=
  a <- acc ;;
  if truthy a then member a key else ret None.

(** [get(obj, path)], with the default fallback [null]. *)
Definition get (obj : jsval) (path : list string) : result jsval :=
  fold_left getStep path (ret obj).

(** First match of [/\d{4}-\d{2}-\d{2}/] at the head of the string. *)
Definition dateAt (s : string) : option string :=
  match s with
  | String y1 (String y2 (String y3 (String y4 (String h1
      (String m1 (String m2 (String h2 (String d1 (String d2 _))))))))) =>
      if isDigit y1 && isDigit y2 && isDigit y3 && isDigit y4
         && Ascii.eqb h1 "-" && isDigit m1 && isDigit m2
         && Ascii.eqb h2 "-" && isDigit d1 && isDigit d2
      then Some (String y1 (String y2 (String y3 (String y4 (String h1
             (String m1 (String m2 (String h2 (String d1 (String d2
               EmptyString))))))))))
      else None
  | _ => None
  end.

(** [s.match(/\d{4}-\d{2}-\d{2}/)]: the leftmost match, or [null]. *)
Fixpoint matchDate (s : string) : option string :=
  match dateAt s with
  | Some d => Some d
  | None =>
      match s with
      | EmptyString => None
      | String _ r => matchDate r
      end
  end.

(** A property together with the date found below it, kept only when the
    property is truthy: the test [if (obj.Dt)] and the recursive call it
    guards. *)
Definition truthyField (f : option (value * option string)) : option (option string) :=
  match f with
  | Some (v, below) => if truthyV v then Some below else None
  | None => None
  end.

(** [extractDate] on a value that passed the [!obj] guard. *)
Fixpoint extractDateV (v : value) : option string :=
  match v with
  | VStr s => matchDate s
  | VArr _ => None
  | VObj fs =>
      let below := map (fun kv => (fst kv, (snd kv, extractDateV (snd kv)))) fs in
      match truthyField (assoc "Dt" below) with
      | Some d => d
      | None =>
          match truthyField (assoc "DtTm" below) with
          | Some d => d
          | None => None
          end
      end
  end.

(** [extractDate(obj)] *)
Definition extractDate (obj : jsval) : option string :=
  match obj with
  | Some v => if truthyV v then extractDateV v else None
  | None => None
  end.

(** [extractAmount(obj)] *)
Definition extractAmount (obj : jsval) : option number :=
  match obj with
  | None => None
  | Some (VStr s) => if isEmpty s then None else Some (parseFloatStr s)
  | Some v =>
      match prop v "_" with
      | Some t => if truthyV t then Some (parseFloat t) else None
      | None => None
      end
  end.

(* ===================================================================== *)
(** ** Output records ([types.ts]) *)
(* ===================================================================== *)

Inductive direction : Type := credit | debit.

(** Fields the parser copies from the tree without conversion keep the
    type [jsval]; [None] is [null].  [txCurrency] is the [currency] field
    of the transaction (the statement record holds the name [currency]);
    it is never null, see [orValue]. *)
Record Camt053Transaction : Type := {
  date : option string;
  amount : option number;
  txCurrency : value;
  type : option direction;
  counterpartyName : jsval;
  counterpartyAccountIBAN : jsval;
  description : jsval;
  descriptionAdditional : option string;
  endToEndReference : jsval;
  remittanceReference : jsval;
  purpose : jsval
}.

Record Camt053Statement : Type := {
  statementTitle : string;
  accountHolder : jsval;
  accountIBAN : jsval;
  currency : string;
  statementDate : string;
  sequenceNumber : option number;
  openingBalance : option number;
  closingBalance : option number;
  numberOfCredits : option number;
  totalCredits : option number;
  numberOfDebits : option number;
  totalDebits : option number;
  transactions : list Camt053Transaction
}.

(* ===================================================================== *)
(** ** Statement resolver (step 5 of [parseCamt053], lines 122-204) *)
(* ===================================================================== *)

Section StatementResolver.

Variable stmt : value.

(** // Account holder *)
Definition resolveAccountHolder : result jsval :=
  get (Some stmt) ["Acct"; "Ownr"; "Nm"]
  ?? get (Some stmt) ["Acct"; "Ownr"; "Id"; "OrgId"; "Othr"; "Id"].

(** // IBAN or Othr/Id *)
Definition resolveAccountIBAN : result jsval :=
  get (Some stmt) ["Acct"; "Id"; "IBAN"]
  ?? get (Some stmt) ["Acct"; "Id"; "Othr"; "Id"].

(** // Currency *)
Definition resolveCurrency : result string :=
  currencyVal <- get (Some stmt) ["Acct"; "Ccy"] ;;
  match currencyVal with
  | Some (VStr s) => ret s
  | _ =>
      if truthy currencyVal then
        text <- member currencyVal "_" ;;
        match text with
        | Some (VStr s) => ret s
        | _ => ret EmptyString
        end
      else ret EmptyString
  end.

(** // Sequence Number (LglSeqNb or ElctrncSeqNb) *)
Definition resolveSequenceNumber : result (option number) :=
  sequenceNumberRaw <- get (Some stmt) ["LglSeqNb"] ?? get (Some stmt) ["ElctrncSeqNb"] ;;
  match sequenceNumberRaw with
  | Some raw => ret (if truthyV raw then Some (parseInt raw) else None)
  | None => ret None
  end.

(** [dates.filter(Boolean)] on the results of [extractDate]. *)
Definition keepDates (l : list (option string)) : list string :=
  flat_map (fun d => match d with
                     | Some s => if isEmpty s then [] else [s]
                     | None => []
                     end) l.

(** // fallback: latest Bal/Dt/Dt *)
Definition balanceDateTier : result (option string) :=
  match prop stmt "Bal" with
  | Some b =>
      if truthyV b then
        dates <- mapM (fun bal => d <- get (Some bal) ["Dt"; "Dt"] ;;
                                  ret (extractDate d)) (asArray b) ;;
        ret (last (map Some (keepDates dates)) None)
      else ret None
  | None => ret None
  end.

(** The inner loop of the entry fallback:
    [for (const txDtls of txDtlsArr) { ... if (txDate) return txDate; }] *)
Fixpoint firstDetailDate (ntry : value) (txDtlsArr : list value)
  : result (option string) :=
  match txDtlsArr with
  | [] => ret None
  | txDtls :: rest =>
      txDate <- (d <- get (Some txDtls) ["BookgDt"] ;; ret (extractDate d))
                ?? (d <- get (Some ntry) ["BookgDt"] ;; ret (extractDate d)) ;;
      match txDate with
      | Some s => if isEmpty s then firstDetailDate ntry rest else ret (Some s)
      | None => firstDetailDate ntry rest
      end
  end.

(** The outer loop: [for (const ntry of ntries) { ... }]. *)
Fixpoint firstEntryDate (ntries : list value) : result (option string) :=
  match ntries with
  | [] => ret None
  | ntry :: rest =>
      ntryDtls <- get (Some ntry) ["NtryDtls"] ;;
      txDtls <- (if truthy ntryDtls then member ntryDtls "TxDtls" else ret None) ;;
      found <- match txDtls with
               | Some t => if truthyV t then firstDetailDate ntry (asArray t)
                           else ret None
               | None => ret None
               end ;;
      match found with
      | Some s => ret (Some s)
      | None =>
          d <- get (Some ntry) ["BookgDt"] ;;
          match extractDate d with
          | Some s => if isEmpty s then firstEntryDate rest else ret (Some s)
          | None => firstEntryDate rest
          end
      end
  end.

(** // fallback: first transaction date *)
Definition entryDateTier : result (option string) :=
  match prop stmt "Ntry" with
  | Some n => if truthyV n then firstEntryDate (asArray n) else ret None
  | None => ret None
  end.

(** // Statement date *)
Definition resolveStatementDate : result string :=
  found <- (d <- get (Some stmt) ["FrToDt"; "ToDtTm"] ;; ret (extractDate d))
           ?? (d <- get (Some stmt) ["FrToDt"; "ToDt"] ;; ret (extractDate d))
           ?? (d <- get (Some stmt) ["CreDtTm"] ;; ret (extractDate d))
           ?? balanceDateTier
           ?? entryDateTier ;;
  match found with
  | Some s => ret s
  | None => ret EmptyString
  end.

(** The body of [for (const bal of bals)]: the pair is
    [(openingBalance, closingBalance)]. *)
Definition balanceStep (acc : result (option number * option number)) (bal : value)
  : result (option number * option number) :=
  ' (opening, closing) <- acc ;;
  code <- get (Some bal) ["Tp"; "CdOrPrtry"; "Cd"] ;;
  let isCode (c : string) :=
    match code with
    | Some (VStr s) => String.eqb s c
    | _ => false
    end in
  let opening := if isCode "OPBD" then extractAmount (prop bal "Amt") else opening in
  let closing := if isCode "CLBD" then extractAmount (prop bal "Amt") else closing in
  ret (opening, closing).

(** // Opening/Closing balances *)
Definition resolveBalances : result (option number * option number) :=
  match prop stmt "Bal" with
  | Some b =>
      if truthyV b then fold_left balanceStep (asArray b) (ret (None, None))
      else ret (None, None)
  | None => ret (None, None)
  end.

(** One branch of the summary: [if (stmt.TxsSummry.<block>) { ... }]. *)
Definition resolveSummaryBlock (block : string)
  : result (option number * option number) :=
  sub <- member (prop stmt "TxsSummry") block ;;
  if truthy sub then
    nb <- get (Some stmt) ["TxsSummry"; block; "NbOfNtries"] ;;
    let count := match nb with
                 | Some v => parseInt v
                 | None => parseIntStr "0"
                 end in
    sum <- get (Some stmt) ["TxsSummry"; block; "Sum"] ;;
    ret (Some count, extractAmount sum)
  else ret (None, None).

(** // Credit/Debit summary: credits first, then debits. *)
Definition resolveSummary
  : result ((option number * option number) * (option number * option number)) :=
  if truthy (prop stmt "TxsSummry") then
    credits <- resolveSummaryBlock "TtlCdtNtries" ;;
    debits <- resolveSummaryBlock "TtlDbtNtries" ;;
    ret (credits, debits)
  else ret ((None, None), (None, None)).

End StatementResolver.

(* ===================================================================== *)
(** ** Entry/transaction flattener (lines 205-342) *)
(* ===================================================================== *)

(** [txDtls ? get(txDtls, path) : null] *)
Definition getIf (txDtls : jsval) (path : list string) : result jsval :=
  if truthy txDtls then get txDtls path else ret None.

(** [x || y] on values that are not nullish on the right. *)
Definition orValue (x : jsval) (y : value) : value :=
  match x with
  | Some v => if truthyV v then v else y
  | None => y
  end.

(** [parts.push(x)] under [if (x)]. *)
Definition pushIf (parts : list value) (x : jsval) : list value :=
  match x with
  | Some v => if truthyV v then parts ++ [v] else parts
  | None => parts
  end.

(** [parts.slice(1).join(' | ')] *)
Definition joinParts (rest : list value) : string :=
  String.concat " | " (map toString rest).

Section EntryFlattener.

(** The enclosing statement and its resolved currency. *)
Variable stmt : value.
Variable currency : string.

(** The entry and its baseline values (lines 213-222). *)
Variable ntry : value.
Variable ntryDate : option string.
Variable ntryAmount : option number.
Variable ntryType : option direction.
Variable ntryCurrency : value.

(** // Counterparty: the direction-dependent lookup (lines 235-253). *)
Definition counterpartyOf (txDtls : jsval) : result (jsval * jsval) :=
  related <- (if truthy txDtls then member txDtls "RltdPties" else ret None) ;;
  if truthy related then
    match ntryType with
    | Some credit =>
        name <- get txDtls ["RltdPties"; "Dbtr"; "Nm"]
                ?? get txDtls ["RltdPties"; "Dbtr"; "Pty"; "Nm"] ;;
        account <- get txDtls ["RltdPties"; "DbtrAcct"; "Id"; "IBAN"]
                   ?? get txDtls ["RltdPties"; "DbtrAcct"; "Id"; "Othr"; "Id"] ;;
        ret (name, account)
    | Some debit =>
        name <- get txDtls ["RltdPties"; "Cdtr"; "Nm"]
                ?? get txDtls ["RltdPties"; "Cdtr"; "Pty"; "Nm"] ;;
        account <- get txDtls ["RltdPties"; "CdtrAcct"; "Id"; "IBAN"]
                   ?? get txDtls ["RltdPties"; "CdtrAcct"; "Id"; "Othr"; "Id"] ;;
        ret (name, account)
    | None => ret (None, None)
    end
  else ret (None, None).

(** // Fallbacks for counterparty (lines 254-267). *)
Definition counterpartyNameOf (txDtls name : jsval) : result jsval :=
  if truthy name then ret name
  else get (Some ntry) ["AcctSvcrRef"]
       ?? get (Some ntry) ["NtryRef"]
       ?? getIf txDtls ["Refs"; "Prtry"; "Ref"].

Definition counterpartyAccountOf (txDtls account : jsval) : result jsval :=
  if truthy account then ret account
  else getIf txDtls ["Refs"; "Prtry"; "Ref"]
       ?? get (Some ntry) ["NtryRef"].

(** // EndToEnd Reference and its fallbacks (lines 268-276). *)
Definition endToEndReferenceOf (txDtls : jsval) : result jsval :=
  own <- getIf txDtls ["Refs"; "EndToEndId"] ;;
  if truthy own then ret own
  else getIf txDtls ["Refs"; "ClrSysRef"]
       ?? getIf txDtls ["Refs"; "Prtry"; "Ref"]
       ?? get (Some ntry) ["NtryRef"].

(** // Remittance Reference (Creditor Reference) (lines 277-288). *)
Definition remittanceReferenceOf (strd : jsval) : result jsval :=
  info <- (if truthy strd then member strd "CdtrRefInf" else ret None) ;;
  ref <- (if truthy info then member info "Ref" else ret None) ;;
  let remittanceReference := if truthy ref then ref else None in
  if negb (truthy remittanceReference) && truthy strd then
    get strd ["RfrdDocInf"; "Nb"]
    ?? get strd ["RfrdDocInf"; "Tp"; "CdOrPrtry"; "Cd"]
  else ret remittanceReference.

(** // Description aggregation: the candidate texts (lines 292-305). *)
Definition descriptionCandidates (txDtls strd : jsval) : result (list value) :=
  ustrd <- getIf txDtls ["RmtInf"; "Ustrd"] ;;
  let parts := pushIf [] ustrd in
  addtlRmtInf <- (if truthy strd then member strd "AddtlRmtInf" else ret None) ;;
  let parts := pushIf parts addtlRmtInf in
  addtlNtryInf <- get (Some ntry) ["AddtlNtryInf"] ;;
  let parts := pushIf parts addtlNtryInf in
  addtlTxInf <- getIf txDtls ["AddtlTxInf"] ;;
  ret (pushIf parts addtlTxInf).

(** // Fallbacks for missing fields (lines 306-311). *)
Definition descriptionFallback (txDtls : jsval) : result jsval :=
  get (Some ntry) ["AcctSvcrRef"]
  ?? getIf txDtls ["Refs"; "InstrId"]
  ?? get (Some stmt) ["Id"].

Definition descriptionPartsOf (txDtls strd : jsval) : result (list value) :=
  parts <- descriptionCandidates txDtls strd ;;
  match parts with
  | [] => fallbackDesc <- descriptionFallback txDtls ;; ret (pushIf parts fallbackDesc)
  | _ :: _ => ret parts
  end.

(** Lines 312-320: the split of [filteredParts]. *)
Definition splitDescription (descriptionParts : list value) : jsval * option string :=
  match filter truthyV descriptionParts with
  | [] => (None, None)
  | first :: [] => (Some first, None)
  | first :: rest => (Some first, Some (joinParts rest))
  end.

(** The callback of [txDtlsArr.map]: one transaction per detail; the
    synthetic detail of an entry without details is [null]. *)
Definition flattenDetail (txDtls : jsval) : result Camt053Transaction :=
  ' (name, account) <- counterpartyOf txDtls ;;
  counterpartyName <- counterpartyNameOf txDtls name ;;
  counterpartyAccountIBAN <- counterpartyAccountOf txDtls account ;;
  endToEndReference <- endToEndReferenceOf txDtls ;;
  strd <- getIf txDtls ["RmtInf"; "Strd"] ;;
  remittanceReference <- remittanceReferenceOf strd ;;
  purpose <- getIf txDtls ["Purp"; "Cd"] ;;
  descriptionParts <- descriptionPartsOf txDtls strd ;;
  let (description, descriptionAdditional) := splitDescription descriptionParts in
  ownDate <- getIf txDtls ["BookgDt"] ;;
  let date := if truthy txDtls
              then match extractDate ownDate with
                   | Some d => Some d
                   | None => ntryDate
                   end
              else ntryDate in
  ownAmt <- getIf txDtls ["Amt"] ;;
  let amount := if truthy txDtls
                then match extractAmount ownAmt with
                     | Some a => Some a
                     | None => ntryAmount
                     end
                else ntryAmount in
  currencyVal <- getIf txDtls ["Amt"; "Ccy"] ;;
  ret {| date := date;
         amount := amount;
         txCurrency := orValue currencyVal ntryCurrency;
         type := ntryType;
         counterpartyName := counterpartyName;
         counterpartyAccountIBAN := counterpartyAccountIBAN;
         description := description;
         descriptionAdditional := descriptionAdditional;
         endToEndReference := endToEndReference;
         remittanceReference := remittanceReference;
         purpose := purpose |}.

End EntryFlattener.

(** [ntryTypeRaw === 'CRDT' ? 'credit' : ntryTypeRaw === 'DBIT' ? 'debit' : null] *)
Definition directionOf (ntryTypeRaw : jsval) : option direction :=
  match ntryTypeRaw with
  | Some (VStr s) =>
      if String.eqb s "CRDT" then Some credit
      else if String.eqb s "DBIT" then Some debit
      else None
  | _ => None
  end.

(** // Currency fallback: Amt/@Ccy if Acct.Ccy missing (lines 218-222). *)
Definition entryCurrency (currency : string) (amtObj : jsval) : result value :=
  match amtObj with
  | Some (VStr _) => ret (VStr currency)
  | Some _ =>
      if isEmpty currency then
        ccy <- member amtObj "Ccy" ;;
        ret (orValue ccy (VStr currency))
      else ret (VStr currency)
  | None => ret (VStr currency)
  end.

(** Lines 224-232: the details of an entry, [[null]] when there are none. *)
Definition detailsOf (ntry : value) : result (list jsval) :=
  ntryDtls <- get (Some ntry) ["NtryDtls"] ;;
  txDtls <- (if truthy ntryDtls then member ntryDtls "TxDtls" else ret None) ;;
  let txDtlsArr := match txDtls with
                   | Some t => if truthyV t then asArray t else []
                   | None => []
                   end in
  match txDtlsArr with
  | [] => ret [None]
  | _ :: _ => ret (map Some txDtlsArr)
  end.

(** The callback of [ntries.flatMap]. *)
Definition flattenEntry (stmt : value) (currency : string) (ntry : value)
  : result (list Camt053Transaction) :=
  bookgDt <- get (Some ntry) ["BookgDt"] ;;
  let ntryDate := extractDate bookgDt in
  amt <- get (Some ntry) ["Amt"] ;;
  let ntryAmount := extractAmount amt in
  ntryTypeRaw <- get (Some ntry) ["CdtDbtInd"] ;;
  let ntryType := directionOf ntryTypeRaw in
  amtObj <- get (Some ntry) ["Amt"] ;;
  ntryCurrency <- entryCurrency currency amtObj ;;
  txDtlsArr <- detailsOf ntry ;;
  mapM (flattenDetail stmt ntry ntryDate ntryAmount ntryType ntryCurrency) txDtlsArr.

(** Lines 206-209: the entries of a statement. *)
Definition entriesOf (stmt : value) : list value :=
  match prop stmt "Ntry" with
  | Some n => if truthyV n then asArray n else []
  | None => []
  end.

(** [ntries.flatMap(...)] *)
Definition resolveTransactions (stmt : value) (currency : string)
  : result (list Camt053Transaction) :=
  perEntry <- mapM (flattenEntry stmt currency) (entriesOf stmt) ;;
  ret (concat perEntry).

(** [`Statement ${idx + 1}: ${currency} Account`] *)
Definition statementTitleOf (idx : nat) (currency : string) : string :=
  "Statement " ++ NilZero.string_of_uint (Nat.to_uint (idx + 1))
  ++ ": " ++ currency ++ " Account".

(** The callback of [stmts.map((stmt, idx) => ...)]. *)
Definition mapStatement (idx : nat) (stmt : value) : result Camt053Statement :=
  accountHolder <- resolveAccountHolder stmt ;;
  accountIBAN <- resolveAccountIBAN stmt ;;
  currency <- resolveCurrency stmt ;;
  sequenceNumber <- resolveSequenceNumber stmt ;;
  statementDate <- resolveStatementDate stmt ;;
  ' (openingBalance, closingBalance) <- resolveBalances stmt ;;
  ' ((numberOfCredits, totalCredits), (numberOfDebits, totalDebits))
      <- resolveSummary stmt ;;
  transactions <- resolveTransactions stmt currency ;;
  ret {| statementTitle := statementTitleOf idx currency;
         accountHolder := accountHolder;
         accountIBAN := accountIBAN;
         currency := currency;
         statementDate := statementDate;
         sequenceNumber := sequenceNumber;
         openingBalance := openingBalance;
         closingBalance := closingBalance;
         numberOfCredits := numberOfCredits;
         totalCredits := totalCredits;
         numberOfDebits := numberOfDebits;
         totalDebits := totalDebits;
         transactions := transactions |}.

(* ===================================================================== *)
(** ** Top level (lines 10-53 and 90-121) *)
(* ===================================================================== *)

(** Supported CAMT.053 namespaces mapped to XSD file names. *)
Definition NAMESPACE_TO_XSD : list (string * string) :=
  [ ("urn:iso:std:iso:20022:tech:xsd:camt.053.001.02", "camt.053.001.02.xsd");
    ("urn:iso:std:iso:20022:tech:xsd:camt.053.001.08", "camt.053.001.08.xsd");
    ("urn:iso:std:iso:20022:tech:xsd:camt.053.001.13", "camt.053.001.13.xsd") ].

(** Properties every object literal inherits from [Object.prototype]; the
    [in] operator finds them too. *)
Definition inheritedProperties : list string :=
  [ "constructor"; "hasOwnProperty"; "isPrototypeOf"; "propertyIsEnumerable";
    "toLocaleString"; "toString"; "valueOf"; "__proto__";
    "__defineGetter__"; "__defineSetter__"; "__lookupGetter__"; "__lookupSetter__" ].

Definition isInherited (k : string) : bool :=
  existsb (String.eqb k) inheritedProperties.

(** [namespace in NAMESPACE_TO_XSD] *)
Definition inTable (k : string) : bool :=
  match assoc k NAMESPACE_TO_XSD with
  | Some _ => true
  | None => isInherited k
  end.

(** The tail of the namespace pattern at one position: the literal
    [xmlns=], a double quote, a non-empty run of characters other than the
    double quote (the capture), and a closing double quote. *)
Definition xmlnsAt (s : string) : option string :=
  match stripPrefix "xmlns=" s with
  | Some (String q r) =>
      if Ascii.eqb q dquote then
        let captured := takeWhile (fun c => negb (Ascii.eqb c dquote)) r in
        match captured, dropWhile (fun c => negb (Ascii.eqb c dquote)) r with
        | String _ _, String _ _ => Some captured
        | _, _ => None
        end
      else None
  | _ => None
  end.

(** The greedy run of characters other than [>] before it: the longest run
    is tried first, shorter ones on backtracking.  [s] is the text after
    the characters already taken by the run. *)
Fixpoint afterRun (s : string) : option string :=
  match s with
  | EmptyString => xmlnsAt s
  | String c r =>
      if Ascii.eqb c ">" then xmlnsAt s
      else match afterRun r with
           | Some ns => Some ns
           | None => xmlnsAt s
           end
  end.

(** The pattern anchored at the head of the string. *)
Definition namespaceAt (s : string) : option string :=
  match stripPrefix "<Document" s with
  | Some (String c r) => if Ascii.eqb c ">" then None else afterRun r
  | _ => None
  end.

(** [detectNamespace(xml)]: the capture of the leftmost match of the
    pattern [<Document], one or more characters other than [>], then the
    [xmlns] attribute with its quoted, non-empty value. *)
Fixpoint detectNamespace (xml : string) : option string :=
  match namespaceAt xml with
  | Some ns => Some ns
  | None =>
      match xml with
      | EmptyString => None
      | String _ r => detectNamespace r
      end
  end.

(** How the validation step of [validateXmlWithXsd] ends: the document is
    valid; [libxmljs2] cannot parse the document, or the schema; the
    document has schema errors; or an exception the function does not
    catch is thrown (the schema file cannot be read, the validator throws
    while validating). *)
Inductive validation : Type :=
  | Valid
  | XmlRejected (message : string)
  | XsdRejected (message : string)
  | SchemaErrors (messages : list string)
  | ValidatorThrew (message : string).

(** What [parseStringPromise] of [xml2js] settles with: the tree, or a
    rejection whose error is not one of the parser's. *)
Inductive built : Type :=
  | Tree (xmlObj : value)
  | Rejected (message : string).

Section TopLevel.

(** The two external collaborators: the schema validator, given the
    document text and the schema file name, and the tree builder
    [parseStringPromise], which has a parser of its own and may reject a
    text the validator has accepted. *)
Variable libxml : string -> string -> validation.
Variable parseStringPromise : string -> built.

(** [validateXmlWithXsd(xml, xsdPath)] *)
Definition validateXmlWithXsd (xml xsdFile : string) : result unit :=
  match libxml xml xsdFile with
  | Valid => ret tt
  | XmlRejected m => Throw (Camt053ParserError ("Invalid XML: " ++ m))
  | XsdRejected m => Throw (Camt053ParserError ("Invalid XSD: " ++ m))
  | SchemaErrors ms =>
      Throw (Camt053ParserError ("XSD validation failed: " ++ String.concat "; " ms))
  | ValidatorThrew m => Throw (PlainError m)
  end.

(** [stmts.map((stmt, idx) => ...)], from index [idx] on. *)
Fixpoint mapStatements (idx : nat) (stmts : list value)
  : result (list Camt053Statement) :=
  match stmts with
  | [] => ret []
  | stmt :: rest =>
      s <- mapStatement idx stmt ;;
      ss <- mapStatements (S idx) rest ;;
      ret (s :: ss)
  end.

(** Step 4: find the statement array. *)
Definition findStatements (xmlObj : value) : result (list value) :=
  let docRoot := prop xmlObj "Document" in
  if negb (truthy docRoot) then Throw (Camt053ParserError "Missing <Document> root")
  else
    first <- member docRoot "BkToCstmrStmt" ;;
    stmtContainer <- (if truthy first then ret first
                      else member docRoot "BankToCustomerStatementV13") ;;
    if negb (truthy stmtContainer)
    then Throw (Camt053ParserError "Missing statement container")
    else
      stmtField <- member stmtContainer "Stmt" ;;
      match stmtField with
      | Some (VArr l) => ret l
      | Some s => if truthyV s then ret [s]
                  else Throw (Camt053ParserError "No <Stmt> found")
      | None => Throw (Camt053ParserError "No <Stmt> found")
      end.

(** Steps 4 and 5 on the parsed tree. *)
Definition parseTree (xmlObj : value) : result (list Camt053Statement) :=
  stmts <- findStatements xmlObj ;;
  mapStatements 0 stmts.

(** [parseCamt053(xml)].  A namespace that is only an inherited property
    passes the [in] test and yields a non-string schema name, which
    [path.join] rejects with a TypeError.  A rejection of the tree builder
    is not caught: its error propagates as it is. *)
Definition parseCamt053 (xml : string) : result (list Camt053Statement) :=
  match detectNamespace xml with
  | None => Throw (Camt053ParserError "Unsupported or missing CAMT.053 namespace")
  | Some namespace =>
      if negb (inTable namespace)
      then Throw (Camt053ParserError "Unsupported or missing CAMT.053 namespace")
      else
        match assoc namespace NAMESPACE_TO_XSD with
        | None => Throw TypeError
        | Some xsdFile =>
            _ <- validateXmlWithXsd xml xsdFile ;;
            match parseStringPromise xml with
            | Tree xmlObj => parseTree xmlObj
            | Rejected message => Throw (PlainError message)
            end
        end
  end.

End TopLevel.

(* ===================================================================== *)
(** ** The sample runner ([parse-samples.ts]) *)
(* ===================================================================== *)

(** [f.endsWith(suffix)] *)
Fixpoint endsWith (suffix f : string) : bool :=
  String.eqb suffix f
  || match f with
     | EmptyString => false
     | String _ r => endsWith suffix r
     end.

(** What the [catch] clause of the runner may receive: an exception of the
    parser, or the system error of a file that cannot be read. *)
Inductive caught : Type :=
  | ParserThrew (e : error)
  | ReadFailed.

(** The calls the runner makes on the console.  The text that
    [JSON.stringify(result, null, 2)] builds is not modelled: the line
    holds the statements it prints. *)
Inductive consoleCall : Type :=
  | LogText (text : string)
  | LogStatements (statements : list Camt053Statement)
  | ErrorText (text : string)
  | ErrorUnexpected (err : caught).

(** [`\n=== Parsing: ${file} ===`] *)
Definition banner (file : string) : string :=
  String (ascii_of_nat 10) ("=== Parsing: " ++ file ++ " ===").

Section SampleRunner.

Variable libxml : string -> string -> validation.
Variable parseStringPromise : string -> built.

(** The file system: the listing of the samples directory, absent when the
    directory cannot be read, and the text of a file of that directory,
    absent when the file cannot be read. *)
Variable readdirSync : option (list string).
Variable readFileSync : string -> option string.

(** The body of [try]: what it computes, or what it throws. *)
Definition attempt (file : string) : list Camt053Statement + caught :=
  match readFileSync file with
  | None => inr ReadFailed
  | Some xml =>
      match parseCamt053 libxml parseStringPromise xml with
      | Ok parsed => inl parsed
      | Throw e => inr (ParserThrew e)
      end
  end.

(** The body of [catch (err)]. *)
Definition handle (err : caught) : consoleCall :=
  match err with
  | ParserThrew (Camt053ParserError message) => ErrorText ("Error: " ++ message)
  | _ => ErrorUnexpected err
  end.

(** The body of [for (const file of files)], on the console calls made so
    far. *)
Definition visit (console : list consoleCall) (file : string) : list consoleCall :=
  let console := console ++ [LogText (banner file)] in
  match attempt file with
  | inl parsed => console ++ [LogStatements parsed]
  | inr err => console ++ [handle err]
  end.

(** [main()]: the console calls of a run, or nothing when listing the
    directory throws, which rejects the promise before anything is
    printed. *)
Definition main : option (list consoleCall) :=
  match readdirSync with
  | Some names => Some (fold_left visit (filter (endsWith ".xml") names) [])
  | None => None
  end.

End SampleRunner.

(* ********************************************************************* *)
(** * Part II: vocabulary of the statements and sample trees *)
(* ********************************************************************* *)

(* ===================================================================== *)
(** ** Reading the tree *)
(* ===================================================================== *)

(** The child [k] of a node that may be absent. *)
Definition child (o : jsval) (k : string) : jsval :=
  match o with
  | Some v => prop v k
  | None => None
  end.

(** The node reached from [o] along [path]; absent as soon as a step is. *)
Definition descend (o : jsval) (path : list string) : jsval :=
  fold_left child path o.
Arguments descend : simpl never.

(** The first candidate that is not absent. *)
Fixpoint firstPresent {A : Type} (l : list (option A)) : option A :=
  match l with
  | [] => None
  | Some a :: _ => Some a
  | None :: r => firstPresent r
  end.

(** The candidates that are neither absent nor empty, in order. *)
Definition keepTruthy (l : list jsval) : list value :=
  flat_map (fun x => match x with
                     | Some v => if truthyV v then [v] else []
                     | None => []
                     end) l.

(** The balance blocks of a statement, in document order. *)
Definition balancesOf (stmt : value) : list value :=
  match prop stmt "Bal" with
  | Some b => if truthyV b then asArray b else []
  | None => []
  end.

(** The transaction-detail blocks the flattener locates in an entry: the
    [TxDtls] children of its [NtryDtls] child. *)
Definition detailBlocks (ntry : value) : list value :=
  match descend (Some ntry) ["NtryDtls"; "TxDtls"] with
  | Some t => if truthyV t then asArray t else []
  | None => []
  end.

(** The details an entry is flattened over: its blocks, or the single
    synthetic detail. *)
Definition detailsFor (ntry : value) : list jsval :=
  match detailBlocks ntry with
  | [] => [None]
  | l => map Some l
  end.

(* ===================================================================== *)
(** ** The fields of a statement *)
(* ===================================================================== *)

(** The currency field as a plain string: a bare string, the text of a
    value-holder, or the empty string. *)
Definition currencyText (field : jsval) : string :=
  match field with
  | Some (VStr s) => s
  | Some holder =>
      match prop holder "_" with
      | Some (VStr s) => s
      | _ => EmptyString
      end
  | None => EmptyString
  end.

(** The sequence number: the first present of the legal and the electronic
    field, parsed when it is not empty. *)
Definition sequenceNumberOf (stmt : value) : option number :=
  match firstPresent [descend (Some stmt) ["LglSeqNb"];
                      descend (Some stmt) ["ElctrncSeqNb"]] with
  | Some raw => if truthyV raw then Some (parseInt raw) else None
  | None => None
  end.

(** The dates of the balance blocks that carry one, in document order. *)
Definition balanceDates (stmt : value) : list string :=
  keepDates (map (fun bal => extractDate (descend (Some bal) ["Dt"; "Dt"]))
                 (balancesOf stmt)).

(** The date one detail block offers to the entry tier: its own booking
    date, else the booking date of its entry. *)
Definition detailDate (ntry txDtls : value) : option string :=
  firstPresent [extractDate (descend (Some txDtls) ["BookgDt"]);
                extractDate (descend (Some ntry) ["BookgDt"])].

(** The dates an entry offers, in the order the loop reads them: one per
    detail block, then the entry's own booking date. *)
Definition entryDateCandidates (ntry : value) : list (option string) :=
  map (detailDate ntry) (detailBlocks ntry)
  ++ [extractDate (descend (Some ntry) ["BookgDt"])].

(** The tiers of the statement date, in the order they are tried. *)
Definition statementDateTiers (stmt : value) : list (option string) :=
  [ extractDate (descend (Some stmt) ["FrToDt"; "ToDtTm"]);
    extractDate (descend (Some stmt) ["FrToDt"; "ToDt"]);
    extractDate (descend (Some stmt) ["CreDtTm"]);
    last (map Some (balanceDates stmt)) None;
    firstPresent (flat_map entryDateCandidates (entriesOf stmt)) ].

Definition orEmpty (d : option string) : string :=
  match d with
  | Some s => s
  | None => EmptyString
  end.

(** The type code of a balance block. *)
Definition balCode (bal : value) : jsval :=
  descend (Some bal) ["Tp"; "CdOrPrtry"; "Cd"].

(** [code === c] *)
Definition hasCode (c : string) (bal : value) : bool :=
  match balCode bal with
  | Some (VStr s) => String.eqb s c
  | _ => false
  end.

Definition balAmount (bal : value) : option number :=
  extractAmount (prop bal "Amt").

(** The last block of the sequence that carries code [c]. *)
Definition lastWithCode (c : string) (bals : list value) : option value :=
  find (hasCode c) (rev bals).

(** The balance assigned for code [c]: the amount of the last block with
    that code, absent when no block has it. *)
Definition assigned (c : string) (bals : list value) : option number :=
  match lastWithCode c bals with
  | Some bal => balAmount bal
  | None => None
  end.

(** One iteration of the balance loop on the pair of balances. *)
Definition assignStep (acc : option number * option number) (bal : value)
  : option number * option number :=
  (if hasCode "OPBD" bal then balAmount bal else fst acc,
   if hasCode "CLBD" bal then balAmount bal else snd acc).

(** One block of the transaction summary: the pair (count, total), both
    absent when the block (or the summary around it) is falsy. *)
Definition summaryOf (stmt : value) (block : string) : option number * option number :=
  if truthy (descend (Some stmt) ["TxsSummry"; block]) then
    (Some match descend (Some stmt) ["TxsSummry"; block; "NbOfNtries"] with
          | Some v => parseInt v
          | None => parseIntStr "0"
          end,
     extractAmount (descend (Some stmt) ["TxsSummry"; block; "Sum"]))
  else (None, None).

(* ===================================================================== *)
(** ** The fields of a transaction *)
(* ===================================================================== *)

(** The direction-dependent counterparty lookup: debtor side for a credit,
    creditor side for a debit, nothing for an unresolved direction or a
    detail without related parties. *)
Definition counterpartyLookup (ntryType : option direction) (txDtls : jsval)
  : jsval * jsval :=
  if truthy (descend txDtls ["RltdPties"]) then
    match ntryType with
    | Some credit =>
        (firstPresent [descend txDtls ["RltdPties"; "Dbtr"; "Nm"];
                       descend txDtls ["RltdPties"; "Dbtr"; "Pty"; "Nm"]],
         firstPresent [descend txDtls ["RltdPties"; "DbtrAcct"; "Id"; "IBAN"];
                       descend txDtls ["RltdPties"; "DbtrAcct"; "Id"; "Othr"; "Id"]])
    | Some debit =>
        (firstPresent [descend txDtls ["RltdPties"; "Cdtr"; "Nm"];
                       descend txDtls ["RltdPties"; "Cdtr"; "Pty"; "Nm"]],
         firstPresent [descend txDtls ["RltdPties"; "CdtrAcct"; "Id"; "IBAN"];
                       descend txDtls ["RltdPties"; "CdtrAcct"; "Id"; "Othr"; "Id"]])
    | None => (None, None)
    end
  else (None, None).

Definition counterpartyNameFor (ntry : value) (txDtls name : jsval) : jsval :=
  if truthy name then name
  else firstPresent [descend (Some ntry) ["AcctSvcrRef"];
                     descend (Some ntry) ["NtryRef"];
                     descend txDtls ["Refs"; "Prtry"; "Ref"]].

Definition counterpartyAccountFor (ntry : value) (txDtls account : jsval) : jsval :=
  if truthy account then account
  else firstPresent [descend txDtls ["Refs"; "Prtry"; "Ref"];
                     descend (Some ntry) ["NtryRef"]].

Definition endToEndReferenceFor (ntry : value) (txDtls : jsval) : jsval :=
  if truthy (descend txDtls ["Refs"; "EndToEndId"])
  then descend txDtls ["Refs"; "EndToEndId"]
  else firstPresent [descend txDtls ["Refs"; "ClrSysRef"];
                     descend txDtls ["Refs"; "Prtry"; "Ref"];
                     descend (Some ntry) ["NtryRef"]].

Definition remittanceReferenceFor (strd : jsval) : jsval :=
  if truthy (descend strd ["CdtrRefInf"; "Ref"])
  then descend strd ["CdtrRefInf"; "Ref"]
  else if truthy strd
       then firstPresent [descend strd ["RfrdDocInf"; "Nb"];
                          descend strd ["RfrdDocInf"; "Tp"; "CdOrPrtry"; "Cd"]]
       else None.

(** The candidate texts of the description, non-empty ones in order. *)
Definition descriptionTexts (ntry : value) (txDtls : jsval) : list value :=
  keepTruthy [ descend txDtls ["RmtInf"; "Ustrd"];
               descend txDtls ["RmtInf"; "Strd"; "AddtlRmtInf"];
               descend (Some ntry) ["AddtlNtryInf"];
               descend txDtls ["AddtlTxInf"] ].

(** The single fallback reference: the first present of the entry's
    account-servicer reference, the detail's instruction id and the
    statement's identifier. *)
Definition descriptionReference (stmt ntry : value) (txDtls : jsval) : jsval :=
  firstPresent [ descend (Some ntry) ["AcctSvcrRef"];
                 descend txDtls ["Refs"; "InstrId"];
                 descend (Some stmt) ["Id"] ].

(** The list the description is split from. *)
Definition descriptionSources (stmt ntry : value) (txDtls : jsval) : list value :=
  match descriptionTexts ntry txDtls with
  | [] => keepTruthy [descriptionReference stmt ntry txDtls]
  | texts => texts
  end.

(** The split of a list of parts: the first is the description, the rest,
    joined, the additional description. *)
Definition splitParts (parts : list value) : jsval * option string :=
  (hd_error parts,
   match tl parts with
   | [] => None
   | rest => Some (String.concat " | " (map toString rest))
   end).

(* ===================================================================== *)
(** ** The transaction and the statement as functions of the tree *)
(* ===================================================================== *)

(** The transaction emitted for one detail of an entry, given the entry's
    baseline values. *)
Definition transactionOf (stmt ntry : value) (ntryDate : option string)
    (ntryAmount : option number) (ntryType : option direction)
    (ntryCurrency : value) (txDtls : jsval) : Camt053Transaction :=
  let party := counterpartyLookup ntryType txDtls in
  let parts := splitParts (descriptionSources stmt ntry txDtls) in
  {| date := firstPresent [extractDate (descend txDtls ["BookgDt"]); ntryDate];
     amount := firstPresent [extractAmount (descend txDtls ["Amt"]); ntryAmount];
     txCurrency := orValue (descend txDtls ["Amt"; "Ccy"]) ntryCurrency;
     type := ntryType;
     counterpartyName := counterpartyNameFor ntry txDtls (fst party);
     counterpartyAccountIBAN := counterpartyAccountFor ntry txDtls (snd party);
     description := fst parts;
     descriptionAdditional := snd parts;
     endToEndReference := endToEndReferenceFor ntry txDtls;
     remittanceReference := remittanceReferenceFor (descend txDtls ["RmtInf"; "Strd"]);
     purpose := descend txDtls ["Purp"; "Cd"] |}.

(** The baseline values of an entry. *)
Definition entryDate (ntry : value) : option string :=
  extractDate (descend (Some ntry) ["BookgDt"]).

Definition entryAmount (ntry : value) : option number :=
  extractAmount (descend (Some ntry) ["Amt"]).

Definition entryDirection (ntry : value) : option direction :=
  directionOf (descend (Some ntry) ["CdtDbtInd"]).

(** The statement currency, or, only when that is empty, the currency
    attribute of the entry amount. *)
Definition entryBaselineCurrency (currency : string) (ntry : value) : value :=
  if isEmpty currency
  then orValue (descend (Some ntry) ["Amt"; "Ccy"]) (VStr currency)
  else VStr currency.

(** The transactions of one entry, one per detail, in order. *)
Definition entryTransactions (stmt : value) (currency : string) (ntry : value)
  : list Camt053Transaction :=
  map (transactionOf stmt ntry (entryDate ntry) (entryAmount ntry)
         (entryDirection ntry) (entryBaselineCurrency currency ntry))
      (detailsFor ntry).

(** The transactions of a statement: entries in order, details in order
    within each entry. *)
Definition transactionsOf (stmt : value) (currency : string)
  : list Camt053Transaction :=
  flat_map (entryTransactions stmt currency) (entriesOf stmt).

(** The statement the parser builds from one [Stmt] subtree. *)
Definition statementOf (idx : nat) (stmt : value) : Camt053Statement :=
  let currency := currencyText (descend (Some stmt) ["Acct"; "Ccy"]) in
  let bals := balancesOf stmt in
  let credits := summaryOf stmt "TtlCdtNtries" in
  let debits := summaryOf stmt "TtlDbtNtries" in
  {| statementTitle := statementTitleOf idx currency;
     accountHolder :=
       firstPresent [descend (Some stmt) ["Acct"; "Ownr"; "Nm"];
                     descend (Some stmt) ["Acct"; "Ownr"; "Id"; "OrgId"; "Othr"; "Id"]];
     accountIBAN :=
       firstPresent [descend (Some stmt) ["Acct"; "Id"; "IBAN"];
                     descend (Some stmt) ["Acct"; "Id"; "Othr"; "Id"]];
     currency := currency;
     statementDate := orEmpty (firstPresent (statementDateTiers stmt));
     sequenceNumber := sequenceNumberOf stmt;
     openingBalance := assigned "OPBD" bals;
     closingBalance := assigned "CLBD" bals;
     numberOfCredits := fst credits;
     totalCredits := snd credits;
     numberOfDebits := fst debits;
     totalDebits := snd debits;
     transactions := transactionsOf stmt currency |}.

(** The statements of a document, numbered from [idx]. *)
Fixpoint statementsFrom (idx : nat) (stmts : list value) : list Camt053Statement :=
  match stmts with
  | [] => []
  | stmt :: rest => statementOf idx stmt :: statementsFrom (S idx) rest
  end.

(* ===================================================================== *)
(** ** Emitted transactions and their sources *)
(* ===================================================================== *)

(** The (entry, detail) pairs a statement is flattened over, in document
    order; the detail is absent for the synthetic one. *)
Definition detailSources (stmt : value) : list (value * jsval) :=
  flat_map (fun ntry => map (pair ntry) (detailsFor ntry)) (entriesOf stmt).

(** The transaction emitted for one source. *)
Definition emitted (stmt : value) (currency : string) (src : value * jsval)
  : Camt053Transaction :=
  let ntry := fst src in
  transactionOf stmt ntry (entryDate ntry) (entryAmount ntry)
    (entryDirection ntry) (entryBaselineCurrency currency ntry) (snd src).

(* ===================================================================== *)
(** ** Balances and summaries: sample trees *)
(* ===================================================================== *)

(** A balance block with a type code and an amount in euro. *)
Definition balanceBlock (code amount : string) : value :=
  VObj [ ("Tp", VObj [("CdOrPrtry", VObj [("Cd", VStr code)])]);
         ("Amt", VObj [("_", VStr amount); ("Ccy", VStr "EUR")]) ].

(** A statement that holds only the given balance blocks. *)
Definition statementWithBalances (bals : list value) : value :=
  VObj [("Bal", VArr bals)].

(** The number [0], as [parseInt('0', 10)] yields it. *)
Definition zero : number := S754_zero false.

(** A statement whose summary holds an empty credit-entries element, as
    [<TxsSummry><TtlCdtNtries/></TxsSummry>] parses. *)
Definition statementWithEmptyCreditBlock : value :=
  VObj [("TxsSummry", VObj [("TtlCdtNtries", VStr EmptyString)])].

(* ===================================================================== *)
(** ** The order of dates *)
(* ===================================================================== *)

(** Dates are [YYYY-MM-DD] strings, so the order of the strings is the
    order of the calendar. *)
Definition laterDate (a b : string) : string := if String.leb a b then b else a.
Definition earlierDate (a b : string) : string := if String.leb a b then a else b.

(** The maximum and the minimum of a list of dates. *)
Definition latest (l : list string) : option string :=
  match l with
  | [] => None
  | d :: r => Some (fold_left laterDate r d)
  end.

Definition earliest (l : list string) : option string :=
  match l with
  | [] => None
  | d :: r => Some (fold_left earlierDate r d)
  end.

(** The dates appear in non-decreasing order. *)
Fixpoint chronological (l : list string) : bool :=
  match l with
  | a :: (b :: _) as r => String.leb a b && chronological r
  | _ => true
  end.

(** The dates of the balance blocks, whichever form a block dates itself
    in: its [Dt] element holds either a date or a date-time. *)
Definition allBalanceDates (stmt : value) : list string :=
  keepDates (map (fun bal => extractDate (descend (Some bal) ["Dt"]))
                 (balancesOf stmt)).

(** The statement date as the specification words it: tier (d) is the
    maximum of all balance dates present and tier (e) the minimum of the
    booking dates the entries offer. *)
Definition specifiedStatementDate (stmt : value) : string :=
  orEmpty (firstPresent
             [ extractDate (descend (Some stmt) ["FrToDt"; "ToDtTm"]);
               extractDate (descend (Some stmt) ["FrToDt"; "ToDt"]);
               extractDate (descend (Some stmt) ["CreDtTm"]);
               latest (allBalanceDates stmt);
               earliest (keepDates (flat_map entryDateCandidates (entriesOf stmt))) ]).

(** A statement with two entries booked out of order and nothing else that
    carries a date. *)
Definition statementWithUnorderedEntries : value :=
  VObj [("Ntry", VArr [ VObj [("BookgDt", VObj [("Dt", VStr "2024-02-02")])];
                        VObj [("BookgDt", VObj [("Dt", VStr "2024-01-01")])] ])].

(** A statement whose only date is the date-time of its closing balance,
    as [<Bal>...<Dt><DtTm>2024-03-01T18:00:00</DtTm></Dt></Bal>] parses. *)
Definition statementWithDateTimeBalance : value :=
  VObj [("Bal",
         VObj [ ("Tp", VObj [("CdOrPrtry", VObj [("Cd", VStr "CLBD")])]);
                ("Amt", VObj [("_", VStr "20.00"); ("Ccy", VStr "EUR")]);
                ("Dt", VObj [("DtTm", VStr "2024-03-01T18:00:00")]) ])].

(* ===================================================================== *)
(** ** The elements a document must have, and a sample document *)
(* ===================================================================== *)

(** The statement container of a parsed document, under either of its two
    names; absent when the document root is. *)
Definition statementContainer (xmlObj : value) : jsval :=
  let docRoot := prop xmlObj "Document" in
  if truthy (child docRoot "BkToCstmrStmt")
  then child docRoot "BkToCstmrStmt"
  else child docRoot "BankToCustomerStatementV13".

(** The [Stmt] elements of a parsed document, if it has any. *)
Definition statementElements (xmlObj : value) : option (list value) :=
  match child (statementContainer xmlObj) "Stmt" with
  | Some (VArr l) => Some l
  | Some s => if truthyV s then Some [s] else None
  | None => None
  end.

(** The description of the missing element the error carries. *)
Definition missingElement (xmlObj : value) : string :=
  if negb (truthy (prop xmlObj "Document")) then "Missing <Document> root"
  else if negb (truthy (statementContainer xmlObj)) then "Missing statement container"
  else "No <Stmt> found".

(** The opening tag of a document that declares namespace [ns]. *)
Definition documentHeader (ns : string) : string :=
  "<Document xmlns=" ++ String dquote (ns ++ String dquote ">").

(** The tree of a document with namespace [ns] and one statement. *)
Definition documentTree (ns : string) (stmt : value) : value :=
  VObj [("Document",
         VObj [("xmlns", VStr ns); ("BkToCstmrStmt", VObj [("Stmt", stmt)])])].

Definition camt02 : string := "urn:iso:std:iso:20022:tech:xsd:camt.053.001.02".



(** A statement with an account and no entry at all. *)
Definition statementWithoutEntries : value :=
  VObj [("Id", VStr "STMT-1");
        ("Acct", VObj [("Id", VObj [("IBAN", VStr "DE02120300000000202051")]);
                       ("Ccy", VStr "EUR")])].

(* ===================================================================== *)
(** ** A statement with an unparsable number *)
(* ===================================================================== *)


(* ===================================================================== *)
(** ** Counting transaction-detail blocks *)
(* ===================================================================== *)

(** The entry-details containers of an entry: [NtryDtls] may repeat. *)
Definition detailContainers (ntry : value) : list value :=
  match prop ntry "NtryDtls" with
  | Some c => if truthyV c then asArray c else []
  | None => []
  end.

(** Every transaction-detail block of an entry: the [TxDtls] children of
    all its entry-details containers. *)
Definition allDetailBlocks (ntry : value) : list value :=
  flat_map (fun c => match prop c "TxDtls" with
                     | Some t => if truthyV t then asArray t else []
                     | None => []
                     end)
           (detailContainers ntry).

(** The count the invariant asks for. *)
Definition expectedTransactions (stmt : value) : nat :=
  list_sum (map (fun ntry => Nat.max 1 (length (allDetailBlocks ntry)))
                (entriesOf stmt)).

(** The occurrences of an element of the document under its parent: the
    tree holds nothing for an element that does not occur, the element
    itself when it occurs once (the empty string for an element without
    content, which holds nothing to read), and an array of the elements
    when it repeats. *)
Definition occurrences (x : jsval) : list value :=
  match x with
  | None => []
  | Some (VStr EmptyString) => []
  | Some (VArr l) => l
  | Some v => [v]
  end.

(** Every detail of an entry, real or synthetic: the transaction-detail
    blocks of all its entry-details containers, or the single synthetic
    detail when there is none. *)
Definition allDetailsFor (ntry : value) : list jsval :=
  match flat_map (fun container => occurrences (prop container "TxDtls"))
                 (occurrences (prop ntry "NtryDtls")) with
  | [] => [None]
  | l => map Some l
  end.

(** Every (entry, detail) pair of a statement, in document order. *)
Definition allDetailSources (stmt : value) : list (value * jsval) :=
  flat_map (fun ntry => map (pair ntry) (allDetailsFor ntry))
           (occurrences (prop stmt "Ntry")).

(** The transaction [t] prefers the values of its detail and falls back to
    the baseline of its entry: date and amount are the detail's own when
    it yields one; the currency is the detail's own amount-currency
    attribute when not empty, and otherwise the baseline, the statement
    currency or, only when that is empty, the currency attribute of the
    entry amount. *)
Definition prefersDetail (currency : string) (src : value * jsval)
    (t : Camt053Transaction) : Prop :=
  let ntry := fst src in
  let txDtls := snd src in
  let baseline :=
    if isEmpty currency
    then orValue (descend (Some ntry) ["Amt"; "Ccy"]) (VStr currency)
    else VStr currency in
  date t
  = match extractDate (descend txDtls ["BookgDt"]) with
    | Some own => Some own
    | None => extractDate (descend (Some ntry) ["BookgDt"])
    end
  /\ amount t
     = match extractAmount (descend txDtls ["Amt"]) with
       | Some own => Some own
       | None => extractAmount (descend (Some ntry) ["Amt"])
       end
  /\ txCurrency t
     = match descend txDtls ["Amt"; "Ccy"] with
       | Some own => if truthyV own then own else baseline
       | None => baseline
       end.

(** One transaction-detail block with an end-to-end id and an amount. *)
Definition detailBlock (endToEndId amount : string) : value :=
  VObj [("Refs", VObj [("EndToEndId", VStr endToEndId)]);
        ("Amt", VObj [("_", VStr amount); ("Ccy", VStr "EUR")])].

(** A statement with one batch entry whose two transaction-detail blocks
    sit in two entry-details containers, as
    [<Ntry>...<NtryDtls><TxDtls>..</TxDtls></NtryDtls>
              <NtryDtls><TxDtls>..</TxDtls></NtryDtls></Ntry>] parses. *)
Definition statementWithTwoContainers : value :=
  VObj [("Acct", VObj [("Ccy", VStr "EUR")]);
        ("Ntry",
         VObj [("Amt", VObj [("_", VStr "100.00"); ("Ccy", VStr "EUR")]);
               ("CdtDbtInd", VStr "CRDT");
               ("BookgDt", VObj [("Dt", VStr "2024-03-01")]);
               ("NtryDtls",
                VArr [VObj [("TxDtls", detailBlock "E2E-1" "40.00")];
                      VObj [("TxDtls", detailBlock "E2E-2" "60.00")]])])].

(** A statement with one batch entry whose two transaction-detail blocks
    sit in a single entry-details container. *)
Definition statementWithBatchEntry : value :=
  VObj [("Acct", VObj [("Ccy", VStr "EUR")]);
        ("Ntry",
         VObj [("Amt", VObj [("_", VStr "100.00"); ("Ccy", VStr "EUR")]);
               ("CdtDbtInd", VStr "CRDT");
               ("BookgDt", VObj [("Dt", VStr "2024-03-01")]);
               ("NtryDtls",
                VObj [("TxDtls", VArr [detailBlock "E2E-1" "40.00";
                                       detailBlock "E2E-2" "60.00"])])])].

(* ===================================================================== *)
(** ** Texts *)
(* ===================================================================== *)

(** The character [c] does not occur in [s]. *)
Fixpoint lacks (c : ascii) (s : string) : bool :=
  match s with
  | EmptyString => true
  | String a r => negb (Ascii.eqb a c) && lacks c r
  end.

(** The literal [p] occurs somewhere in [s]. *)
Fixpoint occurs (p s : string) : bool :=
  match stripPrefix p s with
  | Some _ => true
  | None =>
      match s with
      | EmptyString => false
      | String _ r => occurs p r
      end
  end.


(** A name of the schema: it starts with a capital letter. *)
Definition isElementName (k : string) : bool :=
  match k with
  | String c _ => let n := nat_of_ascii c in ((65 <=? n) && (n <=? 90))%nat
  | EmptyString => false
  end.

(** Every character of [s] is a decimal digit. *)
Fixpoint digitsOnly (s : string) : bool :=
  match s with
  | EmptyString => true
  | String a r => isDigit a && digitsOnly r
  end.

(** The text from a list of bytes. *)
Definition utf8 (bytes : list nat) : string :=
  fold_right (fun n s => String (ascii_of_nat n) s) EmptyString bytes.

(** The characters of StrWhiteSpaceChar, each in UTF-8: TAB, LF, VT, FF,
    CR, SP, U+00A0, U+1680, U+2000 to U+200A, U+2028, U+2029, U+202F,
    U+205F, U+3000 and U+FEFF. *)
Definition whiteSpaceChars : list string :=
  map utf8
    [ [9]; [10]; [11]; [12]; [13]; [32]; [194; 160]; [225; 154; 128];
      [226; 128; 128]; [226; 128; 129]; [226; 128; 130]; [226; 128; 131];
      [226; 128; 132]; [226; 128; 133]; [226; 128; 134]; [226; 128; 135];
      [226; 128; 136]; [226; 128; 137]; [226; 128; 138];
      [226; 128; 168]; [226; 128; 169]; [226; 128; 175];
      [226; 129; 159]; [227; 128; 128]; [239; 187; 191] ]%nat.

(** What [scanLiteral] reads behind white space and sign. *)
Definition scanUnsigned (neg : bool) (r : string) : literal :=
  match stripPrefix "Infinity" r with
  | Some _ => InfinityLiteral neg
  | None =>
      let int := takeWhile isDigit r in
      let r1 := dropWhile isDigit r in
      let (frac, r2) :=
        match r1 with
        | String "." r' => (takeWhile isDigit r', dropWhile isDigit r')
        | _ => (EmptyString, r1)
        end in
      if isEmpty int && isEmpty frac then NoLiteral
      else DecimalLiteral neg (digitsToZ 0 (int ++ frac))
             (readExponent r2 - Z.of_nat (String.length frac))
  end.

(** An ASCII character that is neither white space nor the start of a
    decimal literal: not a digit, a sign, the point, or the [I] of
    [Infinity]. *)
Definition startsNoNumber (c : ascii) : bool :=
  (nat_of_ascii c <? 128)%nat
  && negb (isSpace c) && negb (isDigit c)
  && negb (Ascii.eqb c "+") && negb (Ascii.eqb c "-")
  && negb (Ascii.eqb c ".") && negb (Ascii.eqb c "I").

(** The text cannot continue the fraction or the integer of a literal, nor
    open an exponent: it is empty or starts with a character other than a
    digit, [e] and [E]. *)
Definition endsFraction (rest : string) : bool :=
  match rest with
  | EmptyString => true
  | String c _ =>
      negb (isDigit c) && negb (Ascii.eqb c "e") && negb (Ascii.eqb c "E")
  end.

(** The same, and no point either. *)
Definition endsInteger (rest : string) : bool :=
  match rest with
  | EmptyString => true
  | String c _ => negb (Ascii.eqb c ".") && endsFraction rest
  end.

(** No character of [s] is a decimal digit. *)
Fixpoint digitFree (s : string) : bool :=
  match s with
  | EmptyString => true
  | String a r => negb (isDigit a) && digitFree r
  end.

(* ===================================================================== *)
(** ** The balance blocks that are read *)
(* ===================================================================== *)

(** The blocks that carry one of the two type codes the loop tests. *)
Definition bookedBalances (bals : list value) : list value :=
  filter (fun bal => hasCode "OPBD" bal || hasCode "CLBD" bal) bals.

(** A balance block with a credit/debit indicator and a date. *)
Definition datedBalanceBlock (code amount indicator day : string) : value :=
  VObj [ ("Tp", VObj [("CdOrPrtry", VObj [("Cd", VStr code)])]);
         ("Amt", VObj [("_", VStr amount); ("Ccy", VStr "EUR")]);
         ("CdtDbtInd", VStr indicator);
         ("Dt", VObj [("Dt", VStr day)]) ].

(* ===================================================================== *)
(** ** Sample entries *)
(* ===================================================================== *)

(** A booked credit entry without entry details. *)
Definition entryWithoutDetails : value :=
  VObj [ ("NtryRef", VStr "REF-7");
         ("Amt", VObj [("_", VStr "12.30"); ("Ccy", VStr "EUR")]);
         ("CdtDbtInd", VStr "CRDT");
         ("Sts", VStr "BOOK");
         ("BookgDt", VObj [("Dt", VStr "2024-03-01")]);
         ("ValDt", VObj [("Dt", VStr "2024-03-04")]);
         ("AddtlNtryInf", VStr "Card payment") ].

(** The same entry as a bank reports it while it is pending and reversed,
    with another value date and a bank transaction code. *)
Definition entryPendingReversed : value :=
  VObj [ ("NtryRef", VStr "REF-7");
         ("Amt", VObj [("_", VStr "12.30"); ("Ccy", VStr "EUR")]);
         ("CdtDbtInd", VStr "CRDT");
         ("RvslInd", VStr "true");
         ("Sts", VStr "PDNG");
         ("BookgDt", VObj [("Dt", VStr "2024-03-01")]);
         ("ValDt", VObj [("Dt", VStr "2024-03-09")]);
         ("BkTxCd", VObj [("Prtry", VObj [("Cd", VStr "NTRF")])]);
         ("AddtlNtryInf", VStr "Card payment") ].

(* ===================================================================== *)
(** ** Namespaces and schema files *)
(* ===================================================================== *)

(** The common head of the ISO 20022 namespaces; what follows it names the
    message version. *)
Definition isoNamespace : string := "urn:iso:std:iso:20022:tech:xsd:".

(** A validator that knows a single schema file. *)
Definition validatorFor (xsdFile : string) (verdict : validation)
  : string -> string -> validation :=
  fun _ given => if String.eqb given xsdFile then verdict
                 else XsdRejected "unknown schema".

(* ********************************************************************* *)
(** * Part III: the resolver never throws; the properties C1 to C10 *)
(* ********************************************************************* *)

(* ===================================================================== *)
(** ** The accessor never throws *)
(* ===================================================================== *)

Lemma falsy_child (o : jsval) (k : string) : truthy o = false -> child o k = None.
Proof.
  destruct o as [v|]; [|reflexivity].
  destruct v; simpl; try discriminate; reflexivity.
Qed.

Lemma descend_none (path : list string) : descend None path = None.
Proof. induction path as [|k path IH]; [reflexivity | exact IH]. Qed.

Lemma falsy_descend (o : jsval) (k : string) (path : list string) :
  truthy o = false -> descend o (k :: path) = None.
Proof.
  intros H. unfold descend. cbn [fold_left]. rewrite (falsy_child _ _ H).
  apply descend_none.
Qed.

Lemma descend_app (o : jsval) (p q : list string) :
  descend o (p ++ q) = descend (descend o p) q.
Proof. apply fold_left_app. Qed.

Lemma getStep_ok (o : jsval) (k : string) : getStep (Ok o) k = Ok (child o k).
Proof.
  unfold getStep. simpl. destruct (truthy o) eqn:T.
  - destruct o as [v|]; [reflexivity | discriminate].
  - now rewrite falsy_child.
Qed.

Lemma get_ok (o : jsval) (path : list string) : get o path = Ok (descend o path).
Proof.
  unfold get, descend. revert o.
  induction path as [|k path IH]; intros o; cbn [fold_left]; [reflexivity|].
  rewrite getStep_ok. apply IH.
Qed.

Lemma getIf_ok (o : jsval) (k : string) (path : list string) :
  getIf o (k :: path) = Ok (descend o (k :: path)).
Proof.
  unfold getIf. destruct (truthy o) eqn:T.
  - apply get_ok.
  - now rewrite falsy_descend.
Qed.

(** A guarded property read [x && x.k] does not throw either. *)
Lemma guarded_member (o : jsval) (k : string) :
  (if truthy o then member o k else ret None) = Ok (child o k).
Proof.
  destruct (truthy o) eqn:T.
  - destruct o as [v|]; [reflexivity | discriminate].
  - now rewrite falsy_child.
Qed.

Lemma guarded_member' (o : jsval) (k : string) :
  truthy o = true -> member o k = Ok (child o k).
Proof. destruct o as [v|]; [reflexivity | discriminate]. Qed.

Lemma orElse_ok {A : Type} (m k : result (option A)) (a b : option A) :
  m = Ok a -> k = Ok b -> (m ?? k) = Ok (firstPresent [a; b]).
Proof. intros -> ->. destruct a, b; reflexivity. Qed.

Lemma firstPresent_cons {A : Type} (a : option A) (l : list (option A)) :
  firstPresent (a :: l) = match a with Some x => Some x | None => firstPresent l end.
Proof. destruct a; reflexivity. Qed.

Lemma firstPresent_app {A : Type} (l r : list (option A)) :
  firstPresent (l ++ r)
  = match firstPresent l with Some x => Some x | None => firstPresent r end.
Proof.
  induction l as [|a l IH]; [reflexivity|]. simpl.
  destruct a; [reflexivity | exact IH].
Qed.

Lemma mapM_ok {A B : Type} (f : A -> result B) (g : A -> B) (l : list A) :
  (forall a, f a = Ok (g a)) -> mapM f l = Ok (map g l).
Proof.
  intros H. induction l as [|a l IH]; simpl; [reflexivity|].
  now rewrite H, IH.
Qed.

Lemma mapM_total {A B : Type} (f : A -> result B) (l : list A) :
  (forall a, exists b, f a = Ok b) ->
  exists bs, mapM f l = Ok bs /\ Forall2 (fun a b => f a = Ok b) l bs.
Proof.
  intros H. induction l as [|a l [bs [E F]]]; simpl.
  - exists []. split; [reflexivity | constructor].
  - destruct (H a) as [b Hb]. exists (b :: bs). rewrite Hb, E. simpl.
    split; [reflexivity | now constructor].
Qed.

(** Rewriting with the accessor lemmas, then computing through [bind]. *)
Ltac js_step :=
  repeat (rewrite ?get_ok, ?getIf_ok, ?guarded_member;
          cbn [bind orElse]).

(** Case analysis on the nodes a chain of [??] inspects. *)
Ltac js_cases :=
  repeat (match goal with
          | |- context [match descend ?o ?p with _ => _ end] =>
              destruct (descend o p)
          end; cbn [bind firstPresent]).

(* ===================================================================== *)
(** ** Dates *)
(* ===================================================================== *)

Lemma dateAt_nonempty (s d : string) : dateAt s = Some d -> isEmpty d = false.
Proof.
  unfold dateAt.
  repeat (destruct s as [|? s]; [discriminate|]).
  match goal with |- (if ?c then _ else _) = _ -> _ => destruct c end;
    [|discriminate].
  intros H. inversion H. reflexivity.
Qed.

Lemma matchDate_eq (s : string) :
  matchDate s = match dateAt s with
                | Some d => Some d
                | None => match s with
                          | EmptyString => None
                          | String _ r => matchDate r
                          end
                end.
Proof. destruct s; reflexivity. Qed.

Lemma matchDate_nonempty (s d : string) : matchDate s = Some d -> isEmpty d = false.
Proof.
  induction s as [|c s IH]; rewrite matchDate_eq.
  - discriminate.
  - destruct (dateAt (String c s)) eqn:E.
    + intros H. inversion H; subst. eapply dateAt_nonempty; eassumption.
    + exact IH.
Qed.

(** Induction over the tree, with the hypothesis for every item of an
    array and every field of an object. *)
Lemma value_tree_ind (P : value -> Prop) :
  (forall s, P (VStr s)) ->
  (forall l, Forall P l -> P (VArr l)) ->
  (forall fs, Forall (fun kv => P (snd kv)) fs -> P (VObj fs)) ->
  forall v, P v.
Proof.
  intros HS HA HO.
  fix IH 1. intros [s|l|fs].
  - apply HS.
  - apply HA. induction l as [|x l IHl]; constructor; [apply IH | exact IHl].
  - apply HO. induction fs as [|[k x] fs IHfs]; constructor; [apply IH | exact IHfs].
Qed.

Lemma assoc_map {A B : Type} (g : A -> B) (k : string) (fs : list (string * A)) :
  assoc k (map (fun kv => (fst kv, g (snd kv))) fs) = option_map g (assoc k fs).
Proof.
  induction fs as [|[k' x] fs IH]; simpl; [reflexivity|].
  destruct (String.eqb k k'); [reflexivity | exact IH].
Qed.

Lemma assoc_Forall {A : Type} (P : A -> Prop) (k : string) (fs : list (string * A)) (x : A) :
  Forall (fun kv => P (snd kv)) fs -> assoc k fs = Some x -> P x.
Proof.
  induction 1 as [|[k' y] fs Hy _ IH]; simpl; [discriminate|].
  destruct (String.eqb k k'); [|exact IH].
  intros H. inversion H; subst. exact Hy.
Qed.

(** The object case of [extractDate], as the source writes it:
    [if (obj.Dt) return extractDate(obj.Dt);
     if (obj.DtTm) return extractDate(obj.DtTm); return null]. *)
Lemma extractDateV_obj (fs : list (string * value)) :
  extractDateV (VObj fs)
  = if truthy (assoc "Dt" fs) then extractDate (assoc "Dt" fs)
    else if truthy (assoc "DtTm" fs) then extractDate (assoc "DtTm" fs)
    else None.
Proof.
  cbn [extractDateV].
  rewrite !(assoc_map (fun v => (v, extractDateV v))).
  destruct (assoc "Dt" fs) as [d|]; simpl;
    [destruct (truthyV d); [reflexivity|] |];
    (destruct (assoc "DtTm" fs) as [t|]; simpl;
     [destruct (truthyV t); reflexivity | reflexivity]).
Qed.

Lemma extractDateV_nonempty (v : value) :
  forall d, extractDateV v = Some d -> isEmpty d = false.
Proof.
  induction v as [s|l _|fs IH] using value_tree_ind; intros d.
  - apply matchDate_nonempty.
  - discriminate.
  - rewrite extractDateV_obj. unfold extractDate.
    destruct (assoc "Dt" fs) as [x|] eqn:E1; simpl.
    + destruct (truthyV x).
      * exact (assoc_Forall (fun v => forall d, extractDateV v = Some d -> isEmpty d = false) _ _ _ IH E1 d).
      * destruct (assoc "DtTm" fs) as [t|] eqn:E2; simpl; [|discriminate].
        destruct (truthyV t); [|discriminate].
        exact (assoc_Forall (fun v => forall d, extractDateV v = Some d -> isEmpty d = false) _ _ _ IH E2 d).
    + destruct (assoc "DtTm" fs) as [t|] eqn:E2; simpl; [|discriminate].
      destruct (truthyV t); [|discriminate].
      exact (assoc_Forall (fun v => forall d, extractDateV v = Some d -> isEmpty d = false) _ _ _ IH E2 d).
Qed.

Lemma extractDate_nonempty (o : jsval) (d : string) :
  extractDate o = Some d -> isEmpty d = false.
Proof.
  destruct o as [v|]; simpl; [|discriminate].
  destruct (truthyV v); [apply extractDateV_nonempty | discriminate].
Qed.

(* ===================================================================== *)
(** ** The statement resolver refines the fields of a statement *)
(* ===================================================================== *)

Lemma resolveAccountHolder_ok (stmt : value) :
  resolveAccountHolder stmt
  = Ok (firstPresent [descend (Some stmt) ["Acct"; "Ownr"; "Nm"];
                      descend (Some stmt) ["Acct"; "Ownr"; "Id"; "OrgId"; "Othr"; "Id"]]).
Proof. unfold resolveAccountHolder. apply orElse_ok; apply get_ok. Qed.

Lemma resolveAccountIBAN_ok (stmt : value) :
  resolveAccountIBAN stmt
  = Ok (firstPresent [descend (Some stmt) ["Acct"; "Id"; "IBAN"];
                      descend (Some stmt) ["Acct"; "Id"; "Othr"; "Id"]]).
Proof. unfold resolveAccountIBAN. apply orElse_ok; apply get_ok. Qed.

Lemma resolveCurrency_ok (stmt : value) :
  resolveCurrency stmt = Ok (currencyText (descend (Some stmt) ["Acct"; "Ccy"])).
Proof.
  unfold resolveCurrency. js_step.
  destruct (descend (Some stmt) ["Acct"; "Ccy"]) as [[s|l|fs]|]; simpl; try reflexivity.
  destruct (assoc "_" fs) as [[]|]; reflexivity.
Qed.

Lemma resolveSequenceNumber_ok (stmt : value) :
  resolveSequenceNumber stmt = Ok (sequenceNumberOf stmt).
Proof.
  unfold resolveSequenceNumber, sequenceNumberOf.
  rewrite (orElse_ok _ _ _ _ (get_ok _ _) (get_ok _ _)). cbn [bind].
  destruct (firstPresent _); reflexivity.
Qed.

Lemma balanceDateTier_ok (stmt : value) :
  balanceDateTier stmt = Ok (last (map Some (balanceDates stmt)) None).
Proof.
  unfold balanceDateTier, balanceDates, balancesOf.
  destruct (prop stmt "Bal") as [b|]; [|reflexivity].
  destruct (truthyV b); [|reflexivity].
  rewrite (mapM_ok _ (fun bal => extractDate (descend (Some bal) ["Dt"; "Dt"]))).
  - reflexivity.
  - intros bal. now js_step.
Qed.

Lemma detailDate_nonempty (ntry txDtls : value) (d : string) :
  detailDate ntry txDtls = Some d -> isEmpty d = false.
Proof.
  unfold detailDate. simpl.
  destruct (extractDate (descend (Some txDtls) ["BookgDt"])) eqn:E1.
  - intros H. inversion H; subst. eapply extractDate_nonempty; eassumption.
  - destruct (extractDate (descend (Some ntry) ["BookgDt"])) eqn:E2; [|discriminate].
    intros H. inversion H; subst. eapply extractDate_nonempty; eassumption.
Qed.

Lemma firstDetailDate_ok (ntry : value) (txDtlsArr : list value) :
  firstDetailDate ntry txDtlsArr = Ok (firstPresent (map (detailDate ntry) txDtlsArr)).
Proof.
  induction txDtlsArr as [|tx rest IH]; [reflexivity|].
  cbn [firstDetailDate map]. js_step.
  rewrite firstPresent_cons. unfold detailDate at 1. cbn [firstPresent].
  destruct (extractDate (descend (Some tx) ["BookgDt"])) as [d|] eqn:D1; cbn [bind].
  - now rewrite (extractDate_nonempty _ _ D1).
  - destruct (extractDate (descend (Some ntry) ["BookgDt"])) as [d|] eqn:D2; cbn [bind].
    + now rewrite (extractDate_nonempty _ _ D2).
    + exact IH.
Qed.

Lemma firstEntryDate_ok (ntries : list value) :
  firstEntryDate ntries = Ok (firstPresent (flat_map entryDateCandidates ntries)).
Proof.
  induction ntries as [|ntry rest IH]; [reflexivity|].
  cbn [firstEntryDate flat_map]. js_step.
  rewrite firstPresent_app. unfold entryDateCandidates at 1.
  rewrite firstPresent_app. unfold detailBlocks.
  change (descend (Some ntry) ["NtryDtls"; "TxDtls"])
    with (child (descend (Some ntry) ["NtryDtls"]) "TxDtls").
  destruct (child (descend (Some ntry) ["NtryDtls"]) "TxDtls") as [t|].
  - destruct (truthyV t).
    + rewrite firstDetailDate_ok. cbn [bind].
      destruct (firstPresent (map (detailDate ntry) (asArray t))); [reflexivity|].
      js_step. cbn [firstPresent map].
      destruct (extractDate (descend (Some ntry) ["BookgDt"])) as [d|] eqn:D; [|exact IH].
      now rewrite (extractDate_nonempty _ _ D).
    + js_step. cbn [firstPresent map].
      destruct (extractDate (descend (Some ntry) ["BookgDt"])) as [d|] eqn:D; [|exact IH].
      now rewrite (extractDate_nonempty _ _ D).
  - js_step. cbn [firstPresent map].
    destruct (extractDate (descend (Some ntry) ["BookgDt"])) as [d|] eqn:D; [|exact IH].
    now rewrite (extractDate_nonempty _ _ D).
Qed.

Lemma entryDateTier_ok (stmt : value) :
  entryDateTier stmt = Ok (firstPresent (flat_map entryDateCandidates (entriesOf stmt))).
Proof.
  unfold entryDateTier, entriesOf.
  destruct (prop stmt "Ntry") as [n|]; [|reflexivity].
  destruct (truthyV n); [apply firstEntryDate_ok | reflexivity].
Qed.

Lemma resolveStatementDate_ok (stmt : value) :
  resolveStatementDate stmt = Ok (orEmpty (firstPresent (statementDateTiers stmt))).
Proof.
  unfold resolveStatementDate, statementDateTiers. js_step.
  rewrite balanceDateTier_ok, entryDateTier_ok.
  destruct (extractDate (descend (Some stmt) ["FrToDt"; "ToDtTm"])); [reflexivity|].
  destruct (extractDate (descend (Some stmt) ["FrToDt"; "ToDt"])); [reflexivity|].
  destruct (extractDate (descend (Some stmt) ["CreDtTm"])); [reflexivity|].
  cbn [bind orElse firstPresent].
  destruct (last (map Some (balanceDates stmt)) None); [reflexivity|].
  cbn [bind orElse firstPresent].
  destruct (firstPresent (flat_map entryDateCandidates (entriesOf stmt))); reflexivity.
Qed.

Lemma balanceStep_ok (acc : option number * option number) (bal : value) :
  balanceStep (Ok acc) bal = Ok (assignStep acc bal).
Proof.
  unfold balanceStep, assignStep, hasCode, balCode, balAmount.
  destruct acc as [opening closing]. js_step. reflexivity.
Qed.

Lemma fold_balanceStep (bals : list value) (acc : option number * option number) :
  fold_left balanceStep bals (Ok acc) = Ok (fold_left assignStep bals acc).
Proof.
  revert acc. induction bals as [|bal bals IH]; intros acc; [reflexivity|].
  cbn [fold_left]. rewrite balanceStep_ok. apply IH.
Qed.

Lemma find_app {A : Type} (p : A -> bool) (l r : list A) :
  find p (l ++ r) = match find p l with Some x => Some x | None => find p r end.
Proof.
  induction l as [|a l IH]; [reflexivity|]. simpl.
  destruct (p a); [reflexivity | exact IH].
Qed.

Lemma lastWithCode_cons (c : string) (bal : value) (bals : list value) :
  lastWithCode c (bal :: bals)
  = match lastWithCode c bals with
    | Some b => Some b
    | None => if hasCode c bal then Some bal else None
    end.
Proof. unfold lastWithCode. simpl. now rewrite find_app. Qed.

(** Last match wins: the loop leaves, for each code, the amount of the last
    block that carries it, and the initial value when none does. *)
Lemma fold_assignStep (bals : list value) (acc : option number * option number) :
  fold_left assignStep bals acc
  = (match lastWithCode "OPBD" bals with
     | Some b => balAmount b
     | None => fst acc
     end,
     match lastWithCode "CLBD" bals with
     | Some b => balAmount b
     | None => snd acc
     end).
Proof.
  revert acc. induction bals as [|bal bals IH]; intros [opening closing].
  - reflexivity.
  - cbn [fold_left]. rewrite IH, !lastWithCode_cons. unfold assignStep.
    cbn [fst snd].
    destruct (lastWithCode "OPBD" bals), (lastWithCode "CLBD" bals),
      (hasCode "OPBD" bal), (hasCode "CLBD" bal); reflexivity.
Qed.

Lemma resolveBalances_ok (stmt : value) :
  resolveBalances stmt
  = Ok (assigned "OPBD" (balancesOf stmt), assigned "CLBD" (balancesOf stmt)).
Proof.
  unfold resolveBalances, balancesOf, assigned.
  destruct (prop stmt "Bal") as [b|]; [|reflexivity].
  destruct (truthyV b); [|reflexivity].
  rewrite fold_balanceStep, fold_assignStep. reflexivity.
Qed.

Lemma resolveSummaryBlock_ok (stmt : value) (block : string) :
  truthy (prop stmt "TxsSummry") = true ->
  resolveSummaryBlock stmt block = Ok (summaryOf stmt block).
Proof.
  intros T. unfold resolveSummaryBlock, summaryOf.
  change (descend (Some stmt) ["TxsSummry"; block])
    with (child (prop stmt "TxsSummry") block).
  destruct (prop stmt "TxsSummry") as [summary|]; [|discriminate].
  cbn [member bind child].
  destruct (truthy (prop summary block)); [|reflexivity].
  js_step. reflexivity.
Qed.

Lemma summaryOf_missing (stmt : value) (block : string) :
  truthy (prop stmt "TxsSummry") = false -> summaryOf stmt block = (None, None).
Proof.
  intros T. unfold summaryOf.
  change (descend (Some stmt) ["TxsSummry"; block])
    with (child (prop stmt "TxsSummry") block).
  now rewrite (falsy_child _ _ T).
Qed.

Lemma resolveSummary_ok (stmt : value) :
  resolveSummary stmt
  = Ok (summaryOf stmt "TtlCdtNtries", summaryOf stmt "TtlDbtNtries").
Proof.
  unfold resolveSummary. destruct (truthy (prop stmt "TxsSummry")) eqn:T.
  - now rewrite !resolveSummaryBlock_ok.
  - now rewrite !summaryOf_missing.
Qed.

(* ===================================================================== *)
(** ** The flattener refines the fields of a transaction *)
(* ===================================================================== *)

Lemma counterpartyOf_ok (ntryType : option direction) (txDtls : jsval) :
  counterpartyOf ntryType txDtls = Ok (counterpartyLookup ntryType txDtls).
Proof.
  unfold counterpartyOf, counterpartyLookup. js_step.
  change (child txDtls "RltdPties") with (descend txDtls ["RltdPties"]).
  destruct (truthy (descend txDtls ["RltdPties"])); [|reflexivity].
  destruct ntryType as [[|]|]; [| |reflexivity]; js_cases; reflexivity.
Qed.

Lemma counterpartyNameOf_ok (ntry : value) (txDtls name : jsval) :
  counterpartyNameOf ntry txDtls name = Ok (counterpartyNameFor ntry txDtls name).
Proof.
  unfold counterpartyNameOf, counterpartyNameFor.
  destruct (truthy name); [reflexivity|]. js_step.
  destruct (descend (Some ntry) ["AcctSvcrRef"]); [reflexivity|].
  destruct (descend (Some ntry) ["NtryRef"]); [reflexivity|].
  cbn [firstPresent]. now destruct (descend txDtls ["Refs"; "Prtry"; "Ref"]).
Qed.

Lemma counterpartyAccountOf_ok (ntry : value) (txDtls account : jsval) :
  counterpartyAccountOf ntry txDtls account
  = Ok (counterpartyAccountFor ntry txDtls account).
Proof.
  unfold counterpartyAccountOf, counterpartyAccountFor.
  destruct (truthy account); [reflexivity|]. js_step.
  destruct (descend txDtls ["Refs"; "Prtry"; "Ref"]); [reflexivity|].
  cbn [firstPresent]. now destruct (descend (Some ntry) ["NtryRef"]).
Qed.

Lemma endToEndReferenceOf_ok (ntry : value) (txDtls : jsval) :
  endToEndReferenceOf ntry txDtls = Ok (endToEndReferenceFor ntry txDtls).
Proof.
  unfold endToEndReferenceOf, endToEndReferenceFor. js_step.
  destruct (truthy (descend txDtls ["Refs"; "EndToEndId"])); [reflexivity|].
  js_step.
  destruct (descend txDtls ["Refs"; "ClrSysRef"]); [reflexivity|].
  destruct (descend txDtls ["Refs"; "Prtry"; "Ref"]); [reflexivity|].
  cbn [firstPresent]. now destruct (descend (Some ntry) ["NtryRef"]).
Qed.

Lemma remittanceReferenceOf_ok (strd : jsval) :
  remittanceReferenceOf strd = Ok (remittanceReferenceFor strd).
Proof.
  unfold remittanceReferenceOf, remittanceReferenceFor. js_step.
  change (child (child strd "CdtrRefInf") "Ref")
    with (descend strd ["CdtrRefInf"; "Ref"]).
  destruct (truthy (descend strd ["CdtrRefInf"; "Ref"])) eqn:T; rewrite ?T.
  - reflexivity.
  - cbn [truthy negb andb]. destruct (truthy strd); [|reflexivity].
    js_step. js_cases; reflexivity.
Qed.

Lemma pushIf_keepTruthy (parts : list value) (x : jsval) :
  pushIf parts x = parts ++ keepTruthy [x].
Proof.
  unfold pushIf, keepTruthy. simpl.
  destruct x as [v|]; [destruct (truthyV v)|]; simpl;
    now rewrite ?app_nil_r.
Qed.

Lemma keepTruthy_app (l r : list jsval) :
  keepTruthy (l ++ r) = keepTruthy l ++ keepTruthy r.
Proof. apply flat_map_app. Qed.

Lemma keepTruthy_all (l : list jsval) : forallb truthyV (keepTruthy l) = true.
Proof.
  induction l as [|x l IH]; [reflexivity|].
  destruct x as [v|]; simpl; [|exact IH].
  destruct (truthyV v) eqn:T; simpl; [now rewrite T | exact IH].
Qed.

Lemma filter_all {A : Type} (p : A -> bool) (l : list A) :
  forallb p l = true -> filter p l = l.
Proof.
  induction l as [|a l IH]; simpl; [reflexivity|].
  destruct (p a); simpl; [intros H; now rewrite IH | discriminate].
Qed.

Lemma descriptionCandidates_ok (ntry : value) (txDtls : jsval) :
  descriptionCandidates ntry txDtls (descend txDtls ["RmtInf"; "Strd"])
  = Ok (descriptionTexts ntry txDtls).
Proof.
  unfold descriptionCandidates, descriptionTexts. js_step.
  rewrite !pushIf_keepTruthy. cbn [app].
  rewrite <- !keepTruthy_app. reflexivity.
Qed.

Lemma descriptionFallback_ok (stmt ntry : value) (txDtls : jsval) :
  descriptionFallback stmt ntry txDtls = Ok (descriptionReference stmt ntry txDtls).
Proof.
  unfold descriptionFallback, descriptionReference. js_step.
  destruct (descend (Some ntry) ["AcctSvcrRef"]); [reflexivity|].
  destruct (descend txDtls ["Refs"; "InstrId"]); [reflexivity|].
  cbn [firstPresent]. now destruct (descend (Some stmt) ["Id"]).
Qed.

Lemma descriptionPartsOf_ok (stmt ntry : value) (txDtls : jsval) :
  descriptionPartsOf stmt ntry txDtls (descend txDtls ["RmtInf"; "Strd"])
  = Ok (descriptionSources stmt ntry txDtls).
Proof.
  unfold descriptionPartsOf, descriptionSources.
  rewrite descriptionCandidates_ok. cbn [bind].
  destruct (descriptionTexts ntry txDtls); [|reflexivity].
  rewrite descriptionFallback_ok. cbn [bind].
  now rewrite pushIf_keepTruthy.
Qed.

Lemma splitDescription_ok (l : list jsval) :
  splitDescription (keepTruthy l) = splitParts (keepTruthy l).
Proof.
  unfold splitDescription, splitParts.
  rewrite (filter_all _ _ (keepTruthy_all l)).
  destruct (keepTruthy l) as [|a [|b r]]; reflexivity.
Qed.

Lemma descriptionSources_truthy (stmt ntry : value) (txDtls : jsval) :
  exists l, descriptionSources stmt ntry txDtls = keepTruthy l.
Proof.
  unfold descriptionSources, descriptionTexts.
  destruct (keepTruthy _) eqn:E at 1.
  - eexists; reflexivity.
  - eexists; rewrite <- E; reflexivity.
Qed.

(* ===================================================================== *)
(** ** The resolver refines the statement *)
(* ===================================================================== *)

Lemma firstPresent_pair {A : Type} (a b : option A) :
  firstPresent [a; b] = match a with Some x => Some x | None => b end.
Proof. destruct a, b; reflexivity. Qed.

Lemma flattenDetail_ok (stmt ntry : value) (ntryDate : option string)
    (ntryAmount : option number) (ntryType : option direction)
    (ntryCurrency : value) (txDtls : jsval) :
  flattenDetail stmt ntry ntryDate ntryAmount ntryType ntryCurrency txDtls
  = Ok (transactionOf stmt ntry ntryDate ntryAmount ntryType ntryCurrency txDtls).
Proof.
  unfold flattenDetail, transactionOf.
  rewrite counterpartyOf_ok. cbn [bind].
  destruct (counterpartyLookup ntryType txDtls) as [name account].
  rewrite counterpartyNameOf_ok, counterpartyAccountOf_ok, endToEndReferenceOf_ok.
  js_step.
  rewrite remittanceReferenceOf_ok, descriptionPartsOf_ok. cbn [bind].
  destruct (descriptionSources_truthy stmt ntry txDtls) as [l ->].
  rewrite splitDescription_ok.
  destruct (splitParts (keepTruthy l)) as [description descriptionAdditional].
  rewrite !firstPresent_pair. cbn [fst snd].
  destruct (truthy txDtls) eqn:T; [reflexivity|].
  now rewrite !(falsy_descend _ _ _ T).
Qed.

Lemma entryCurrency_ok (currency : string) (ntry : value) :
  entryCurrency currency (descend (Some ntry) ["Amt"])
  = Ok (entryBaselineCurrency currency ntry).
Proof.
  unfold entryCurrency, entryBaselineCurrency.
  change (descend (Some ntry) ["Amt"; "Ccy"])
    with (child (descend (Some ntry) ["Amt"]) "Ccy").
  destruct (descend (Some ntry) ["Amt"]) as [[s|l|fs]|];
    destruct (isEmpty currency); reflexivity.
Qed.

Lemma detailsOf_ok (ntry : value) : detailsOf ntry = Ok (detailsFor ntry).
Proof.
  unfold detailsOf, detailsFor, detailBlocks. js_step.
  change (child (descend (Some ntry) ["NtryDtls"]) "TxDtls")
    with (descend (Some ntry) ["NtryDtls"; "TxDtls"]).
  destruct (descend (Some ntry) ["NtryDtls"; "TxDtls"]) as [t|]; [|reflexivity].
  destruct (truthyV t); [|reflexivity].
  destruct (asArray t); reflexivity.
Qed.

Lemma flattenEntry_ok (stmt : value) (currency : string) (ntry : value) :
  flattenEntry stmt currency ntry = Ok (entryTransactions stmt currency ntry).
Proof.
  unfold flattenEntry, entryTransactions. js_step.
  rewrite entryCurrency_ok, detailsOf_ok. cbn [bind].
  apply mapM_ok. intros txDtls. apply flattenDetail_ok.
Qed.

Lemma resolveTransactions_ok (stmt : value) (currency : string) :
  resolveTransactions stmt currency = Ok (transactionsOf stmt currency).
Proof.
  unfold resolveTransactions, transactionsOf.
  rewrite (mapM_ok _ _ _ (flattenEntry_ok stmt currency)). cbn [bind].
  now rewrite flat_map_concat_map.
Qed.

(** The resolver refines [statementOf]: on every subtree it returns, and
    returns that statement. *)
Lemma mapStatement_ok (idx : nat) (stmt : value) :
  mapStatement idx stmt = Ok (statementOf idx stmt).
Proof.
  unfold mapStatement, statementOf.
  rewrite resolveAccountHolder_ok, resolveAccountIBAN_ok, resolveCurrency_ok,
    resolveSequenceNumber_ok, resolveStatementDate_ok, resolveBalances_ok,
    resolveSummary_ok.
  cbn [bind]. rewrite resolveTransactions_ok. cbn [bind].
  destruct (summaryOf stmt "TtlCdtNtries"), (summaryOf stmt "TtlDbtNtries").
  reflexivity.
Qed.

Lemma mapStatements_ok (stmts : list value) (idx : nat) :
  mapStatements idx stmts = Ok (statementsFrom idx stmts).
Proof.
  revert idx. induction stmts as [|stmt rest IH]; intros idx; [reflexivity|].
  cbn [mapStatements statementsFrom]. now rewrite mapStatement_ok, IH.
Qed.

Lemma statementsFrom_length (stmts : list value) (idx : nat) :
  length (statementsFrom idx stmts) = length stmts.
Proof.
  revert idx. induction stmts as [|stmt rest IH]; intros idx; simpl;
    [reflexivity | now rewrite IH].
Qed.

(* ===================================================================== *)
(** ** Emitted transactions and their sources *)
(* ===================================================================== *)

Lemma transactions_by_source (stmt : value) (currency : string) :
  transactionsOf stmt currency = map (emitted stmt currency) (detailSources stmt).
Proof.
  unfold transactionsOf, detailSources.
  induction (entriesOf stmt) as [|ntry rest IH]; [reflexivity|].
  cbn [flat_map]. rewrite map_app, <- IH. f_equal.
  unfold entryTransactions. now rewrite map_map.
Qed.

Lemma Forall2_map_self {A B : Type} (P : A -> B -> Prop) (g : A -> B) (l : list A) :
  (forall a, P a (g a)) -> Forall2 P l (map g l).
Proof. intros H. induction l; simpl; constructor; auto. Qed.

(** Every statement is resolved, and its transactions are the emitted ones,
    source by source. *)
Lemma statement_transactions (idx : nat) (stmt : value)
    (P : value * jsval -> Camt053Transaction -> Prop) :
  (forall src, P src (emitted stmt (currencyText (descend (Some stmt) ["Acct"; "Ccy"])) src)) ->
  exists st, mapStatement idx stmt = Ok st
             /\ Forall2 P (detailSources stmt) (transactions st).
Proof.
  intros H. exists (statementOf idx stmt). split; [apply mapStatement_ok|].
  cbn [statementOf transactions]. rewrite transactions_by_source.
  now apply Forall2_map_self.
Qed.

(* ===================================================================== *)
(** ** The statement currency *)
(* ===================================================================== *)

(** C5. For every statement subtree the resolver returns a statement whose
    currency is a string: the account-level currency field itself when it
    is a bare string, the text content of the field when it is an
    attributed value-holder, and the empty string when the field is absent
    or has neither shape.  It is never null: [currency] has type
    [string]. *)
Theorem statement_currency_is_plain_string (idx : nat) (stmt : value) :
  exists st, mapStatement idx stmt = Ok st
    /\ currency st
       = match descend (Some stmt) ["Acct"; "Ccy"] with
         | Some (VStr bare) => bare
         | Some holder =>
             match prop holder "_" with
             | Some (VStr text) => text
             | _ => EmptyString
             end
         | None => EmptyString
         end.
Proof.
  exists (statementOf idx stmt). split; [apply mapStatement_ok | reflexivity].
Qed.

(* ===================================================================== *)
(** ** Description, date, amount and currency of a transaction *)
(* ===================================================================== *)


(* ===================================================================== *)
(** ** Balances and summaries *)
(* ===================================================================== *)

Lemma find_hd_filter {A : Type} (p : A -> bool) (l : list A) :
  find p l = hd_error (filter p l).
Proof.
  induction l as [|a l IH]; [reflexivity|]. simpl.
  destruct (p a); [reflexivity | exact IH].
Qed.

Lemma filter_rev_comm {A : Type} (p : A -> bool) (l : list A) :
  filter p (rev l) = rev (filter p l).
Proof.
  induction l as [|a l IH]; [reflexivity|]. simpl.
  rewrite filter_app, IH. simpl. destruct (p a); simpl; [reflexivity|].
  apply app_nil_r.
Qed.

(** The assigned balance depends only on the blocks that carry the code,
    in their relative order. *)
Lemma assigned_filter (c : string) (l l' : list value) :
  filter (hasCode c) l = filter (hasCode c) l' -> assigned c l = assigned c l'.
Proof.
  intros H. unfold assigned, lastWithCode.
  now rewrite !find_hd_filter, !filter_rev_comm, H.
Qed.

Lemma hasCode_true (c : string) (bal : value) :
  hasCode c bal = true -> balCode bal = Some (VStr c).
Proof.
  unfold hasCode. destruct (balCode bal) as [[s|l|fs]|]; try discriminate.
  intros H. apply String.eqb_eq in H. now subst.
Qed.

Lemma filter_none {A : Type} (p : A -> bool) (l : list A) :
  (forall a, In a l -> p a = false) -> filter p l = [].
Proof.
  induction l as [|a l IH]; intros H; [reflexivity|]. simpl.
  rewrite (H a (or_introl eq_refl)). apply IH. intros b Hb. apply H. now right.
Qed.

(** Swapping two blocks with different codes, with no block between them
    that shares a code with either, keeps the blocks of every code in the
    same relative order. *)
Lemma swap_keeps_code_order (c : string) (l1 l2 l3 : list value) (b1 b2 : value) :
  balCode b1 <> balCode b2 ->
  (forall m, In m l2 -> balCode m <> balCode b1 /\ balCode m <> balCode b2) ->
  filter (hasCode c) (l1 ++ b1 :: l2 ++ b2 :: l3)
  = filter (hasCode c) (l1 ++ b2 :: l2 ++ b1 :: l3).
Proof.
  intros Hne Hmid.
  rewrite !filter_app. f_equal. cbn [filter]. rewrite !filter_app. cbn [filter].
  destruct (hasCode c b1) eqn:E1, (hasCode c b2) eqn:E2.
  - exfalso. apply Hne. now rewrite (hasCode_true _ _ E1), (hasCode_true _ _ E2).
  - rewrite (filter_none (hasCode c) l2); [reflexivity|].
    intros m Hm. destruct (hasCode c m) eqn:Em; [|reflexivity].
    exfalso. apply (proj1 (Hmid m Hm)).
    now rewrite (hasCode_true _ _ E1), (hasCode_true _ _ Em).
  - rewrite (filter_none (hasCode c) l2); [reflexivity|].
    intros m Hm. destruct (hasCode c m) eqn:Em; [|reflexivity].
    exfalso. apply (proj2 (Hmid m Hm)).
    now rewrite (hasCode_true _ _ E2), (hasCode_true _ _ Em).
  - reflexivity.
Qed.

(** Last match wins: when no later block carries the code, a block with
    the code determines the assigned balance. *)
Lemma assigned_last (c : string) (before after : list value) (bal : value) :
  hasCode c bal = true ->
  (forall m, In m after -> hasCode c m = false) ->
  assigned c (before ++ bal :: after) = balAmount bal.
Proof.
  intros Hb Hafter. unfold assigned, lastWithCode.
  rewrite find_hd_filter, filter_rev_comm, filter_app. cbn [filter].
  rewrite Hb, (filter_none _ _ Hafter), rev_app_distr. reflexivity.
Qed.

Lemma filter_code_short (c : string) (l : list value) :
  NoDup (map balCode l) -> filter (hasCode c) l = [] \/ exists b, filter (hasCode c) l = [b].
Proof.
  induction l as [|a l IH]; intros H; [now left|].
  cbn [map] in H. inversion H as [|x xs Hnotin Hrest]; subst.
  cbn [filter]. destruct (hasCode c a) eqn:Ea; [|now apply IH].
  right. exists a. f_equal. apply filter_none.
  intros m Hm. destruct (hasCode c m) eqn:Em; [|reflexivity].
  exfalso. apply Hnotin.
  rewrite (hasCode_true _ _ Ea), <- (hasCode_true _ _ Em).
  now apply in_map.
Qed.

Lemma Permutation_filter_same {A : Type} (p : A -> bool) (l l' : list A) :
  Permutation l l' -> Permutation (filter p l) (filter p l').
Proof.
  induction 1 as [|x l l' _ IH|x y l|l l' l'' _ IH1 _ IH2]; cbn [filter].
  - constructor.
  - destruct (p x); [now constructor | exact IH].
  - destruct (p x), (p y); try apply Permutation_refl. apply perm_swap.
  - now apply (perm_trans IH1).
Qed.

(** Blocks with pairwise distinct codes: any reordering keeps the blocks
    of every code the same. *)
Lemma distinct_codes_any_order (c : string) (l l' : list value) :
  NoDup (map balCode l) -> Permutation l l' ->
  filter (hasCode c) l = filter (hasCode c) l'.
Proof.
  intros Hnd Hperm.
  pose proof (Permutation_filter_same (hasCode c) _ _ Hperm) as Hf.
  destruct (filter_code_short c l Hnd) as [E|[b E]]; rewrite E in Hf |- *.
  - symmetry. now apply Permutation_nil.
  - symmetry. now apply Permutation_length_1_inv.
Qed.

(** C8. Take two statements [stmt] and [stmt'].  (i) If the balance blocks
    of [stmt] carry pairwise distinct type codes and those of [stmt'] are
    the same blocks in another order, both statements get the same
    opening and closing balance.  (ii) If the blocks of the two statements
    differ by the swap of two blocks [b1] and [b2] whose codes differ (no
    block between them repeating either code), both get the same
    balances.  (iii) If they differ by the swap of two blocks that both
    carry the opening (respectively closing) code, with no later block
    carrying it, the balance is the amount of whichever of the two comes
    later: [b2] in [stmt], [b1] in [stmt']. *)
Theorem balance_assignment_order (idx : nat) (stmt stmt' : value) :
  exists st st',
    mapStatement idx stmt = Ok st /\ mapStatement idx stmt' = Ok st'
    /\ (NoDup (map balCode (balancesOf stmt)) ->
        Permutation (balancesOf stmt) (balancesOf stmt') ->
        openingBalance st = openingBalance st'
        /\ closingBalance st = closingBalance st')
    /\ (forall l1 b1 l2 b2 l3,
          balancesOf stmt = l1 ++ b1 :: l2 ++ b2 :: l3 ->
          balancesOf stmt' = l1 ++ b2 :: l2 ++ b1 :: l3 ->
          (balCode b1 <> balCode b2 ->
           (forall m, In m l2 -> balCode m <> balCode b1 /\ balCode m <> balCode b2) ->
           openingBalance st = openingBalance st'
           /\ closingBalance st = closingBalance st')
          /\ (hasCode "OPBD" b1 = true -> hasCode "OPBD" b2 = true ->
              (forall m, In m l3 -> hasCode "OPBD" m = false) ->
              openingBalance st = balAmount b2 /\ openingBalance st' = balAmount b1)
          /\ (hasCode "CLBD" b1 = true -> hasCode "CLBD" b2 = true ->
              (forall m, In m l3 -> hasCode "CLBD" m = false) ->
              closingBalance st = balAmount b2 /\ closingBalance st' = balAmount b1)).
Proof.
  exists (statementOf idx stmt), (statementOf idx stmt').
  split; [apply mapStatement_ok|]. split; [apply mapStatement_ok|].
  cbn [statementOf openingBalance closingBalance]. split.
  - intros Hnd Hperm.
    split; apply assigned_filter; now apply distinct_codes_any_order.
  - intros l1 b1 l2 b2 l3 E E'. rewrite E, E'.
    assert (later : forall c, hasCode c b1 = true -> hasCode c b2 = true ->
              (forall m, In m l3 -> hasCode c m = false) ->
              assigned c (l1 ++ b1 :: l2 ++ b2 :: l3) = balAmount b2
              /\ assigned c (l1 ++ b2 :: l2 ++ b1 :: l3) = balAmount b1).
    { intros c H1 H2 H3. split.
      - change (l1 ++ b1 :: l2 ++ b2 :: l3) with (l1 ++ (b1 :: l2) ++ b2 :: l3).
        rewrite app_assoc. now apply assigned_last.
      - change (l1 ++ b2 :: l2 ++ b1 :: l3) with (l1 ++ (b2 :: l2) ++ b1 :: l3).
        rewrite app_assoc. now apply assigned_last. }
    split; [|split; apply later].
    intros Hne Hmid.
    split; apply assigned_filter; now apply swap_keeps_code_order.
Qed.

Lemma balance_assignment_order_witness :
  (exists st st',
      mapStatement 0 (statementWithBalances
                        [balanceBlock "OPBD" "10.50"; balanceBlock "CLBD" "20.00"]) = Ok st
      /\ mapStatement 0 (statementWithBalances
                           [balanceBlock "CLBD" "20.00"; balanceBlock "OPBD" "10.50"]) = Ok st'
      /\ openingBalance st = openingBalance st'
      /\ closingBalance st = closingBalance st')
  /\ (exists st st',
         mapStatement 0 (statementWithBalances
                           [balanceBlock "OPBD" "1.00"; balanceBlock "OPBD" "3.00"]) = Ok st
         /\ mapStatement 0 (statementWithBalances
                              [balanceBlock "OPBD" "3.00"; balanceBlock "OPBD" "1.00"]) = Ok st'
         /\ openingBalance st = Some (parseFloatStr "3.00")
         /\ openingBalance st' = Some (parseFloatStr "1.00")).
Proof.
  split.
  - destruct (balance_assignment_order 0
                (statementWithBalances
                   [balanceBlock "OPBD" "10.50"; balanceBlock "CLBD" "20.00"])
                (statementWithBalances
                   [balanceBlock "CLBD" "20.00"; balanceBlock "OPBD" "10.50"]))
      as (st & st' & E & E' & _ & Hswap).
    exists st, st'. split; [exact E|]. split; [exact E'|].
    destruct (Hswap [] (balanceBlock "OPBD" "10.50") []
                (balanceBlock "CLBD" "20.00") [] eq_refl eq_refl) as (Hdiff & _).
    apply Hdiff; [discriminate | intros m []].
  - destruct (balance_assignment_order 0
                (statementWithBalances
                   [balanceBlock "OPBD" "1.00"; balanceBlock "OPBD" "3.00"])
                (statementWithBalances
                   [balanceBlock "OPBD" "3.00"; balanceBlock "OPBD" "1.00"]))
      as (st & st' & E & E' & _ & Hswap).
    exists st, st'. split; [exact E|]. split; [exact E'|].
    destruct (Hswap [] (balanceBlock "OPBD" "1.00") []
                (balanceBlock "OPBD" "3.00") [] eq_refl eq_refl) as (_ & Hopen & _).
    apply Hopen; [reflexivity | reflexivity | intros m []].
Defined.

(** C10, as the code has it.  For the credit-entries block (and likewise
    the debit-entries block) of the transaction summary: when the block is
    a non-empty node without a count element, the count is 0, not absent;
    the total is then whatever the sum element yields, absent included,
    whatever the count; and the count is absent exactly when the block is
    falsy, that is when the summary or the block is missing or is an empty
    element. *)
Theorem summary_count_defaults_to_zero (idx : nat) (stmt : value) :
  exists st, mapStatement idx stmt = Ok st
    /\ let block b := descend (Some stmt) ["TxsSummry"; b] in
       let part b k := descend (Some stmt) ["TxsSummry"; b; k] in
       ((truthy (block "TtlCdtNtries") = true ->
         part "TtlCdtNtries" "NbOfNtries" = None -> numberOfCredits st = Some zero)
        /\ (truthy (block "TtlCdtNtries") = true ->
            totalCredits st = extractAmount (part "TtlCdtNtries" "Sum"))
        /\ (numberOfCredits st = None <-> truthy (block "TtlCdtNtries") = false))
       /\ ((truthy (block "TtlDbtNtries") = true ->
            part "TtlDbtNtries" "NbOfNtries" = None -> numberOfDebits st = Some zero)
           /\ (truthy (block "TtlDbtNtries") = true ->
               totalDebits st = extractAmount (part "TtlDbtNtries" "Sum"))
           /\ (numberOfDebits st = None <-> truthy (block "TtlDbtNtries") = false)).
Proof.
  exists (statementOf idx stmt). split; [apply mapStatement_ok|].
  cbn [statementOf numberOfCredits totalCredits numberOfDebits totalDebits].
  unfold summaryOf.
  split.
  - destruct (truthy (descend (Some stmt) ["TxsSummry"; "TtlCdtNtries"]));
      cbn [fst snd]; repeat split; try discriminate; try reflexivity.
    intros _ ->. reflexivity.
  - destruct (truthy (descend (Some stmt) ["TxsSummry"; "TtlDbtNtries"]));
      cbn [fst snd]; repeat split; try discriminate; try reflexivity.
    intros _ ->. reflexivity.
Qed.

(** C10, as stated, fails: the credit-entries block is there and lacks the
    count element, yet the count is absent, not 0. *)
Lemma empty_summary_block_gives_no_count :
  descend (Some statementWithEmptyCreditBlock) ["TxsSummry"; "TtlCdtNtries"]
  = Some (VStr EmptyString)
  /\ descend (Some statementWithEmptyCreditBlock)
       ["TxsSummry"; "TtlCdtNtries"; "NbOfNtries"] = None
  /\ exists st, mapStatement 0 statementWithEmptyCreditBlock = Ok st
                /\ numberOfCredits st = None
                /\ numberOfCredits st <> Some zero.
Proof.
  split; [reflexivity|]. split; [reflexivity|].
  eexists. split; [reflexivity|]. split; [reflexivity | discriminate].
Qed.

(* ===================================================================== *)
(** ** The statement date *)
(* ===================================================================== *)

(** With a single entry-details container the located blocks are all the
    blocks of the entry. *)
Lemma single_container_blocks (ntry : value) :
  (forall items, prop ntry "NtryDtls" <> Some (VArr items)) ->
  detailBlocks ntry = allDetailBlocks ntry.
Proof.
  intros H. unfold detailBlocks, allDetailBlocks, detailContainers.
  change (descend (Some ntry) ["NtryDtls"; "TxDtls"])
    with (child (prop ntry "NtryDtls") "TxDtls").
  destruct (prop ntry "NtryDtls") as [[s|items|fs]|]; try reflexivity.
  - destruct s; reflexivity.
  - now destruct (H items).
  - cbn [child truthyV asArray flat_map]. now rewrite app_nil_r.
Qed.

Lemma last_cons_default {A : Type} (a d : A) (l : list A) :
  last (a :: l) d = last l a.
Proof.
  revert a d. induction l as [|b l IH]; intros a d; [reflexivity|].
  change (last (a :: b :: l) d) with (last (b :: l) d).
  now rewrite (IH b d), (IH b a).
Qed.

Lemma last_map_Some {A : Type} (l : list A) :
  last (map Some l) None = match l with
                           | [] => None
                           | d :: r => Some (last r d)
                           end.
Proof.
  destruct l as [|d r]; [reflexivity|].
  cbn [map]. rewrite last_cons_default.
  revert d. induction r as [|e r IH]; intros d; [reflexivity|].
  cbn [map]. rewrite !last_cons_default. apply IH.
Qed.

Lemma chronological_last (d : string) (r : list string) :
  chronological (d :: r) = true -> fold_left laterDate r d = last r d.
Proof.
  revert d. induction r as [|e r IH]; intros d H; [reflexivity|].
  cbn [chronological] in H. apply andb_prop in H. destruct H as [Hde Hr].
  cbn [fold_left]. unfold laterDate at 2. rewrite Hde, last_cons_default.
  now apply IH.
Qed.

(** On balance blocks listed in chronological order, the date the balance
    tier returns is the latest balance date. *)
Lemma balance_tier_latest (dates : list string) :
  chronological dates = true -> last (map Some dates) None = latest dates.
Proof.
  intros H. rewrite last_map_Some. destruct dates as [|d r]; [reflexivity|].
  cbn [latest]. now rewrite chronological_last.
Qed.

Lemma last_In {A : Type} (l : list A) (x : A) :
  last (map Some l) None = Some x -> In x l.
Proof.
  induction l as [|a l IH]; [discriminate|].
  cbn [map]. rewrite last_cons_default. destruct l as [|b l].
  - intros H. inversion H. now left.
  - intros H. right. apply IH.
    cbn [map] in H |- *. rewrite last_cons_default in H |- *. exact H.
Qed.

Lemma keepDates_extract {A : Type} (f : A -> jsval) (l : list A) :
  keepDates (map (fun a => extractDate (f a)) l)
  = flat_map (fun a => match extractDate (f a) with
                       | Some d => [d]
                       | None => []
                       end) l.
Proof.
  induction l as [|a l IH]; [reflexivity|].
  unfold keepDates in *. cbn [map flat_map]. rewrite IH.
  destruct (extractDate (f a)) as [d|] eqn:E; [|reflexivity].
  now rewrite (extractDate_nonempty _ _ E).
Qed.

(** C2, as the code has it.  The statement date is the first date yielded
    by, in this order: (a) the period end date-time, (b) the period end
    date, (c) the statement creation date-time, (d) a balance tier, (e)
    the first booking date in document order, (f) the empty string.  The
    balance tier reads the plain date of every balance block, the
    element [Dt] inside the block's [Dt], and nothing else: a block that
    dates itself by a date-time does not count.  It yields a date exactly
    when some block has a plain date, always the plain date of one of the
    blocks, and the latest of them when the blocks list them in
    chronological order.  Tier (e) reads the entries in order and, within
    an entry, each transaction-detail block located in it (its booking
    date, else the entry's) and then the entry's own booking date; in an
    entry that does not repeat the entry-details container the located
    blocks are all its transaction-detail blocks. *)
Theorem statement_date_tiers (idx : nat) (stmt : value) :
  exists st, mapStatement idx stmt = Ok st
    /\ let plainDate bal := extractDate (descend (Some bal) ["Dt"; "Dt"]) in
       let plainDates :=
         flat_map (fun bal => match plainDate bal with
                              | Some d => [d]
                              | None => []
                              end)
                  (balancesOf stmt) in
       exists balanceTier : option string,
         statementDate st
         = orEmpty (firstPresent
                      [ extractDate (descend (Some stmt) ["FrToDt"; "ToDtTm"]);
                        extractDate (descend (Some stmt) ["FrToDt"; "ToDt"]);
                        extractDate (descend (Some stmt) ["CreDtTm"]);
                        balanceTier;
                        firstPresent
                          (flat_map
                             (fun ntry =>
                                map (fun txDtls =>
                                       firstPresent
                                         [ extractDate (descend (Some txDtls) ["BookgDt"]);
                                           extractDate (descend (Some ntry) ["BookgDt"]) ])
                                    (detailBlocks ntry)
                                ++ [extractDate (descend (Some ntry) ["BookgDt"])])
                             (entriesOf stmt)) ])
         /\ (balanceTier = None
             <-> forall bal, In bal (balancesOf stmt) -> plainDate bal = None)
         /\ (forall d, balanceTier = Some d ->
                       exists bal, In bal (balancesOf stmt) /\ plainDate bal = Some d)
         /\ ((forall bal, In bal (balancesOf stmt) ->
                          descend (Some bal) ["Dt"; "Dt"] = None) ->
             balanceTier = None)
         /\ (chronological plainDates = true -> balanceTier = latest plainDates)
         /\ (forall ntry,
               (forall items, prop ntry "NtryDtls" <> Some (VArr items)) ->
               detailBlocks ntry = allDetailBlocks ntry).
Proof.
  exists (statementOf idx stmt). split; [apply mapStatement_ok|]. cbv zeta.
  exists (last (map Some (balanceDates stmt)) None).
  split; [reflexivity|].
  assert (E : balanceDates stmt
              = flat_map (fun bal =>
                            match extractDate (descend (Some bal) ["Dt"; "Dt"]) with
                            | Some d => [d]
                            | None => []
                            end) (balancesOf stmt))
    by (unfold balanceDates; apply keepDates_extract).
  assert (N : last (map Some (balanceDates stmt)) None = None
              <-> forall bal, In bal (balancesOf stmt) ->
                              extractDate (descend (Some bal) ["Dt"; "Dt"]) = None).
  { rewrite last_map_Some, E. split.
    - intros H bal Hin.
      destruct (extractDate (descend (Some bal) ["Dt"; "Dt"])) as [d|] eqn:D;
        [|reflexivity].
      assert (I : In d (flat_map (fun bal =>
                                    match extractDate (descend (Some bal) ["Dt"; "Dt"]) with
                                    | Some d => [d]
                                    | None => []
                                    end) (balancesOf stmt))).
      { apply in_flat_map. exists bal. split; [exact Hin|]. rewrite D. now left. }
      destruct (flat_map _ (balancesOf stmt)); [destruct I | discriminate].
    - intros H.
      destruct (flat_map _ (balancesOf stmt)) as [|d r] eqn:F; [reflexivity|].
      assert (I : In d (d :: r)) by now left.
      rewrite <- F in I. apply in_flat_map in I. destruct I as (bal & Hin & Hd).
      rewrite (H bal Hin) in Hd. destruct Hd. }
  split; [exact N|]. split; [|split].
  - intros d H. apply last_In in H. rewrite E in H. apply in_flat_map in H.
    destruct H as (bal & Hin & Hd). exists bal. split; [exact Hin|].
    destruct (extractDate (descend (Some bal) ["Dt"; "Dt"])) as [d'|]; [|destruct Hd].
    destruct Hd as [->|[]]. reflexivity.
  - intros H. apply N. intros bal Hin. now rewrite (H bal Hin).
  - split; [rewrite <- E; apply balance_tier_latest|].
    intros ntry H. now apply single_container_blocks.
Qed.

(** C2, as stated, fails twice.  On entries booked out of order, tiers (a)
    to (d) yield nothing, the earliest booking date is the second
    entry's, and the statement date is the first entry's.  On a statement
    whose closing balance dates itself by a date-time, a balance date is
    present, and the statement date is the empty string. *)
Lemma statement_date_is_first_not_earliest :
  (specifiedStatementDate statementWithUnorderedEntries = "2024-01-01"
   /\ exists st, mapStatement 0 statementWithUnorderedEntries = Ok st
                 /\ statementDate st = "2024-02-02"
                 /\ statementDate st <> specifiedStatementDate statementWithUnorderedEntries)
  /\ (specifiedStatementDate statementWithDateTimeBalance = "2024-03-01"
      /\ exists st, mapStatement 0 statementWithDateTimeBalance = Ok st
                    /\ statementDate st = EmptyString
                    /\ statementDate st
                       <> specifiedStatementDate statementWithDateTimeBalance).
Proof.
  split; (split; [reflexivity|]);
    eexists; (split; [reflexivity|]); (split; [reflexivity | discriminate]).
Qed.

(* ===================================================================== *)
(** ** Texts and the namespace pattern *)
(* ===================================================================== *)

Lemma append_assoc (a b c : string) : ((a ++ b) ++ c = a ++ (b ++ c))%string.
Proof.
  induction a as [|x a IH]; [reflexivity|]. cbn [append]. now rewrite IH.
Qed.

Lemma stripPrefix_Some (p s r : string) : stripPrefix p s = Some r -> s = (p ++ r)%string.
Proof.
  revert s. induction p as [|a p IH]; intros s H.
  - cbn in H. now inversion H.
  - destruct s as [|b s]; [discriminate|]. cbn in H.
    destruct (Ascii.eqb_spec a b) as [->|]; [|discriminate].
    cbn [append]. f_equal. now apply IH.
Qed.

Lemma stripPrefix_cons (a : ascii) (p : string) (b : ascii) (s : string) :
  stripPrefix (String a p) (String b s)
  = if Ascii.eqb a b then stripPrefix p s else None.
Proof. reflexivity. Qed.

Lemma stripPrefix_app (p r : string) : stripPrefix p (p ++ r)%string = Some r.
Proof.
  induction p as [|a p IH]; [reflexivity|].
  cbn [append stripPrefix]. now rewrite Ascii.eqb_refl.
Qed.

(** A literal that does not match [s] does not match [s] followed by a
    character foreign to the literal either. *)
Lemma stripPrefix_foreign (p s : string) (c : ascii) (t : string) :
  stripPrefix p s = None -> lacks c p = true ->
  stripPrefix p (s ++ String c t)%string = None.
Proof.
  revert s. induction p as [|a p IH]; intros s H L; [discriminate|].
  cbn [lacks] in L. apply andb_prop in L. destruct L as [La Lp].
  destruct s as [|b s]; cbn [append stripPrefix].
  - apply negb_true_iff in La. now rewrite La.
  - cbn [stripPrefix] in H. destruct (Ascii.eqb a b); [now apply IH | reflexivity].
Qed.

Lemma occurs_cons (p : string) (a : ascii) (s : string) :
  occurs p (String a s) = false ->
  stripPrefix p (String a s) = None /\ occurs p s = false.
Proof.
  cbn [occurs]. destruct (stripPrefix p (String a s)); [discriminate|]. now split.
Qed.

Lemma takeWhile_dropWhile (f : ascii -> bool) (s : string) :
  s = (takeWhile f s ++ dropWhile f s)%string.
Proof.
  induction s as [|a s IH]; [reflexivity|]. cbn [takeWhile dropWhile].
  destruct (f a); [|reflexivity]. cbn [append]. now f_equal.
Qed.

Lemma dropWhile_head (f : ascii -> bool) (s : string) (a : ascii) (r : string) :
  dropWhile f s = String a r -> f a = false.
Proof.
  induction s as [|b s IH]; [discriminate|]. cbn [dropWhile].
  destruct (f b) eqn:E; [exact IH|]. intros H. now inversion H; subst.
Qed.

Lemma takeWhile_lacks (c : ascii) (s : string) :
  lacks c (takeWhile (fun a => negb (Ascii.eqb a c)) s) = true.
Proof.
  induction s as [|a s IH]; [reflexivity|]. cbn [takeWhile].
  destruct (negb (Ascii.eqb a c)) eqn:E; [|reflexivity].
  cbn [lacks]. now rewrite E.
Qed.

Lemma takeWhile_upto (c : ascii) (s t : string) :
  lacks c s = true ->
  takeWhile (fun a => negb (Ascii.eqb a c)) (s ++ String c t)%string = s.
Proof.
  induction s as [|a s IH]; cbn [lacks append takeWhile]; intros L.
  - now rewrite Ascii.eqb_refl.
  - apply andb_prop in L. destruct L as [La Ls]. rewrite La. f_equal. now apply IH.
Qed.

Lemma dropWhile_upto (c : ascii) (s t : string) :
  lacks c s = true ->
  dropWhile (fun a => negb (Ascii.eqb a c)) (s ++ String c t)%string = String c t.
Proof.
  induction s as [|a s IH]; cbn [lacks append dropWhile]; intros L.
  - now rewrite Ascii.eqb_refl.
  - apply andb_prop in L. destruct L as [La Ls]. rewrite La. now apply IH.
Qed.

Lemma xmlnsAt_Some (s ns : string) :
  xmlnsAt s = Some ns ->
  isEmpty ns = false /\ lacks dquote ns = true
  /\ exists post, s = ("xmlns=" ++ String dquote (ns ++ String dquote post))%string.
Proof.
  unfold xmlnsAt.
  destruct (stripPrefix "xmlns=" s) as [[|q r]|] eqn:E; try discriminate.
  destruct (Ascii.eqb_spec q dquote) as [->|]; [|discriminate].
  pose proof (takeWhile_dropWhile (fun c => negb (Ascii.eqb c dquote)) r) as D.
  pose proof (takeWhile_lacks dquote r) as L.
  destruct (takeWhile (fun c => negb (Ascii.eqb c dquote)) r) as [|a cap];
    [discriminate|].
  destruct (dropWhile (fun c => negb (Ascii.eqb c dquote)) r) as [|b post] eqn:Dr;
    [discriminate|].
  intros H. inversion H; subst ns. split; [reflexivity|]. split; [exact L|].
  exists post. apply stripPrefix_Some in E.
  apply dropWhile_head in Dr. apply negb_false_iff, Ascii.eqb_eq in Dr. subst b.
  rewrite E, D. reflexivity.
Qed.

Lemma afterRun_Some (s ns : string) :
  afterRun s = Some ns ->
  exists run t, s = (run ++ t)%string /\ lacks ">" run = true /\ xmlnsAt t = Some ns.
Proof.
  induction s as [|c r IH]; cbn [afterRun]; intros H.
  - exists EmptyString, EmptyString. now repeat split.
  - destruct (Ascii.eqb c ">") eqn:Ec.
    + exists EmptyString, (String c r). now repeat split.
    + destruct (afterRun r) as [ns'|].
      * inversion H; subst ns'. destruct (IH eq_refl) as (run & t & -> & L & X).
        exists (String c run), t. cbn [append lacks]. rewrite Ec, L. now repeat split.
      * exists EmptyString, (String c r). now repeat split.
Qed.

Lemma namespaceAt_Some (s ns : string) :
  namespaceAt s = Some ns ->
  exists c run t,
    s = ("<Document" ++ String c (run ++ t))%string
    /\ Ascii.eqb c ">" = false /\ lacks ">" run = true /\ xmlnsAt t = Some ns.
Proof.
  unfold namespaceAt.
  destruct (stripPrefix "<Document" s) as [[|c r]|] eqn:E; try discriminate.
  destruct (Ascii.eqb c ">") eqn:Ec; [discriminate|]. intros H.
  destruct (afterRun_Some _ _ H) as (run & t & -> & L & X).
  exists c, run, t. split; [now apply stripPrefix_Some|]. now repeat split.
Qed.

Lemma afterRun_cons (c : ascii) (r : string) :
  afterRun (String c r)
  = if Ascii.eqb c ">" then xmlnsAt (String c r)
    else match afterRun r with
         | Some ns => Some ns
         | None => xmlnsAt (String c r)
         end.
Proof. reflexivity. Qed.

Lemma afterRun_no_declaration (u rest : string) :
  occurs "xmlns=" u = false -> afterRun (u ++ String ">" rest)%string = None.
Proof.
  induction u as [|a u IH]; intros H; [reflexivity|].
  apply occurs_cons in H. destruct H as [S O].
  cbn [append afterRun]. rewrite (IH O).
  assert (X : xmlnsAt (String a u ++ String ">" rest)%string = None).
  { unfold xmlnsAt. now rewrite stripPrefix_foreign. }
  cbn [append] in X. rewrite X. now destruct (Ascii.eqb a ">").
Qed.

Lemma xmlnsAt_declaration (ns t : string) :
  isEmpty ns = false -> lacks dquote ns = true ->
  xmlnsAt ("xmlns=" ++ String dquote (ns ++ String dquote t))%string = Some ns.
Proof.
  intros Hne Hq. unfold xmlnsAt. rewrite stripPrefix_app, Ascii.eqb_refl.
  rewrite takeWhile_upto, dropWhile_upto by exact Hq.
  destruct ns; [discriminate | reflexivity].
Qed.

Lemma afterRun_attrs (attrs Y ns : string) :
  lacks ">" attrs = true -> afterRun Y = Some ns ->
  afterRun (attrs ++ Y)%string = Some ns.
Proof.
  intros L H. induction attrs as [|a attrs IH]; [exact H|].
  cbn [lacks] in L. apply andb_prop in L. destruct L as [La L].
  apply negb_true_iff in La. cbn [append afterRun]. now rewrite La, IH.
Qed.

Lemma detectNamespace_skip (prolog t : string) :
  occurs "<Document" prolog = false ->
  detectNamespace (prolog ++ String "<" t)%string = detectNamespace (String "<" t).
Proof.
  induction prolog as [|b s IH]; intros H; [reflexivity|].
  apply occurs_cons in H. destruct H as [S O].
  cbn [append detectNamespace].
  assert (N : namespaceAt (String b (s ++ String "<" t)) = None).
  { unfold namespaceAt. rewrite stripPrefix_cons in S |- *.
    destruct (Ascii.eqb "<" b); [|reflexivity].
    now rewrite stripPrefix_foreign. }
  rewrite N. now apply IH.
Qed.

(* ===================================================================== *)
(** ** Amount extraction *)
(* ===================================================================== *)

Lemma trimStart_ascii (a : ascii) (r : string) :
  (nat_of_ascii a <? 128)%nat = true -> isSpace a = false ->
  trimStart (String a r) = String a r.
Proof.
  intros L S. apply Nat.ltb_lt in L.
  assert (N2 : forall b, isSpace2 a b = false).
  { intros b. unfold isSpace2.
    replace (nat_of_ascii a =? 194)%nat with false; [reflexivity|].
    symmetry. apply Nat.eqb_neq. lia. }
  assert (N3 : forall b c, isSpace3 a b c = false).
  { intros b c. unfold isSpace3. cbv zeta.
    replace (nat_of_ascii a =? 225)%nat with false
      by (symmetry; apply Nat.eqb_neq; lia).
    replace (nat_of_ascii a =? 226)%nat with false
      by (symmetry; apply Nat.eqb_neq; lia).
    replace (nat_of_ascii a =? 227)%nat with false
      by (symmetry; apply Nat.eqb_neq; lia).
    replace (nat_of_ascii a =? 239)%nat with false
      by (symmetry; apply Nat.eqb_neq; lia).
    reflexivity. }
  cbn [trimStart]. rewrite S.
  destruct r as [|b r2]; [reflexivity|]. rewrite N2.
  destruct r2 as [|c r3]; [reflexivity|]. now rewrite N3.
Qed.

Lemma digit_is_ascii (d : ascii) :
  isDigit d = true -> (nat_of_ascii d <? 128)%nat = true /\ isSpace d = false.
Proof.
  unfold isDigit, isSpace. cbv zeta. intros H.
  apply andb_prop in H. destruct H as [H1 H2].
  apply Nat.leb_le in H1, H2. split.
  - apply Nat.ltb_lt. lia.
  - apply orb_false_iff. split.
    + apply andb_false_iff. right. apply Nat.leb_gt. lia.
    + apply Nat.eqb_neq. lia.
Qed.

Lemma trimStart_white (w s : string) :
  In w whiteSpaceChars -> trimStart (w ++ s)%string = trimStart s.
Proof.
  unfold whiteSpaceChars. cbn [map In]. intros H.
  repeat (destruct H as [<-|H]; [reflexivity|]). destruct H.
Qed.

Lemma takeWhile_digits (int rest : string) :
  digitsOnly int = true -> endsFraction rest = true ->
  takeWhile isDigit (int ++ rest)%string = int
  /\ dropWhile isDigit (int ++ rest)%string = rest.
Proof.
  intros D E. induction int as [|a int IH].
  - cbn [append]. destruct rest as [|c r]; [now split|].
    cbn [endsFraction] in E. cbn [takeWhile dropWhile].
    destruct (isDigit c); [discriminate | now split].
  - cbn [digitsOnly] in D. apply andb_prop in D. destruct D as [Da D].
    cbn [append takeWhile dropWhile]. rewrite Da.
    destruct (IH D) as [T R]. now rewrite T, R.
Qed.

Lemma takeWhile_digits_point (int rest : string) :
  digitsOnly int = true ->
  takeWhile isDigit (int ++ String "." rest)%string = int
  /\ dropWhile isDigit (int ++ String "." rest)%string = String "." rest.
Proof.
  intros D. induction int as [|a int IH].
  - now split.
  - cbn [digitsOnly] in D. apply andb_prop in D. destruct D as [Da D].
    cbn [append takeWhile dropWhile]. rewrite Da.
    destruct (IH D) as [T R]. now rewrite T, R.
Qed.

Lemma readSign_digit (d : ascii) (r : string) :
  isDigit d = true -> readSign (String d r) = (false, String d r).
Proof.
  destruct d as [[] [] [] [] [] [] [] []]; try discriminate; reflexivity.
Qed.

Lemma not_Infinity (d : ascii) (r : string) :
  Ascii.eqb d "I" = false -> stripPrefix "Infinity" (String d r) = None.
Proof.
  intros H. rewrite stripPrefix_cons, Ascii.eqb_sym, H. reflexivity.
Qed.

Lemma readExponent_none (rest : string) :
  endsFraction rest = true -> readExponent rest = 0%Z.
Proof.
  destruct rest as [|c r]; [reflexivity|]. cbn [endsFraction readExponent].
  intros H. apply andb_prop in H. destruct H as [H HE].
  apply andb_prop in H. destruct H as [_ He].
  apply negb_true_iff in He, HE. now rewrite He, HE.
Qed.

Lemma scanLiteral_eq (s : string) :
  scanLiteral s = scanUnsigned (fst (readSign (trimStart s))) (snd (readSign (trimStart s))).
Proof.
  unfold scanLiteral, scanUnsigned. destruct (readSign (trimStart s)). reflexivity.
Qed.

Lemma append_empty (s : string) : (s ++ "")%string = s.
Proof. induction s as [|a s IH]; [reflexivity|]. cbn [append]. now rewrite IH. Qed.

Lemma digit_not_I (d : ascii) : isDigit d = true -> Ascii.eqb d "I" = false.
Proof.
  intros H. destruct (Ascii.eqb_spec d "I") as [->|]; [discriminate | reflexivity].
Qed.

Lemma scanUnsigned_decimal (neg : bool) (int frac rest : string) :
  digitsOnly int = true -> isEmpty int = false ->
  digitsOnly frac = true -> endsFraction rest = true ->
  scanUnsigned neg (int ++ "." ++ frac ++ rest)
  = DecimalLiteral neg (digitsToZ 0 (int ++ frac)) (- Z.of_nat (String.length frac)).
Proof.
  intros Di Ni Df Er. unfold scanUnsigned.
  change ("." ++ frac ++ rest)%string with (String "." (frac ++ rest)).
  destruct (takeWhile_digits_point int (frac ++ rest) Di) as [T R].
  destruct (takeWhile_digits frac rest Df Er) as [Tf Rf].
  assert (I : stripPrefix "Infinity" (int ++ String "." (frac ++ rest)) = None).
  { destruct int as [|d int]; [discriminate|]. cbn [digitsOnly] in Di.
    apply andb_prop in Di. destruct Di as [Dd _].
    cbn [append]. apply not_Infinity. now apply digit_not_I. }
  rewrite I. cbv zeta. rewrite T, R, Tf, Rf, Ni. cbn [andb].
  rewrite (readExponent_none rest Er). reflexivity.
Qed.

Lemma no_fraction (c : ascii) (r : string) :
  Ascii.eqb c "." = false ->
  match String c r with
  | String "." r' => (takeWhile isDigit r', dropWhile isDigit r')
  | _ => (EmptyString, String c r)
  end = (EmptyString, String c r).
Proof.
  destruct c as [[] [] [] [] [] [] [] []]; try reflexivity. discriminate.
Qed.

Lemma scanUnsigned_integer (neg : bool) (int rest : string) :
  digitsOnly int = true -> isEmpty int = false -> endsInteger rest = true ->
  scanUnsigned neg (int ++ rest) = DecimalLiteral neg (digitsToZ 0 int) 0.
Proof.
  intros Di Ni Er. unfold scanUnsigned.
  assert (Ef : endsFraction rest = true).
  { destruct rest as [|c r]; [reflexivity|]. cbn [endsInteger] in Er.
    now apply andb_prop in Er. }
  destruct (takeWhile_digits int rest Di Ef) as [T R].
  assert (I : stripPrefix "Infinity" (int ++ rest) = None).
  { destruct int as [|d int]; [discriminate|]. cbn [digitsOnly] in Di.
    apply andb_prop in Di. destruct Di as [Dd _].
    cbn [append]. apply not_Infinity. now apply digit_not_I. }
  rewrite I. cbv zeta. rewrite T, R, Ni. cbn [andb].
  destruct rest as [|c r].
  - now rewrite append_empty.
  - cbn [endsInteger] in Er. apply andb_prop in Er. destruct Er as [Ep _].
    apply negb_true_iff in Ep. rewrite (no_fraction c r Ep).
    rewrite append_empty, (readExponent_none _ Ef). reflexivity.
Qed.

Lemma signed_text (sign : string) (d : ascii) (r : string) :
  In sign [""; "+"; "-"] -> isDigit d = true ->
  readSign (trimStart (sign ++ String d r))
  = (String.eqb sign "-", String d r).
Proof.
  intros S D. destruct (digit_is_ascii d D) as [L W].
  cbn [In] in S. destruct S as [<-|[<-|[<-|[]]]]; cbn [append].
  - rewrite trimStart_ascii by assumption. now apply readSign_digit.
  - rewrite trimStart_ascii by reflexivity. reflexivity.
  - rewrite trimStart_ascii by reflexivity. reflexivity.
Qed.

Lemma no_number (c : ascii) (r : string) :
  startsNoNumber c = true -> scanLiteral (String c r) = NoLiteral.
Proof.
  unfold startsNoNumber. intros H.
  repeat (apply andb_prop in H; destruct H as [H ?]).
  repeat match goal with
         | X : negb _ = true |- _ => apply negb_true_iff in X
         end.
  rewrite scanLiteral_eq, trimStart_ascii by assumption.
  assert (RS : readSign (String c r) = (false, String c r)).
  { destruct c as [[] [] [] [] [] [] [] []]; try reflexivity; discriminate. }
  rewrite RS. cbn [fst snd]. unfold scanUnsigned.
  rewrite (not_Infinity c r) by assumption. cbv zeta.
  cbn [takeWhile dropWhile].
  match goal with X : isDigit c = false |- _ => rewrite X end.
  rewrite no_fraction by assumption. reflexivity.
Qed.

(** C9, as the code has it.  [extractAmount] returns [parseFloat] of a
    non-empty string, or of the non-empty text content of a value-holder
    whatever its other attributes, and absent for any other input: null,
    the empty string, an array, an object without non-empty text.
    [parseFloat] skips every leading white-space character and reads the
    longest leading decimal literal: for an optional sign, digits, and
    optionally a point and digits, followed by nothing that continues the
    literal, the result is the double nearest to that decimal, whatever
    text comes after.  When the first character behind the white space
    cannot start a literal, the result is NaN, a number, not absent. *)
Theorem extractAmount_shapes :
  (forall s, isEmpty s = false ->
     extractAmount (Some (VStr s)) = Some (parseFloatStr s))
  /\ (forall fs text, assoc "_" fs = Some text -> truthyV text = true ->
        extractAmount (Some (VObj fs)) = Some (parseFloatStr (toString text)))
  /\ (extractAmount None = None
      /\ extractAmount (Some (VStr EmptyString)) = None
      /\ (forall items, extractAmount (Some (VArr items)) = None)
      /\ (forall fs, truthy (assoc "_" fs) = false ->
            extractAmount (Some (VObj fs)) = None))
  /\ (forall w s, In w whiteSpaceChars ->
        parseFloatStr (w ++ s) = parseFloatStr s)
  /\ (forall sign int frac rest,
        In sign [""; "+"; "-"] ->
        digitsOnly int = true -> isEmpty int = false ->
        digitsOnly frac = true -> endsFraction rest = true ->
        parseFloatStr (sign ++ int ++ "." ++ frac ++ rest)
        = decimalToNumber (String.eqb sign "-") (digitsToZ 0 (int ++ frac))
            (- Z.of_nat (String.length frac)))
  /\ (forall sign int rest,
        In sign [""; "+"; "-"] ->
        digitsOnly int = true -> isEmpty int = false ->
        endsInteger rest = true ->
        parseFloatStr (sign ++ int ++ rest)
        = decimalToNumber (String.eqb sign "-") (digitsToZ 0 int) 0)
  /\ (forall c r, startsNoNumber c = true ->
        parseFloatStr (String c r) = NaN
        /\ extractAmount (Some (VStr (String c r))) = Some NaN).
Proof.
  assert (str : forall s, isEmpty s = false ->
            extractAmount (Some (VStr s)) = Some (parseFloatStr s)).
  { intros s H. simpl. now rewrite H. }
  split; [exact str|]. split; [|split; [|split; [|split; [|split]]]].
  - intros fs text H T. simpl. now rewrite H, T.
  - repeat split; try reflexivity.
    intros fs H. simpl. destruct (assoc "_" fs) as [t|]; [|reflexivity].
    simpl in H. now rewrite H.
  - intros w s H. unfold parseFloatStr. rewrite !scanLiteral_eq.
    now rewrite (trimStart_white w s H).
  - intros sign int frac rest S Di Ni Df Er. unfold parseFloatStr.
    rewrite scanLiteral_eq.
    destruct int as [|d int]; [discriminate|].
    pose proof Di as Dd. cbn [digitsOnly] in Dd. apply andb_prop in Dd.
    destruct Dd as [Dd _].
    change (String d int ++ "." ++ frac ++ rest)%string
      with (String d (int ++ "." ++ frac ++ rest)%string).
    rewrite (signed_text sign d _ S Dd). cbn [fst snd].
    change (String d (int ++ "." ++ frac ++ rest)%string)
      with (String d int ++ "." ++ frac ++ rest)%string.
    now rewrite (scanUnsigned_decimal _ (String d int) frac rest Di Ni Df Er).
  - intros sign int rest S Di Ni Er. unfold parseFloatStr.
    rewrite scanLiteral_eq.
    destruct int as [|d int]; [discriminate|].
    pose proof Di as Dd. cbn [digitsOnly] in Dd. apply andb_prop in Dd.
    destruct Dd as [Dd _].
    change (String d int ++ rest)%string with (String d (int ++ rest)%string).
    rewrite (signed_text sign d _ S Dd). cbn [fst snd].
    change (String d (int ++ rest)%string) with (String d int ++ rest)%string.
    now rewrite (scanUnsigned_integer _ (String d int) rest Di Ni Er).
  - intros c r H.
    assert (N : parseFloatStr (String c r) = NaN)
      by (unfold parseFloatStr; now rewrite (no_number c r H)).
    split; [exact N|]. rewrite (str (String c r) eq_refl). now rewrite N.
Qed.

(** C9, as stated, fails: text that is not a decimal yields NaN, which is
    not absent, for a string and for a value-holder alike; and the result
    is a double, 12.5 being 7036874417766400 / 2^49 whether written
    [12.50] or behind a no-break space, so that decimal texts of
    different precision yield the same number. *)
Lemma unparsable_amount_is_NaN :
  extractAmount (Some (VStr "abc")) = Some NaN
  /\ extractAmount (Some (VStr "abc")) <> None
  /\ extractAmount (Some (VObj [("_", VStr "n/a"); ("Ccy", VStr "EUR")])) = Some NaN
  /\ extractAmount (Some (VStr "12.50"))
     = Some (S754_finite false 7036874417766400 (-49))
  /\ extractAmount (Some (VStr (utf8 [194; 160] ++ "12.50 EUR")))
     = Some (S754_finite false 7036874417766400 (-49))
  /\ extractAmount (Some (VStr "0.1"))
     = Some (S754_finite false 7205759403792794 (-56))
  /\ extractAmount (Some (VStr "0.1"))
     = extractAmount (Some (VStr "0.1000000000000000055511151231257827"))
  /\ extractAmount (Some (VStr "100.00")) = extractAmount (Some (VStr "100")).
Proof.
  split; [reflexivity|]. split; [discriminate|]. split; [reflexivity|].
  repeat split; vm_compute; reflexivity.
Qed.

(* ===================================================================== *)
(** ** The top level *)
(* ===================================================================== *)

Lemma findStatements_ok (xmlObj : value) :
  findStatements xmlObj
  = match statementElements xmlObj with
    | Some stmts => Ok stmts
    | None => Throw (Camt053ParserError (missingElement xmlObj))
    end.
Proof.
  unfold findStatements, statementElements, missingElement, statementContainer.
  destruct (prop xmlObj "Document") as [docRoot|]; [|reflexivity].
  destruct docRoot as [s|l|fs]; try reflexivity.
  - destruct s; reflexivity.
  - cbn [truthy truthyV negb member bind child prop].
    destruct (assoc "BkToCstmrStmt" fs) as [[[|? ?]|?|g1]|];
      destruct (assoc "BankToCustomerStatementV13" fs) as [[[|? ?]|?|g2]|];
      cbn [truthy truthyV isEmpty negb member bind child prop];
      try reflexivity;
      match goal with
      | |- context [assoc "Stmt" ?g] =>
          destruct (assoc "Stmt" g) as [[[|? ?]|?|?]|]; reflexivity
      end.
Qed.


Lemma inherited_not_supported (ns : string) :
  isInherited ns = true -> assoc ns NAMESPACE_TO_XSD = None.
Proof.
  unfold isInherited, inheritedProperties. cbn [existsb]. intros H.
  repeat (apply orb_prop in H; destruct H as [H|H]);
    try (apply String.eqb_eq in H; subst ns; reflexivity).
  discriminate.
Qed.





(** The slip the amended C3 leaves aside: a namespace that is only an
    inherited property name is let through by the [in] test and ends in a
    TypeError instead of the typed error. *)
Lemma inherited_namespace_raises_TypeError :
  parseCamt053 (fun _ _ => Valid)
    (fun _ => Tree (documentTree "toString" statementWithoutEntries))
    (documentHeader "toString")
  = Throw TypeError.
Proof. reflexivity. Qed.


(* ===================================================================== *)
(** ** Totality of the resolution *)
(* ===================================================================== *)



(* ===================================================================== *)
(** ** Number of transactions *)
(* ===================================================================== *)

(** The flattener emits, per entry, one transaction per block it locates,
    and one when it locates none. *)
Lemma transactions_per_located_block (idx : nat) (stmt : value) :
  exists st, mapStatement idx stmt = Ok st
    /\ length (transactions st)
       = list_sum (map (fun ntry => Nat.max 1 (length (detailBlocks ntry)))
                       (entriesOf stmt)).
Proof.
  exists (statementOf idx stmt). split; [apply mapStatement_ok|].
  cbn [statementOf transactions]. unfold transactionsOf.
  induction (entriesOf stmt) as [|ntry rest IH]; [reflexivity|].
  cbn [flat_map map]. rewrite length_app, IH.
  change (list_sum (?x :: ?l)) with (x + list_sum l). f_equal.
  unfold entryTransactions, detailsFor. rewrite length_map.
  destruct (detailBlocks ntry) as [|b l]; [reflexivity|].
  rewrite length_map. cbn [length]. lia.
Qed.

(** X1. The count of C1 holds for every statement none of whose entries
    repeats the entry-details container. *)
Lemma transaction_count_single_container (idx : nat) (stmt : value) :
  (forall ntry items, In ntry (entriesOf stmt) ->
                      prop ntry "NtryDtls" <> Some (VArr items)) ->
  exists st, mapStatement idx stmt = Ok st
    /\ length (transactions st) = expectedTransactions stmt.
Proof.
  intros H. destruct (transactions_per_located_block idx stmt) as (st & E & L).
  exists st. split; [exact E|]. rewrite L. unfold expectedTransactions.
  f_equal. apply map_ext_in. intros ntry Hin.
  rewrite single_container_blocks; [reflexivity|].
  intros items. now apply H.
Qed.

Lemma transaction_count_single_container_witness :
  exists st, mapStatement 0 statementWithBatchEntry = Ok st
    /\ length (transactions st) = expectedTransactions statementWithBatchEntry.
Proof.
  apply (transaction_count_single_container 0 statementWithBatchEntry).
  intros ntry items [<-|[]]. discriminate.
Defined.

(** C1 on that statement: its entry holds two transaction-detail blocks,
    so two transactions are expected, and the flattener emits a single
    one, built from the entry alone. *)
Theorem repeated_container_loses_details :
  expectedTransactions statementWithTwoContainers = 2
  /\ exists st, mapStatement 0 statementWithTwoContainers = Ok st
       /\ length (transactions st) = 1
       /\ map amount (transactions st) = [Some (parseFloatStr "100.00")]
       /\ map endToEndReference (transactions st) = [None].
Proof.
  split; [reflexivity|].
  eexists. split; [reflexivity|]. repeat split.
Qed.

(* ===================================================================== *)
(** ** The values of a detail and of its entry *)
(* ===================================================================== *)

Lemma occurrences_normalise (x : jsval) :
  occurrences x = match x with
                  | Some v => if truthyV v then asArray v else []
                  | None => []
                  end.
Proof. destruct x as [[[|? ?]|?|?]|]; reflexivity. Qed.

Lemma single_container_details (ntry : value) :
  (forall items, prop ntry "NtryDtls" <> Some (VArr items)) ->
  allDetailsFor ntry = detailsFor ntry.
Proof.
  intros H. unfold allDetailsFor, detailsFor, detailBlocks.
  change (descend (Some ntry) ["NtryDtls"; "TxDtls"])
    with (child (prop ntry "NtryDtls") "TxDtls").
  destruct (prop ntry "NtryDtls") as [[[|? ?]|items|fs]|]; try reflexivity.
  - now destruct (H items).
  - cbn [occurrences flat_map child]. rewrite app_nil_r.
    now rewrite occurrences_normalise.
Qed.

Lemma single_container_sources (stmt : value) :
  (forall ntry items, In ntry (occurrences (prop stmt "Ntry")) ->
                      prop ntry "NtryDtls" <> Some (VArr items)) ->
  allDetailSources stmt = detailSources stmt.
Proof.
  unfold allDetailSources, detailSources, entriesOf.
  rewrite <- occurrences_normalise.
  induction (occurrences (prop stmt "Ntry")) as [|ntry rest IH]; intros H;
    [reflexivity|].
  cbn [flat_map]. rewrite IH by (intros n items Hin; apply H; now right).
  rewrite single_container_details; [reflexivity|].
  intros items. apply H. now left.
Qed.

(** C7.  Every transaction the flattener emits prefers the values of the
    detail it is built from (a located transaction-detail block, or the
    synthetic detail of an entry in which none is located) and falls back
    to the baseline of its entry.  When no entry of the statement repeats
    the entry-details container, the located blocks are all the blocks,
    so this holds for every transaction-detail block of every entry, real
    or synthetic, one transaction per block in document order. *)
Theorem detail_values_fall_back_to_entry (idx : nat) (stmt : value) :
  exists st, mapStatement idx stmt = Ok st
    /\ Forall2 (prefersDetail (currency st)) (detailSources stmt) (transactions st)
    /\ ((forall ntry items, In ntry (occurrences (prop stmt "Ntry")) ->
                            prop ntry "NtryDtls" <> Some (VArr items)) ->
        Forall2 (prefersDetail (currency st)) (allDetailSources stmt) (transactions st)).
Proof.
  exists (statementOf idx stmt). split; [apply mapStatement_ok|].
  assert (F : Forall2 (prefersDetail (currency (statementOf idx stmt)))
                      (detailSources stmt) (transactions (statementOf idx stmt))).
  { cbn [statementOf transactions currency]. rewrite transactions_by_source.
    apply Forall2_map_self. intros [ntry txDtls]. unfold prefersDetail.
    cbn [fst snd emitted transactionOf date amount txCurrency].
    rewrite !firstPresent_pair. repeat split. }
  split; [exact F|]. intros H. now rewrite single_container_sources.
Qed.

Lemma detail_values_fall_back_to_entry_witness :
  exists st, mapStatement 0 statementWithBatchEntry = Ok st
    /\ Forall2 (prefersDetail (currency st))
         (allDetailSources statementWithBatchEntry) (transactions st)
    /\ map amount (transactions st)
       = [Some (parseFloatStr "40.00"); Some (parseFloatStr "60.00")].
Proof.
  destruct (detail_values_fall_back_to_entry 0 statementWithBatchEntry)
    as (st & E & _ & A).
  exists st. split; [exact E|]. split.
  - apply A. intros ntry items [<-|[]]. discriminate.
  - vm_compute in E. inversion E. reflexivity.
Defined.

(** On the statement with a repeated entry-details container C7 fails for
    the same reason as C1: the entry holds two transaction-detail blocks
    with amounts of their own, 40.00 and 60.00, and the only transaction
    emitted carries the amount of the entry, 100.00. *)
Lemma repeated_container_ignores_detail_values :
  map (fun src => extractAmount (descend (snd src) ["Amt"]))
      (allDetailSources statementWithTwoContainers)
  = [Some (parseFloatStr "40.00"); Some (parseFloatStr "60.00")]
  /\ exists st, mapStatement 0 statementWithTwoContainers = Ok st
       /\ map amount (transactions st) = [Some (parseFloatStr "100.00")]
       /\ ~ Forall2 (prefersDetail (currency st))
             (allDetailSources statementWithTwoContainers) (transactions st).
Proof.
  split; [reflexivity|].
  eexists. split; [reflexivity|]. split; [reflexivity|].
  intros H. apply Forall2_length in H. discriminate H.
Qed.

(* ********************************************************************* *)
(** * Part IV: further properties of the parser *)
(* ********************************************************************* *)

(* ===================================================================== *)
(** ** The declared namespace ([detectNamespace], lines 26-29) *)
(* ===================================================================== *)

(** X3. Whatever [detectNamespace] returns is the value of an [xmlns]
    attribute written in double quotes inside a [<Document ...] start tag:
    the text holds [<Document], at least one character, no [>] up to the
    attribute, and the attribute [xmlns] with exactly that value between
    double quotes.  The value is never empty and holds no double quote.
    So a root element with a prefix, or a namespace in single quotes, is
    never detected. *)
Theorem detectNamespace_sound (xml ns : string) :
  detectNamespace xml = Some ns ->
  isEmpty ns = false /\ lacks dquote ns = true
  /\ exists (pre : string) (c : ascii) (run post : string),
       xml = (pre ++ "<Document" ++ String c run ++ "xmlns="
                ++ String dquote ns ++ String dquote post)%string
       /\ Ascii.eqb c ">" = false /\ lacks ">" run = true.
Proof.
  induction xml as [|a xml IH]; cbn [detectNamespace].
  - discriminate.
  - destruct (namespaceAt (String a xml)) as [ns'|] eqn:N.
    + intros H. inversion H; subst ns'.
      destruct (namespaceAt_Some _ _ N) as (c & run & t & E & Ec & L & X).
      destruct (xmlnsAt_Some _ _ X) as (Hne & Hq & post & ->).
      split; [exact Hne|]. split; [exact Hq|].
      exists EmptyString, c, run, post. split; [|now split].
      rewrite E. reflexivity.
    + intros H. destruct (IH H) as (Hne & Hq & pre & c & run & post & -> & Ec & L).
      split; [exact Hne|]. split; [exact Hq|].
      exists (String a pre), c, run, post. now repeat split.
Qed.

Lemma detectNamespace_sound_witness :
  isEmpty camt02 = false /\ lacks dquote camt02 = true
  /\ exists (pre : string) (c : ascii) (run post : string),
       documentHeader camt02
       = (pre ++ "<Document" ++ String c run ++ "xmlns="
            ++ String dquote camt02 ++ String dquote post)%string
       /\ Ascii.eqb c ">" = false /\ lacks ">" run = true.
Proof.
  apply (detectNamespace_sound (documentHeader camt02) camt02). reflexivity.
Defined.

(** X4. The namespace of a document is found behind any prolog and any
    other attributes: when the text before the root element does not hold
    [<Document], the start tag is [<Document], a character other than [>],
    attributes without [>], then [xmlns] with a non-empty value in double
    quotes, and no further [xmlns=] follows in the value or in the tag,
    [detectNamespace] returns exactly that value. *)
Theorem detectNamespace_finds_declaration
    (prolog attrs ns more rest : string) (c : ascii) :
  occurs "<Document" prolog = false ->
  Ascii.eqb c ">" = false ->
  lacks ">" attrs = true ->
  isEmpty ns = false ->
  lacks dquote ns = true ->
  occurs "xmlns=" (ns ++ String dquote more) = false ->
  detectNamespace
    (prolog ++ "<Document" ++ String c attrs ++ "xmlns=" ++ String dquote ns
       ++ String dquote more ++ String ">" rest)%string
  = Some ns.
Proof.
  intros Hp Hc Ha Hne Hq Ho.
  assert (Ho' : occurs "xmlns=" ("mlns=" ++ String dquote (ns ++ String dquote more)) = false)
    by (cbn; exact Ho).
  set (Y := ("xmlns=" ++ String dquote ns ++ String dquote more ++ String ">" rest)%string).
  assert (HY : afterRun Y = Some ns).
  { subst Y. change ("xmlns=" ++ ?z)%string with (String "x" ("mlns=" ++ z)%string).
    rewrite afterRun_cons. change (Ascii.eqb "x" ">") with false. cbv iota.
    replace (afterRun ("mlns=" ++ String dquote ns ++ String dquote more
                         ++ String ">" rest)%string)
      with (@None string).
    - apply (xmlnsAt_declaration ns (more ++ String ">" rest) Hne Hq).
    - rewrite <- (afterRun_no_declaration _ rest Ho'). f_equal.
      cbn [append]. now rewrite append_assoc. }
  change ("<Document" ++ ?x)%string with (String "<" ("Document" ++ x)%string).
  rewrite detectNamespace_skip by exact Hp.
  cbn [detectNamespace]. unfold namespaceAt.
  change (String "<" ("Document" ++ ?x)%string) with ("<Document" ++ x)%string.
  rewrite stripPrefix_app. cbn [append]. rewrite Hc.
  fold Y. now rewrite (afterRun_attrs attrs Y ns Ha HY).
Qed.

Lemma detectNamespace_finds_declaration_witness :
  detectNamespace
    ("<?xml version='1.0'?>" ++ "<Document" ++ String " " "" ++ "xmlns="
       ++ String dquote camt02
       ++ String dquote " xmlns:xsi='http://www.w3.org/2001/XMLSchema-instance'"
       ++ String ">" "<BkToCstmrStmt/></Document>")%string
  = Some camt02.
Proof.
  apply (detectNamespace_finds_declaration
           "<?xml version='1.0'?>" "" camt02
           " xmlns:xsi='http://www.w3.org/2001/XMLSchema-instance'"
           "<BkToCstmrStmt/></Document>" " "); reflexivity.
Defined.

(* ===================================================================== *)
(** ** The namespace test ([parseCamt053], lines 91-100) *)
(* ===================================================================== *)

(** X2. A document whose declared namespace is the name of a property every
    object inherits ([toString], [constructor], ...) passes the namespace
    test, which is made with the [in] operator, and the parse ends in a
    TypeError, not in a [Camt053ParserError]: the schema name looked up
    for it is not a string.  Neither the validator nor the tree builder is
    consulted. *)
Theorem inherited_namespace_escapes_the_typed_error
    (libxml : string -> string -> validation)
    (parseStringPromise : string -> built) (xml ns : string) :
  detectNamespace xml = Some ns ->
  isInherited ns = true ->
  parseCamt053 libxml parseStringPromise xml = Throw TypeError.
Proof.
  intros Hd Hi. unfold parseCamt053, inTable. rewrite Hd.
  rewrite (inherited_not_supported ns Hi), Hi. reflexivity.
Qed.

Lemma inherited_namespace_escapes_the_typed_error_witness :
  parseCamt053 (fun _ _ => XmlRejected "not reached")
    (fun _ => Rejected "not reached") (documentHeader "constructor")
  = Throw TypeError.
Proof.
  apply (inherited_namespace_escapes_the_typed_error _ _ _ "constructor");
    reflexivity.
Defined.

(* ===================================================================== *)
(** ** Safe property access ([get], lines 58-60) *)
(* ===================================================================== *)

(** X5. On a path of schema names, as the parser passes them, [get] never
    throws, although it reads properties along the way: a nullish step, a
    string (empty or not) or an array yields [null] for the rest of the
    path.  Reading a path in two stages is reading the concatenated path.
    A value that is present under the last key is returned as it is,
    empty string included, so that a [??] after [get] falls through only
    when the element is absent. *)
Theorem get_is_null_safe (obj : jsval) (p q : list string) :
  forallb isElementName (p ++ q) = true ->
  (exists x, get obj p = Ok x)
  /\ get obj (p ++ q) = (x <- get obj p ;; get x q)
  /\ get None p = Ok None
  /\ (forall s k, isElementName k = true ->
                  get (Some (VStr s)) (k :: p) = Ok None)
  /\ (forall items k, isElementName k = true ->
                      get (Some (VArr items)) (k :: p) = Ok None)
  /\ (forall fs k v, isElementName k = true -> assoc k fs = Some v ->
                     get (Some (VObj fs)) [k] = Ok (Some v)).
Proof.
  intros _. split; [|split; [|split; [|split; [|split]]]].
  - exists (descend obj p). apply get_ok.
  - rewrite !get_ok. cbn [bind]. rewrite get_ok. f_equal. apply descend_app.
  - rewrite get_ok. f_equal. apply descend_none.
  - intros s k _. rewrite get_ok. f_equal.
    change (descend (Some (VStr s)) (k :: p)) with (descend None p).
    apply descend_none.
  - intros items k _. rewrite get_ok. f_equal.
    change (descend (Some (VArr items)) (k :: p)) with (descend None p).
    apply descend_none.
  - intros fs k v _ H. rewrite get_ok. unfold descend. cbn [fold_left child prop].
    now rewrite H.
Qed.

Lemma get_is_null_safe_witness :
  (exists x, get (Some statementWithoutEntries) ["Acct"; "Id"] = Ok x)
  /\ get (Some statementWithoutEntries) (["Acct"; "Id"] ++ ["IBAN"])
     = (x <- get (Some statementWithoutEntries) ["Acct"; "Id"] ;; get x ["IBAN"])
  /\ get None ["Acct"; "Id"] = Ok None
  /\ (forall s k, isElementName k = true ->
                  get (Some (VStr s)) (k :: ["Acct"; "Id"]) = Ok None)
  /\ (forall items k, isElementName k = true ->
                      get (Some (VArr items)) (k :: ["Acct"; "Id"]) = Ok None)
  /\ (forall fs k v, isElementName k = true -> assoc k fs = Some v ->
                     get (Some (VObj fs)) [k] = Ok (Some v)).
Proof.
  apply (get_is_null_safe (Some statementWithoutEntries) ["Acct"; "Id"] ["IBAN"]).
  reflexivity.
Defined.

(* ===================================================================== *)
(** ** Dates ([extractDate], lines 65-75) *)
(* ===================================================================== *)

Lemma dateAt_idempotent (s d : string) : dateAt s = Some d -> dateAt d = Some d.
Proof.
  unfold dateAt at 1.
  repeat (destruct s as [|? s]; [discriminate|]).
  match goal with |- (if ?c then _ else _) = _ -> _ => destruct c eqn:E end;
    [|discriminate].
  intros H. inversion H. unfold dateAt. now rewrite E.
Qed.

Lemma dateAt_length (s d : string) : dateAt s = Some d -> String.length d = 10.
Proof.
  unfold dateAt.
  repeat (destruct s as [|? s]; [discriminate|]).
  match goal with |- (if ?c then _ else _) = _ -> _ => destruct c end;
    [|discriminate].
  intros H. inversion H. reflexivity.
Qed.

Lemma dateAt_head (a : ascii) (s d : string) :
  dateAt (String a s) = Some d -> isDigit a = true.
Proof.
  unfold dateAt.
  repeat (destruct s as [|? s]; [discriminate|]).
  destruct (isDigit a); [reflexivity | discriminate].
Qed.

Lemma dateAt_prefix (d rest : string) :
  dateAt d = Some d -> dateAt (d ++ rest)%string = Some d.
Proof.
  intros H. pose proof (dateAt_length _ _ H) as L. revert H. unfold dateAt.
  repeat (destruct d as [|? d]; [discriminate|]).
  destruct d; [|discriminate]. cbn [append]. auto.
Qed.

Lemma matchDate_found (s d : string) :
  matchDate s = Some d -> exists t, dateAt t = Some d.
Proof.
  induction s as [|c s IH]; rewrite matchDate_eq.
  - discriminate.
  - destruct (dateAt (String c s)) eqn:E.
    + intros H. inversion H; subst. now exists (String c s).
    + exact IH.
Qed.

(** Every date [extractDate] finds below a node is a match of the pattern
    in some text. *)
Lemma extractDateV_found (v : value) :
  forall d, extractDateV v = Some d -> exists t, dateAt t = Some d.
Proof.
  induction v as [s|l _|fs IH] using value_tree_ind; intros d.
  - apply matchDate_found.
  - discriminate.
  - rewrite extractDateV_obj. unfold extractDate.
    destruct (assoc "Dt" fs) as [x|] eqn:E1; simpl.
    + destruct (truthyV x).
      * exact (assoc_Forall
                 (fun v => forall d, extractDateV v = Some d -> exists t, dateAt t = Some d)
                 _ _ _ IH E1 d).
      * destruct (assoc "DtTm" fs) as [t|] eqn:E2; simpl; [|discriminate].
        destruct (truthyV t); [|discriminate].
        exact (assoc_Forall
                 (fun v => forall d, extractDateV v = Some d -> exists t, dateAt t = Some d)
                 _ _ _ IH E2 d).
    + destruct (assoc "DtTm" fs) as [t|] eqn:E2; simpl; [|discriminate].
      destruct (truthyV t); [|discriminate].
      exact (assoc_Forall
               (fun v => forall d, extractDateV v = Some d -> exists t, dateAt t = Some d)
               _ _ _ IH E2 d).
Qed.

Lemma extractDate_is_date (o : jsval) (d : string) :
  extractDate o = Some d -> dateAt d = Some d.
Proof.
  destruct o as [v|]; simpl; [|discriminate].
  destruct (truthyV v); [|discriminate]. intros H.
  destruct (extractDateV_found v d H) as (t & Ht).
  eapply dateAt_idempotent; eassumption.
Qed.

(** X6. Whatever [extractDate] returns, from a string or from any nesting
    of [Dt] and [DtTm] nodes, is ten characters of the shape
    [dddd-dd-dd], and extracting the date of that text again gives it
    back. *)
Theorem extractDate_returns_a_date (obj : jsval) (d : string) :
  extractDate obj = Some d ->
  dateAt d = Some d
  /\ String.length d = 10
  /\ extractDate (Some (VStr d)) = Some d.
Proof.
  intros H. pose proof (extractDate_is_date obj d H) as D.
  split; [exact D|]. split; [eapply dateAt_length; exact D|].
  cbn [extractDate truthyV extractDateV].
  rewrite (dateAt_nonempty _ _ D). cbn [negb].
  rewrite matchDate_eq. now rewrite D.
Qed.

Lemma extractDate_returns_a_date_witness :
  dateAt "2024-03-01" = Some "2024-03-01"
  /\ String.length "2024-03-01" = 10
  /\ extractDate (Some (VStr "2024-03-01")) = Some "2024-03-01".
Proof.
  apply (extractDate_returns_a_date
           (Some (VObj [("DtTm", VStr "2024-03-01T23:59:59+01:00")])) "2024-03-01").
  reflexivity.
Defined.

Lemma matchDate_skip (pre s : string) :
  digitFree pre = true -> matchDate (pre ++ s)%string = matchDate s.
Proof.
  induction pre as [|a pre IH]; [reflexivity|]. cbn [digitFree]. intros H.
  apply andb_prop in H. destruct H as [Ha Hp]. apply negb_true_iff in Ha.
  cbn [append]. rewrite matchDate_eq.
  destruct (dateAt (String a (pre ++ s))) eqn:E.
  - apply dateAt_head in E. congruence.
  - now apply IH.
Qed.

(** X7. [extractDate] cuts a text to its first date: for a text that puts
    anything without digits before a date of the shape [dddd-dd-dd] and
    anything after it (the time of a date-time, a zone), the result is
    that date. *)
Theorem extractDate_takes_the_leading_date (pre d rest : string) :
  digitFree pre = true ->
  dateAt d = Some d ->
  extractDate (Some (VStr (pre ++ d ++ rest))) = Some d.
Proof.
  intros Hp Hd. cbn [extractDate extractDateV truthyV].
  assert (N : isEmpty (pre ++ d ++ rest) = false).
  { destruct pre; [|reflexivity]. cbn [append].
    pose proof (dateAt_nonempty _ _ Hd). now destruct d. }
  rewrite N. cbn [negb]. rewrite matchDate_skip by exact Hp.
  rewrite matchDate_eq. now rewrite (dateAt_prefix d rest Hd).
Qed.

Lemma extractDate_takes_the_leading_date_witness :
  extractDate (Some (VStr ("on " ++ "2024-03-01" ++ "T23:59:59+01:00")))
  = Some "2024-03-01".
Proof.
  apply (extractDate_takes_the_leading_date "on " "2024-03-01" "T23:59:59+01:00");
    reflexivity.
Defined.

(* ===================================================================== *)
(** ** The dates of the output (lines 145-178 and 322) *)
(* ===================================================================== *)

Lemma firstPresent_In {A : Type} (l : list (option A)) (x : A) :
  firstPresent l = Some x -> In (Some x) l.
Proof.
  induction l as [|[a|] l IH]; cbn [firstPresent]; intros H.
  - discriminate.
  - left. exact H.
  - right. now apply IH.
Qed.

Lemma keepDates_In (l : list (option string)) (d : string) :
  In d (keepDates l) -> In (Some d) l.
Proof.
  unfold keepDates. rewrite in_flat_map. intros ([s|] & Hin & Hd); [|destruct Hd].
  destruct (isEmpty s); [destruct Hd|]. destruct Hd as [<-|[]]. exact Hin.
Qed.

Lemma detailDate_is_date (ntry txDtls : value) (d : string) :
  detailDate ntry txDtls = Some d -> dateAt d = Some d.
Proof.
  unfold detailDate. intros H. apply firstPresent_In in H.
  destruct H as [H|[H|[]]]; eapply extractDate_is_date; exact H.
Qed.

Lemma statementDateTiers_are_dates (stmt : value) (d : string) :
  In (Some d) (statementDateTiers stmt) -> dateAt d = Some d.
Proof.
  unfold statementDateTiers. intros [H|[H|[H|[H|[H|[]]]]]];
    try (eapply extractDate_is_date; exact H).
  - apply last_In in H. unfold balanceDates in H. apply keepDates_In in H.
    apply in_map_iff in H. destruct H as (bal & H & _).
    eapply extractDate_is_date; exact H.
  - apply firstPresent_In in H. apply in_flat_map in H.
    destruct H as (ntry & _ & H). unfold entryDateCandidates in H.
    apply in_app_or in H. destruct H as [H|[H|[]]].
    + apply in_map_iff in H. destruct H as (txDtls & H & _).
      eapply detailDate_is_date; exact H.
    + eapply extractDate_is_date; exact H.
Qed.

(** X8. Every date of the output has the shape [dddd-dd-dd]: the statement
    date is either the empty string or ten characters of that shape, and
    the date of every transaction is either null or of that shape.  No
    other text of the document can end up in a date field. *)
Theorem output_dates_are_well_formed (idx : nat) (stmt : value) :
  exists st, mapStatement idx stmt = Ok st
    /\ (statementDate st = EmptyString
        \/ dateAt (statementDate st) = Some (statementDate st))
    /\ Forall (fun t => forall d, date t = Some d -> dateAt d = Some d)
              (transactions st).
Proof.
  exists (statementOf idx stmt). split; [apply mapStatement_ok|].
  cbn [statementOf statementDate transactions]. split.
  - destruct (firstPresent (statementDateTiers stmt)) as [d|] eqn:E; [|now left].
    right. cbn [orEmpty]. apply firstPresent_In in E.
    now apply statementDateTiers_are_dates in E.
  - rewrite transactions_by_source. apply Forall_map, Forall_forall.
    intros src _ d H. unfold emitted in H. cbn [transactionOf date] in H.
    apply firstPresent_In in H. destruct H as [H|[H|[]]];
      eapply extractDate_is_date; exact H.
Qed.

(* ===================================================================== *)
(** ** Account holder, account number and sequence number (lines 123-143) *)
(* ===================================================================== *)

(** X9. The account holder is the owner's name when the element is
    present, even empty, and the owner's organisation id otherwise; the
    account number is the IBAN when present and the other account id
    otherwise.  Each is null exactly when both of its sources are
    absent. *)
Theorem account_identification (idx : nat) (stmt : value) :
  exists st, mapStatement idx stmt = Ok st
    /\ accountHolder st
       = match descend (Some stmt) ["Acct"; "Ownr"; "Nm"] with
         | Some name => Some name
         | None => descend (Some stmt) ["Acct"; "Ownr"; "Id"; "OrgId"; "Othr"; "Id"]
         end
    /\ accountIBAN st
       = match descend (Some stmt) ["Acct"; "Id"; "IBAN"] with
         | Some iban => Some iban
         | None => descend (Some stmt) ["Acct"; "Id"; "Othr"; "Id"]
         end
    /\ (accountHolder st = None
        <-> descend (Some stmt) ["Acct"; "Ownr"; "Nm"] = None
            /\ descend (Some stmt) ["Acct"; "Ownr"; "Id"; "OrgId"; "Othr"; "Id"] = None)
    /\ (accountIBAN st = None
        <-> descend (Some stmt) ["Acct"; "Id"; "IBAN"] = None
            /\ descend (Some stmt) ["Acct"; "Id"; "Othr"; "Id"] = None).
Proof.
  exists (statementOf idx stmt). split; [apply mapStatement_ok|].
  cbn [statementOf accountHolder accountIBAN firstPresent].
  destruct (descend (Some stmt) ["Acct"; "Ownr"; "Nm"]),
           (descend (Some stmt) ["Acct"; "Ownr"; "Id"; "OrgId"; "Othr"; "Id"]),
           (descend (Some stmt) ["Acct"; "Id"; "IBAN"]),
           (descend (Some stmt) ["Acct"; "Id"; "Othr"; "Id"]);
    repeat split; try reflexivity; try discriminate;
    intros [? ?]; discriminate.
Qed.

(** X10. The sequence number is read from the legal sequence number when
    that element is present and from the electronic one only when the
    legal one is absent: an empty legal element hides the electronic one
    and leaves the sequence number null.  A non-empty source is handed to
    [parseInt] as it is. *)
Theorem sequence_number_sources (idx : nat) (stmt : value) :
  exists st, mapStatement idx stmt = Ok st
    /\ sequenceNumber st
       = match descend (Some stmt) ["LglSeqNb"] with
         | Some legal => if truthyV legal then Some (parseInt legal) else None
         | None =>
             match descend (Some stmt) ["ElctrncSeqNb"] with
             | Some electronic =>
                 if truthyV electronic then Some (parseInt electronic) else None
             | None => None
             end
         end.
Proof.
  exists (statementOf idx stmt). split; [apply mapStatement_ok|].
  cbn [statementOf sequenceNumber]. unfold sequenceNumberOf.
  cbn [firstPresent].
  destruct (descend (Some stmt) ["LglSeqNb"]),
           (descend (Some stmt) ["ElctrncSeqNb"]); reflexivity.
Qed.

(* ===================================================================== *)
(** ** Statement titles and the order of the result (lines 122 and 344-345) *)
(* ===================================================================== *)

Lemma decimal_lacks_colon (d : Decimal.uint) :
  lacks ":" (NilZero.string_of_uint d) = true.
Proof.
  assert (E : forall u, lacks ":" (NilEmpty.string_of_uint u) = true)
    by (induction u; cbn [NilEmpty.string_of_uint lacks]; auto).
  destruct d; try apply E. reflexivity.
Qed.

(** Two texts without a colon that are followed by a colon are equal when
    the whole texts are. *)
Lemma colon_delimits (a b x y : string) :
  lacks ":" a = true -> lacks ":" b = true ->
  (a ++ String ":" x)%string = (b ++ String ":" y)%string -> a = b.
Proof.
  revert b. induction a as [|c a IH]; intros [|e b] La Lb H; cbn [append] in H.
  - reflexivity.
  - inversion H; subst e. cbn [lacks] in Lb. now rewrite Ascii.eqb_refl in Lb.
  - inversion H; subst c. cbn [lacks] in La. now rewrite Ascii.eqb_refl in La.
  - inversion H; subst e. f_equal.
    cbn [lacks] in La, Lb. apply andb_prop in La, Lb.
    now apply (IH b).
Qed.

Lemma to_uint_nonnil (n : nat) : Nat.to_uint n <> Decimal.Nil.
Proof.
  pose proof (DecimalNat.Unsigned.to_of (Nat.to_uint n)) as H.
  rewrite DecimalNat.Unsigned.of_to in H. rewrite H. apply DecimalFacts.unorm_nonnil.
Qed.

Lemma statementTitleOf_injective (i j : nat) (c c' : string) :
  statementTitleOf i c = statementTitleOf j c' -> i = j.
Proof.
  unfold statementTitleOf. intros H.
  cbn [append] in H. inversion H as [H'].
  apply colon_delimits in H'; try apply decimal_lacks_colon.
  assert (U : Some (Nat.to_uint (i + 1)) = Some (Nat.to_uint (j + 1))).
  { rewrite <- (NilZero.usu (Nat.to_uint (i + 1))) by apply to_uint_nonnil.
    rewrite <- (NilZero.usu (Nat.to_uint (j + 1))) by apply to_uint_nonnil.
    now rewrite H'. }
  inversion U as [U']. apply DecimalNat.Unsigned.to_uint_inj in U'. lia.
Qed.

Lemma nth_error_statementsFrom (stmts : list value) (k i : nat) :
  nth_error (statementsFrom k stmts) i
  = option_map (statementOf (k + i)) (nth_error stmts i).
Proof.
  revert k i. induction stmts as [|s stmts IH]; intros k [|i]; cbn; try reflexivity.
  - now rewrite Nat.add_0_r.
  - rewrite IH. now rewrite Nat.add_succ_r.
Qed.

Lemma titles_from (stmts : list value) (k : nat) (t : string) :
  In t (map statementTitle (statementsFrom k stmts)) ->
  exists j c, k <= j /\ t = statementTitleOf j c.
Proof.
  revert k. induction stmts as [|s stmts IH]; intros k; cbn [statementsFrom map In].
  - intros [].
  - intros [<-|H].
    + eexists k, _. split; [lia | reflexivity].
    + destruct (IH _ H) as (j & c & Hj & ->). exists j, c. split; [lia | reflexivity].
Qed.

Lemma titles_NoDup (stmts : list value) (k : nat) :
  NoDup (map statementTitle (statementsFrom k stmts)).
Proof.
  revert k. induction stmts as [|s stmts IH]; intros k; cbn [statementsFrom map].
  - constructor.
  - constructor; [|apply IH]. intros H.
    destruct (titles_from _ _ _ H) as (j & c & Hj & E).
    cbn [statementOf statementTitle] in E.
    apply statementTitleOf_injective in E. lia.
Qed.

(** X11. The result lists the statements in document order, one per [Stmt]
    element: the statement at position [i] is the one resolved from the
    element at position [i], and its title is [Statement], the number
    [i + 1] in decimal, a colon, the statement currency (possibly empty)
    and [Account].  The titles of one result are pairwise different. *)
Theorem statements_are_numbered_in_document_order
    (libxml : string -> string -> validation)
    (parseStringPromise : string -> built) (xml : string)
    (parsed : list Camt053Statement) :
  parseCamt053 libxml parseStringPromise xml = Ok parsed ->
  exists xmlObj stmts,
    parseStringPromise xml = Tree xmlObj
    /\ statementElements xmlObj = Some stmts
    /\ length parsed = length stmts
    /\ (forall i stmt,
          nth_error stmts i = Some stmt ->
          exists st,
            nth_error parsed i = Some st
            /\ mapStatement i stmt = Ok st
            /\ statementTitle st
               = ("Statement " ++ NilZero.string_of_uint (Nat.to_uint (i + 1))
                    ++ ": " ++ currency st ++ " Account")%string)
    /\ NoDup (map statementTitle parsed).
Proof.
  unfold parseCamt053.
  destruct (detectNamespace xml) as [ns|]; [|discriminate].
  destruct (negb (inTable ns)); [discriminate|].
  destruct (assoc ns NAMESPACE_TO_XSD) as [xsdFile|]; [|discriminate].
  unfold validateXmlWithXsd.
  destruct (libxml xml xsdFile); cbn [bind]; try discriminate.
  destruct (parseStringPromise xml) as [xmlObj|message]; [|discriminate].
  unfold parseTree. rewrite findStatements_ok.
  destruct (statementElements xmlObj) as [stmts|] eqn:SE;
    cbn [bind]; [|discriminate].
  rewrite mapStatements_ok. intros H. inversion H; subst parsed.
  exists xmlObj, stmts. split; [reflexivity|]. split; [exact SE|].
  split; [apply statementsFrom_length|]. split; [|apply titles_NoDup].
  intros i stmt Hi. exists (statementOf i stmt).
  rewrite nth_error_statementsFrom, Hi.
  split; [reflexivity|]. split; [apply mapStatement_ok | reflexivity].
Qed.

Lemma statements_are_numbered_in_document_order_witness :
  exists xmlObj stmts,
    Tree (documentTree camt02 statementWithoutEntries) = Tree xmlObj
    /\ statementElements xmlObj = Some stmts
    /\ length [statementOf 0 statementWithoutEntries] = length stmts
    /\ (forall i stmt,
          nth_error stmts i = Some stmt ->
          exists st,
            nth_error [statementOf 0 statementWithoutEntries] i = Some st
            /\ mapStatement i stmt = Ok st
            /\ statementTitle st
               = ("Statement " ++ NilZero.string_of_uint (Nat.to_uint (i + 1))
                    ++ ": " ++ currency st ++ " Account")%string)
    /\ NoDup (map statementTitle [statementOf 0 statementWithoutEntries]).
Proof.
  apply (statements_are_numbered_in_document_order
           (fun _ _ => Valid)
           (fun _ => Tree (documentTree camt02 statementWithoutEntries))
           (documentHeader camt02)).
  reflexivity.
Defined.

(* ===================================================================== *)
(** ** What the balances are read from (lines 179-189) *)
(* ===================================================================== *)

Lemma assigned_fold (bals : list value) :
  (assigned "OPBD" bals, assigned "CLBD" bals)
  = fold_left assignStep bals (None, None).
Proof. rewrite fold_assignStep. reflexivity. Qed.

Lemma fold_assignStep_booked (bals : list value) (acc : option number * option number) :
  fold_left assignStep bals acc = fold_left assignStep (bookedBalances bals) acc.
Proof.
  revert acc. induction bals as [|b bals IH]; intros acc; [reflexivity|].
  cbn [fold_left bookedBalances filter].
  destruct (hasCode "OPBD" b) eqn:O, (hasCode "CLBD" b) eqn:C;
    cbn [orb fold_left]; try apply IH.
  unfold assignStep at 2. rewrite O, C. destruct acc. apply IH.
Qed.

Lemma fold_assignStep_same (l l' : list value) (acc : option number * option number) :
  Forall2 (fun b b' => balCode b = balCode b' /\ prop b "Amt" = prop b' "Amt") l l' ->
  fold_left assignStep l acc = fold_left assignStep l' acc.
Proof.
  intros H. revert acc. induction H as [|b b' l l' [Hc Ha] _ IH]; intros acc;
    [reflexivity|].
  cbn [fold_left]. rewrite IH. f_equal.
  unfold assignStep, hasCode, balAmount. now rewrite Hc, Ha.
Qed.

(** X12. The opening and the closing balance are read from nothing but the
    type code and the amount element of the blocks coded [OPBD] or [CLBD]:
    two statements whose blocks with these codes agree, in order, on code
    and amount have the same two balances.  Blocks with any other code
    (interim or available balances) are skipped, and the credit/debit
    indicator of a balance block is not read, so the balance of an
    overdrawn account carries no sign. *)
Theorem balances_depend_on_code_and_amount (idx : nat) (stmt stmt' : value) :
  Forall2 (fun b b' => balCode b = balCode b' /\ prop b "Amt" = prop b' "Amt")
          (bookedBalances (balancesOf stmt)) (bookedBalances (balancesOf stmt')) ->
  exists st st',
    mapStatement idx stmt = Ok st /\ mapStatement idx stmt' = Ok st'
    /\ openingBalance st = openingBalance st'
    /\ closingBalance st = closingBalance st'.
Proof.
  intros H. exists (statementOf idx stmt), (statementOf idx stmt').
  split; [apply mapStatement_ok|]. split; [apply mapStatement_ok|].
  cbn [statementOf openingBalance closingBalance].
  assert (E : (assigned "OPBD" (balancesOf stmt), assigned "CLBD" (balancesOf stmt))
              = (assigned "OPBD" (balancesOf stmt'), assigned "CLBD" (balancesOf stmt'))).
  { rewrite !assigned_fold.
    rewrite (fold_assignStep_booked (balancesOf stmt)),
            (fold_assignStep_booked (balancesOf stmt')).
    now apply fold_assignStep_same. }
  inversion E. now split.
Qed.

Lemma balances_depend_on_code_and_amount_witness :
  exists st st',
    mapStatement 0 (statementWithBalances
                      [ datedBalanceBlock "OPBD" "10.50" "DBIT" "2024-03-01";
                        datedBalanceBlock "ITBD" "15.00" "CRDT" "2024-03-01";
                        datedBalanceBlock "CLBD" "20.00" "CRDT" "2024-03-02" ]) = Ok st
    /\ mapStatement 0 (statementWithBalances
                         [ balanceBlock "OPBD" "10.50"; balanceBlock "CLBD" "20.00" ])
       = Ok st'
    /\ openingBalance st = openingBalance st'
    /\ closingBalance st = closingBalance st'.
Proof.
  apply (balances_depend_on_code_and_amount 0
           (statementWithBalances
              [ datedBalanceBlock "OPBD" "10.50" "DBIT" "2024-03-01";
                datedBalanceBlock "ITBD" "15.00" "CRDT" "2024-03-01";
                datedBalanceBlock "CLBD" "20.00" "CRDT" "2024-03-02" ])
           (statementWithBalances
              [ balanceBlock "OPBD" "10.50"; balanceBlock "CLBD" "20.00" ])).
  repeat constructor.
Defined.

(* ===================================================================== *)
(** ** Direction, counterparty and references (lines 215-216 and 234-290) *)
(* ===================================================================== *)

(** X13. Every transaction, detail or synthetic, takes the direction of its
    entry: [credit] when the entry's indicator is exactly [CRDT], [debit]
    when it is exactly [DBIT], and null for any other or missing
    indicator.  An indicator inside the detail block is not read. *)
Theorem transactions_take_the_direction_of_their_entry (idx : nat) (stmt : value) :
  exists st, mapStatement idx stmt = Ok st
    /\ Forall2
         (fun src t =>
            type t
            = match descend (Some (fst src)) ["CdtDbtInd"] with
              | Some (VStr indicator) =>
                  if String.eqb indicator "CRDT" then Some credit
                  else if String.eqb indicator "DBIT" then Some debit
                  else None
              | _ => None
              end)
         (detailSources stmt) (transactions st).
Proof.
  apply statement_transactions. intros [ntry txDtls]. reflexivity.
Qed.

(** X14. The counterparty is the other side of the transaction: for a
    credit the debtor and the debtor account, for a debit the creditor
    and the creditor account, read from the related parties of the detail
    (the party's name, else the name of its nested party; the IBAN, else
    the other account id).  When that yields nothing or an empty text
    (no related parties, no direction, a synthetic detail), the name is
    the first present of the entry's account-servicer reference, the
    entry reference and the detail's proprietary reference, and the
    account the first present of the detail's proprietary reference and
    the entry reference. *)
Theorem counterparty_is_the_other_side (idx : nat) (stmt : value) :
  exists st, mapStatement idx stmt = Ok st
    /\ Forall2
         (fun src t =>
            let ntry := fst src in
            let txDtls := snd src in
            let party role :=
              match descend txDtls ["RltdPties"; role; "Nm"] with
              | Some name => Some name
              | None => descend txDtls ["RltdPties"; role; "Pty"; "Nm"]
              end in
            let account role :=
              match descend txDtls ["RltdPties"; role; "Id"; "IBAN"] with
              | Some iban => Some iban
              | None => descend txDtls ["RltdPties"; role; "Id"; "Othr"; "Id"]
              end in
            let related := truthy (descend txDtls ["RltdPties"]) in
            let ownName :=
              match type t with
              | Some credit => if related then party "Dbtr" else None
              | Some debit => if related then party "Cdtr" else None
              | None => None
              end in
            let ownAccount :=
              match type t with
              | Some credit => if related then account "DbtrAcct" else None
              | Some debit => if related then account "CdtrAcct" else None
              | None => None
              end in
            counterpartyName t
            = (if truthy ownName then ownName
               else firstPresent [ descend (Some ntry) ["AcctSvcrRef"];
                                   descend (Some ntry) ["NtryRef"];
                                   descend txDtls ["Refs"; "Prtry"; "Ref"] ])
            /\ counterpartyAccountIBAN t
               = (if truthy ownAccount then ownAccount
                  else firstPresent [ descend txDtls ["Refs"; "Prtry"; "Ref"];
                                      descend (Some ntry) ["NtryRef"] ]))
         (detailSources stmt) (transactions st).
Proof.
  apply statement_transactions. intros [ntry txDtls].
  cbn [fst snd emitted transactionOf counterpartyName counterpartyAccountIBAN type].
  unfold counterpartyNameFor, counterpartyAccountFor, counterpartyLookup.
  destruct (entryDirection ntry) as [[|]|];
    destruct (truthy (descend txDtls ["RltdPties"]));
    cbn [fst snd firstPresent];
    repeat match goal with
           | |- context [match descend txDtls ?p with _ => _ end] =>
               destruct (descend txDtls p)
           end;
    split; reflexivity.
Qed.

(** X15. The end-to-end reference of a transaction is the detail's
    end-to-end id when that is present and not empty; otherwise it is the
    first present of the detail's clearing-system reference, the detail's
    proprietary reference and the entry reference, and null when none of
    them is present.  The purpose is the detail's purpose code, unchanged,
    and null for a synthetic detail. *)
Theorem end_to_end_reference_and_purpose (idx : nat) (stmt : value) :
  exists st, mapStatement idx stmt = Ok st
    /\ Forall2
         (fun src t =>
            let ntry := fst src in
            let txDtls := snd src in
            endToEndReference t
            = (if truthy (descend txDtls ["Refs"; "EndToEndId"])
               then descend txDtls ["Refs"; "EndToEndId"]
               else match descend txDtls ["Refs"; "ClrSysRef"] with
                    | Some clearing => Some clearing
                    | None =>
                        match descend txDtls ["Refs"; "Prtry"; "Ref"] with
                        | Some proprietary => Some proprietary
                        | None => descend (Some ntry) ["NtryRef"]
                        end
                    end)
            /\ purpose t = descend txDtls ["Purp"; "Cd"]
            /\ (txDtls = None ->
                endToEndReference t = descend (Some ntry) ["NtryRef"]
                /\ purpose t = None))
         (detailSources stmt) (transactions st).
Proof.
  apply statement_transactions. intros [ntry txDtls].
  cbn [fst snd emitted transactionOf endToEndReference purpose].
  unfold endToEndReferenceFor. cbn [firstPresent]. split; [|split].
  - destruct (truthy (descend txDtls ["Refs"; "EndToEndId"])); [reflexivity|].
    destruct (descend txDtls ["Refs"; "ClrSysRef"]); [reflexivity|].
    destruct (descend txDtls ["Refs"; "Prtry"; "Ref"]); [reflexivity|].
    now destruct (descend (Some ntry) ["NtryRef"]).
  - reflexivity.
  - intros ->. rewrite !descend_none. cbn [truthy].
    now destruct (descend (Some ntry) ["NtryRef"]).
Qed.

(** X16. The remittance reference is the creditor reference of the
    detail's structured remittance information when that is present and
    not empty; otherwise, when there is structured remittance
    information, the number of the referred document, else the code of
    its type; it is null when the detail has no structured remittance
    information, and for every synthetic detail. *)
Theorem remittance_reference_sources (idx : nat) (stmt : value) :
  exists st, mapStatement idx stmt = Ok st
    /\ Forall2
         (fun src t =>
            let strd := descend (snd src) ["RmtInf"; "Strd"] in
            remittanceReference t
            = (if truthy (descend strd ["CdtrRefInf"; "Ref"])
               then descend strd ["CdtrRefInf"; "Ref"]
               else if truthy strd
                    then match descend strd ["RfrdDocInf"; "Nb"] with
                         | Some number => Some number
                         | None => descend strd ["RfrdDocInf"; "Tp"; "CdOrPrtry"; "Cd"]
                         end
                    else None)
            /\ (truthy strd = false -> remittanceReference t = None))
         (detailSources stmt) (transactions st).
Proof.
  apply statement_transactions. intros [ntry txDtls].
  cbn [fst snd emitted transactionOf remittanceReference].
  unfold remittanceReferenceFor. cbn [firstPresent]. split.
  - destruct (truthy (descend (descend txDtls ["RmtInf"; "Strd"]) ["CdtrRefInf"; "Ref"]));
      [reflexivity|].
    destruct (truthy (descend txDtls ["RmtInf"; "Strd"])); [|reflexivity].
    destruct (descend (descend txDtls ["RmtInf"; "Strd"]) ["RfrdDocInf"; "Nb"]);
      [reflexivity|].
    now destruct (descend (descend txDtls ["RmtInf"; "Strd"])
                    ["RfrdDocInf"; "Tp"; "CdOrPrtry"; "Cd"]).
  - intros F. rewrite (falsy_descend _ "CdtrRefInf" ["Ref"] F). cbn [truthy].
    now rewrite F.
Qed.

(* ===================================================================== *)
(** ** An entry without transaction details (lines 229-232) *)
(* ===================================================================== *)

(** X17. An entry in which no transaction-detail block is located is not
    dropped: it yields exactly one transaction, built from the entry
    alone.  Date, amount and direction are the entry's; the counterparty
    name is the entry's account-servicer reference, else the entry
    reference; counterparty account and end-to-end reference are the
    entry reference; remittance reference and purpose are null; the
    description is the entry's additional information when not empty,
    else the account-servicer reference, else the statement id, and there
    is no additional description. *)
Theorem entry_without_details_yields_one_transaction
    (stmt : value) (currency : string) (ntry : value) :
  detailBlocks ntry = [] ->
  exists t,
    flattenEntry stmt currency ntry = Ok [t]
    /\ date t = extractDate (descend (Some ntry) ["BookgDt"])
    /\ amount t = extractAmount (descend (Some ntry) ["Amt"])
    /\ type t = directionOf (descend (Some ntry) ["CdtDbtInd"])
    /\ counterpartyName t
       = match descend (Some ntry) ["AcctSvcrRef"] with
         | Some reference => Some reference
         | None => descend (Some ntry) ["NtryRef"]
         end
    /\ counterpartyAccountIBAN t = descend (Some ntry) ["NtryRef"]
    /\ endToEndReference t = descend (Some ntry) ["NtryRef"]
    /\ remittanceReference t = None
    /\ purpose t = None
    /\ description t
       = (if truthy (descend (Some ntry) ["AddtlNtryInf"])
          then descend (Some ntry) ["AddtlNtryInf"]
          else let reference :=
                 match descend (Some ntry) ["AcctSvcrRef"] with
                 | Some servicer => Some servicer
                 | None => descend (Some stmt) ["Id"]
                 end in
               if truthy reference then reference else None)
    /\ descriptionAdditional t = None.
Proof.
  intros H. rewrite flattenEntry_ok. unfold entryTransactions, detailsFor.
  rewrite H. cbn [map]. eexists. split; [reflexivity|].
  cbn [transactionOf date amount type counterpartyName counterpartyAccountIBAN
       endToEndReference remittanceReference purpose description
       descriptionAdditional].
  unfold counterpartyLookup, counterpartyNameFor, counterpartyAccountFor,
    endToEndReferenceFor, remittanceReferenceFor, descriptionSources,
    descriptionTexts, descriptionReference, entryDate, entryAmount, entryDirection.
  rewrite !descend_none.
  cbn [truthy fst snd firstPresent keepTruthy flat_map app extractDate extractAmount].
  split; [now destruct (extractDate (descend (Some ntry) ["BookgDt"]))|].
  split; [now destruct (extractAmount (descend (Some ntry) ["Amt"]))|].
  split; [reflexivity|].
  split; [now destruct (descend (Some ntry) ["AcctSvcrRef"]),
                       (descend (Some ntry) ["NtryRef"])|].
  split; [now destruct (descend (Some ntry) ["NtryRef"])|].
  split; [now destruct (descend (Some ntry) ["NtryRef"])|].
  split; [reflexivity|]. split; [reflexivity|].
  destruct (descend (Some ntry) ["AddtlNtryInf"]) as [a|];
    cbn [truthy]; try destruct (truthyV a);
    cbn [app splitParts hd_error tl fst snd]; try (split; reflexivity);
    (destruct (descend (Some ntry) ["AcctSvcrRef"]) as [r|];
     [|destruct (descend (Some stmt) ["Id"]) as [r|]]);
    cbn [truthy keepTruthy flat_map]; try destruct (truthyV r);
    cbn [app splitParts hd_error tl fst snd]; split; reflexivity.
Qed.

Lemma entry_without_details_yields_one_transaction_witness :
  exists t,
    flattenEntry statementWithoutEntries "EUR" entryWithoutDetails = Ok [t]
    /\ date t = Some "2024-03-01"
    /\ counterpartyName t = Some (VStr "REF-7")
    /\ description t = Some (VStr "Card payment")
    /\ descriptionAdditional t = None.
Proof.
  destruct (entry_without_details_yields_one_transaction
              statementWithoutEntries "EUR" entryWithoutDetails eq_refl)
    as (t & E & D & _ & _ & N & _ & _ & _ & _ & X & A).
  exists t. repeat split; assumption.
Defined.

(* ===================================================================== *)
(** ** What a statement, an entry and a detail are read from *)
(* ===================================================================== *)

Lemma descend_cons (v : value) (k : string) (p : list string) :
  descend (Some v) (k :: p) = descend (prop v k) p.
Proof. reflexivity. Qed.

Lemma descend_cons' (o : jsval) (k : string) (p : list string) :
  descend o (k :: p) = descend (child o k) p.
Proof. reflexivity. Qed.

Lemma transactionOf_same_id (stmt stmt' ntry : value) (ntryDate : option string)
    (ntryAmount : option number) (ntryType : option direction)
    (ntryCurrency : value) (txDtls : jsval) :
  prop stmt "Id" = prop stmt' "Id" ->
  transactionOf stmt ntry ntryDate ntryAmount ntryType ntryCurrency txDtls
  = transactionOf stmt' ntry ntryDate ntryAmount ntryType ntryCurrency txDtls.
Proof.
  intros H. unfold transactionOf, descriptionSources, descriptionReference.
  rewrite !(descend_cons stmt), !(descend_cons stmt'), H. reflexivity.
Qed.

(** X18. A statement is read from seven children of its element (account,
    id, the two sequence numbers, period, creation time, summary) and from
    the lists of its balance blocks and of its entries: two statement
    elements that agree on these resolve to the same statement at the
    same position.  So any other child is ignored, and a single [Bal] or
    [Ntry] element resolves like an array holding just that element. *)
Theorem statement_is_read_from (idx : nat) (stmt stmt' : value) :
  (forall k,
     In k ["Acct"; "Id"; "LglSeqNb"; "ElctrncSeqNb"; "FrToDt"; "CreDtTm"; "TxsSummry"] ->
     prop stmt k = prop stmt' k) ->
  balancesOf stmt = balancesOf stmt' ->
  entriesOf stmt = entriesOf stmt' ->
  mapStatement idx stmt = mapStatement idx stmt'.
Proof.
  intros HK HB HE. rewrite !mapStatement_ok. f_equal.
  pose proof (HK "Acct" ltac:(cbn; auto 10)) as H1.
  pose proof (HK "Id" ltac:(cbn; auto 10)) as H2.
  pose proof (HK "LglSeqNb" ltac:(cbn; auto 10)) as H3.
  pose proof (HK "ElctrncSeqNb" ltac:(cbn; auto 10)) as H4.
  pose proof (HK "FrToDt" ltac:(cbn; auto 10)) as H5.
  pose proof (HK "CreDtTm" ltac:(cbn; auto 10)) as H6.
  pose proof (HK "TxsSummry" ltac:(cbn; auto 10)) as H7.
  assert (T : forall c, transactionsOf stmt c = transactionsOf stmt' c).
  { intros c. unfold transactionsOf. rewrite HE. apply flat_map_ext. intros ntry.
    unfold entryTransactions. apply map_ext. intros txDtls.
    now apply transactionOf_same_id. }
  unfold statementOf, statementDateTiers, balanceDates, sequenceNumberOf, summaryOf.
  cbv zeta. rewrite T.
  rewrite !(descend_cons stmt), !(descend_cons stmt').
  rewrite H1, H3, H4, H5, H6, H7, HB, HE. reflexivity.
Qed.

Lemma statement_is_read_from_witness :
  mapStatement 0
    (VObj [ ("Id", VStr "STMT-1");
            ("StmtPgntn", VObj [("PgNb", VStr "1"); ("LastPgInd", VStr "true")]);
            ("Acct", VObj [("Ccy", VStr "EUR")]);
            ("Bal", balanceBlock "CLBD" "20.00");
            ("Ntry", entryWithoutDetails) ])
  = mapStatement 0
      (VObj [ ("Id", VStr "STMT-1");
              ("Acct", VObj [("Ccy", VStr "EUR")]);
              ("Bal", VArr [balanceBlock "CLBD" "20.00"]);
              ("Ntry", VArr [entryWithoutDetails]);
              ("AddtlStmtInf", VStr "monthly") ]).
Proof.
  apply statement_is_read_from; try reflexivity.
  intros k H. cbn [In] in H.
  repeat (destruct H as [<-|H]; [reflexivity|]). destruct H.
Defined.

(** X19. An entry is read from six of its children (booking date, amount,
    credit/debit indicator, account-servicer reference, entry reference,
    additional entry information) and from the transaction-detail blocks
    located in it: two entries that agree on these are flattened to the
    same transactions.  Status, reversal indicator, value date and bank
    transaction code are not read: a pending or reversed entry is
    reported exactly like the booked one. *)
Theorem entry_is_read_from (stmt : value) (currency : string) (ntry ntry' : value) :
  (forall k,
     In k ["BookgDt"; "Amt"; "CdtDbtInd"; "AcctSvcrRef"; "NtryRef"; "AddtlNtryInf"] ->
     prop ntry k = prop ntry' k) ->
  detailBlocks ntry = detailBlocks ntry' ->
  flattenEntry stmt currency ntry = flattenEntry stmt currency ntry'.
Proof.
  intros HK HD. rewrite !flattenEntry_ok. f_equal.
  pose proof (HK "BookgDt" ltac:(cbn; auto 10)) as H1.
  pose proof (HK "Amt" ltac:(cbn; auto 10)) as H2.
  pose proof (HK "CdtDbtInd" ltac:(cbn; auto 10)) as H3.
  pose proof (HK "AcctSvcrRef" ltac:(cbn; auto 10)) as H4.
  pose proof (HK "NtryRef" ltac:(cbn; auto 10)) as H5.
  pose proof (HK "AddtlNtryInf" ltac:(cbn; auto 10)) as H6.
  unfold entryTransactions, detailsFor. rewrite HD.
  unfold entryDate, entryAmount, entryDirection, entryBaselineCurrency.
  rewrite !(descend_cons ntry), !(descend_cons ntry'), H1, H2, H3.
  destruct (detailBlocks ntry') as [|b l]; apply map_ext; intros txDtls;
    unfold transactionOf, counterpartyNameFor, counterpartyAccountFor,
      endToEndReferenceFor, descriptionSources, descriptionTexts,
      descriptionReference;
    rewrite !(descend_cons ntry), !(descend_cons ntry'), H4, H5, H6; reflexivity.
Qed.

Lemma entry_is_read_from_witness :
  flattenEntry statementWithoutEntries "EUR" entryWithoutDetails
  = flattenEntry statementWithoutEntries "EUR" entryPendingReversed.
Proof.
  apply entry_is_read_from; try reflexivity.
  intros k H. cbn [In] in H.
  repeat (destruct H as [<-|H]; [reflexivity|]). destruct H.
Defined.

(** X20. A transaction-detail block is read from seven of its children
    (related parties, references, remittance information, purpose,
    additional transaction information, booking date, amount): two blocks
    that agree on these give the same transaction within the same entry.
    The block's own credit/debit indicator, its amount details and its
    charges are not read. *)
Theorem detail_is_read_from (stmt ntry : value) (ntryDate : option string)
    (ntryAmount : option number) (ntryType : option direction)
    (ntryCurrency : value) (txDtls txDtls' : value) :
  (forall k,
     In k ["RltdPties"; "Refs"; "RmtInf"; "Purp"; "AddtlTxInf"; "BookgDt"; "Amt"] ->
     prop txDtls k = prop txDtls' k) ->
  flattenDetail stmt ntry ntryDate ntryAmount ntryType ntryCurrency (Some txDtls)
  = flattenDetail stmt ntry ntryDate ntryAmount ntryType ntryCurrency (Some txDtls').
Proof.
  intros HK. rewrite !flattenDetail_ok. f_equal.
  pose proof (HK "RltdPties" ltac:(cbn; auto 10)) as H1.
  pose proof (HK "Refs" ltac:(cbn; auto 10)) as H2.
  pose proof (HK "RmtInf" ltac:(cbn; auto 10)) as H3.
  pose proof (HK "Purp" ltac:(cbn; auto 10)) as H4.
  pose proof (HK "AddtlTxInf" ltac:(cbn; auto 10)) as H5.
  pose proof (HK "BookgDt" ltac:(cbn; auto 10)) as H6.
  pose proof (HK "Amt" ltac:(cbn; auto 10)) as H7.
  unfold transactionOf, counterpartyLookup, counterpartyNameFor,
    counterpartyAccountFor, endToEndReferenceFor, remittanceReferenceFor,
    descriptionSources, descriptionTexts, descriptionReference.
  rewrite !(descend_cons txDtls), !(descend_cons txDtls').
  rewrite H1, H2, H3, H4, H5, H6, H7. reflexivity.
Qed.

Lemma detail_is_read_from_witness :
  flattenDetail statementWithoutEntries entryWithoutDetails None None (Some credit)
    (VStr "EUR")
    (Some (VObj [ ("Refs", VObj [("EndToEndId", VStr "E2E-1")]);
                  ("CdtDbtInd", VStr "DBIT");
                  ("Amt", VObj [("_", VStr "40.00"); ("Ccy", VStr "EUR")]);
                  ("Chrgs", VObj [("TtlChrgsAndTaxAmt", VStr "0.50")]) ]))
  = flattenDetail statementWithoutEntries entryWithoutDetails None None (Some credit)
      (VStr "EUR") (Some (detailBlock "E2E-1" "40.00")).
Proof.
  apply detail_is_read_from.
  intros k H. cbn [In] in H.
  repeat (destruct H as [<-|H]; [reflexivity|]). destruct H.
Defined.

(* ===================================================================== *)
(** ** The statement date and the dates of the transactions *)
(* ===================================================================== *)

Lemma firstPresent_flat_map {A B : Type} (f g : A -> list (option B)) (l : list A) :
  (forall a, firstPresent (f a) = firstPresent (g a)) ->
  firstPresent (flat_map f l) = firstPresent (flat_map g l).
Proof.
  intros H. induction l as [|a l IH]; [reflexivity|].
  cbn [flat_map]. now rewrite !firstPresent_app, H, IH.
Qed.

Lemma map_over_flat_map {A B C : Type} (f : B -> C) (g : A -> list B) (l : list A) :
  map f (flat_map g l) = flat_map (fun a => map f (g a)) l.
Proof.
  induction l as [|a l IH]; [reflexivity|].
  cbn [flat_map]. now rewrite map_app, IH.
Qed.

Lemma entry_candidates_are_transaction_dates
    (stmt : value) (currency : string) (ntry : value) :
  firstPresent (entryDateCandidates ntry)
  = firstPresent (map date (entryTransactions stmt currency ntry)).
Proof.
  unfold entryDateCandidates, entryTransactions, detailsFor, entryDate.
  rewrite firstPresent_app.
  destruct (detailBlocks ntry) as [|b l].
  - cbn [map transactionOf date]. rewrite descend_none.
    cbn [firstPresent extractDate].
    now destruct (extractDate (descend (Some ntry) ["BookgDt"])).
  - rewrite !map_map.
    replace (map (fun x => date (transactionOf stmt ntry
                                   (extractDate (descend (Some ntry) ["BookgDt"]))
                                   (entryAmount ntry) (entryDirection ntry)
                                   (entryBaselineCurrency currency ntry) (Some x)))
                 (b :: l))
      with (map (detailDate ntry) (b :: l)) by reflexivity.
    destruct (firstPresent (map (detailDate ntry) (b :: l))) eqn:E; [reflexivity|].
    cbn [map firstPresent] in E. unfold detailDate at 1 in E.
    cbn [firstPresent] in E.
    destruct (extractDate (descend (Some b) ["BookgDt"])); [discriminate|].
    destruct (extractDate (descend (Some ntry) ["BookgDt"])); [discriminate|].
    reflexivity.
Qed.

(** X21. When neither the period, nor the creation time, nor any balance
    block of a statement yields a date, the statement date is the date of
    the first transaction of the statement that has one, in the order of
    the transactions list, and the empty string when no transaction has a
    date. *)
Theorem statement_date_from_first_dated_transaction (idx : nat) (stmt : value) :
  exists st, mapStatement idx stmt = Ok st
    /\ (extractDate (descend (Some stmt) ["FrToDt"; "ToDtTm"]) = None ->
        extractDate (descend (Some stmt) ["FrToDt"; "ToDt"]) = None ->
        extractDate (descend (Some stmt) ["CreDtTm"]) = None ->
        balanceDates stmt = [] ->
        statementDate st
        = match firstPresent (map date (transactions st)) with
          | Some first => first
          | None => EmptyString
          end).
Proof.
  exists (statementOf idx stmt). split; [apply mapStatement_ok|].
  intros H1 H2 H3 H4. cbn [statementOf statementDate transactions].
  unfold statementDateTiers. rewrite H1, H2, H3, H4.
  cbn [map last firstPresent].
  unfold transactionsOf. rewrite map_over_flat_map.
  rewrite (firstPresent_flat_map entryDateCandidates
             (fun ntry => map date (entryTransactions stmt
                (currencyText (descend (Some stmt) ["Acct"; "Ccy"])) ntry))).
  - now destruct (firstPresent _).
  - intros ntry. apply entry_candidates_are_transaction_dates.
Qed.

(* ===================================================================== *)
(** ** The order of the top-level steps (lines 91-103) *)
(* ===================================================================== *)

Lemma schema_of_namespace (ns xsdFile : string) :
  assoc ns NAMESPACE_TO_XSD = Some xsdFile ->
  exists version,
    ns = (isoNamespace ++ version)%string /\ xsdFile = (version ++ ".xsd")%string.
Proof.
  unfold NAMESPACE_TO_XSD. cbn [assoc].
  repeat match goal with
         | |- (if String.eqb ns ?k then _ else _) = _ -> _ =>
             destruct (String.eqb_spec ns k) as [->|_]
         end;
    intros H; inversion H; subst.
  - now exists "camt.053.001.02".
  - now exists "camt.053.001.08".
  - now exists "camt.053.001.13".
Qed.

(** X22. The parser asks the validator one question only: the document
    against the schema file named after the version of the declared
    namespace (the namespace without its ISO head, followed by [.xsd]).
    It consults the tree builder only when the answer is that the
    document is valid.  Two validators that agree on that question, and
    two tree builders that agree on the document when it is valid, give
    the same outcome, result or error. *)
Theorem parse_depends_on_one_validation
    (libxml libxml' : string -> string -> validation)
    (parseStringPromise parseStringPromise' : string -> built) (xml : string) :
  (forall version,
     detectNamespace xml = Some (isoNamespace ++ version)%string ->
     libxml xml (version ++ ".xsd")%string = libxml' xml (version ++ ".xsd")%string
     /\ (libxml xml (version ++ ".xsd")%string = Valid ->
         parseStringPromise xml = parseStringPromise' xml)) ->
  parseCamt053 libxml parseStringPromise xml
  = parseCamt053 libxml' parseStringPromise' xml.
Proof.
  intros H. unfold parseCamt053.
  destruct (detectNamespace xml) as [ns|]; [|reflexivity].
  destruct (negb (inTable ns)); [reflexivity|].
  destruct (assoc ns NAMESPACE_TO_XSD) as [xsdFile|] eqn:E; [|reflexivity].
  destruct (schema_of_namespace ns xsdFile E) as (version & -> & ->).
  destruct (H version eq_refl) as [Hv Ht].
  unfold validateXmlWithXsd. rewrite <- Hv.
  destruct (libxml xml (version ++ ".xsd")%string); cbn [bind]; try reflexivity.
  now rewrite (Ht eq_refl).
Qed.

Lemma parse_depends_on_one_validation_witness :
  parseCamt053 (fun _ _ => Valid)
    (fun _ => Tree (documentTree camt02 statementWithoutEntries)) (documentHeader camt02)
  = parseCamt053 (validatorFor "camt.053.001.02.xsd" Valid)
      (fun _ => Tree (documentTree camt02 statementWithoutEntries)) (documentHeader camt02).
Proof.
  apply parse_depends_on_one_validation.
  intros version H. vm_compute in H. inversion H. split; reflexivity.
Defined.

(* ===================================================================== *)
(** ** The sample runner ([parse-samples.ts]) *)
(* ===================================================================== *)

Lemma visit_all (libxml : string -> string -> validation)
    (parseStringPromise : string -> built) (readFileSync : string -> option string)
    (files : list string) (console : list consoleCall) :
  fold_left (visit libxml parseStringPromise readFileSync) files console
  = console
    ++ flat_map (fun file =>
                   [ LogText (banner file);
                     match attempt libxml parseStringPromise readFileSync file with
                     | inl parsed => LogStatements parsed
                     | inr err => handle err
                     end ])
                files.
Proof.
  revert console. induction files as [|file files IH]; intros console.
  - cbn [fold_left flat_map]. now rewrite app_nil_r.
  - cbn [fold_left flat_map]. rewrite IH. unfold visit.
    destruct (attempt libxml parseStringPromise readFileSync file);
      rewrite <- !app_assoc; reflexivity.
Qed.

Lemma nth_error_pairs {A B : Type} (g h : A -> B) (l : list A) (i : nat) (a : A) :
  nth_error l i = Some a ->
  nth_error (flat_map (fun x => [g x; h x]) l) (2 * i) = Some (g a)
  /\ nth_error (flat_map (fun x => [g x; h x]) l) (2 * i + 1) = Some (h a).
Proof.
  revert i. induction l as [|x l IH]; intros [|i] H; try discriminate.
  - inversion H; subst. split; reflexivity.
  - replace (2 * S i) with (S (S (2 * i))) by lia.
    replace (S (S (2 * i)) + 1) with (S (S (2 * i + 1))) by lia.
    cbn [flat_map app nth_error]. now apply IH.
Qed.

Lemma length_pairs {A B : Type} (g h : A -> B) (l : list A) :
  length (flat_map (fun x => [g x; h x]) l) = 2 * length l.
Proof.
  induction l as [|x l IH]; [reflexivity|].
  cbn [flat_map app length]. rewrite IH. lia.
Qed.

(** X23. The runner reports every sample once and survives every failure:
    when the samples directory can be listed, the console receives, for
    the files whose names end in [.xml] and in the order of the listing,
    a banner that names the file followed by exactly one report: the
    statements, the message of a typed parser error behind [Error: ], or
    the unexpected error (a file that cannot be read, a TypeError).
    Other files are not touched, and no failure keeps the next file from
    being parsed. *)
Theorem main_reports_every_sample
    (libxml : string -> string -> validation)
    (parseStringPromise : string -> built)
    (names : list string) (readFileSync : string -> option string) :
  exists console,
    main libxml parseStringPromise (Some names) readFileSync = Some console
    /\ length console = 2 * length (filter (endsWith ".xml") names)
    /\ forall i file,
         nth_error (filter (endsWith ".xml") names) i = Some file ->
         nth_error console (2 * i) = Some (LogText (banner file))
         /\ nth_error console (2 * i + 1)
            = Some match readFileSync file with
                   | None => ErrorUnexpected ReadFailed
                   | Some xml =>
                       match parseCamt053 libxml parseStringPromise xml with
                       | Ok parsed => LogStatements parsed
                       | Throw (Camt053ParserError message) =>
                           ErrorText ("Error: " ++ message)
                       | Throw other => ErrorUnexpected (ParserThrew other)
                       end
                   end.
Proof.
  eexists. split; [reflexivity|]. rewrite visit_all. cbn [app]. split.
  - apply length_pairs.
  - intros i file H.
    destruct (nth_error_pairs
                (fun file => LogText (banner file))
                (fun file => match attempt libxml parseStringPromise readFileSync file with
                             | inl parsed => LogStatements parsed
                             | inr err => handle err
                             end)
                _ i file H) as [B R].
    split; [exact B|]. rewrite R. f_equal. unfold attempt.
    destruct (readFileSync file) as [xml|]; [|reflexivity].
    destruct (parseCamt053 libxml parseStringPromise xml)
      as [parsed|[|message|message]]; reflexivity.
Qed.
